(** * Procedural sound-effect synthesis: make_witcher_sfx.py and make_witcher_sfx_v2.py

    A shallow embedding of the two synthesis scripts and the proofs of the
    properties stated about them.

    Number model.
    - Durations, fade times and delays are Python floats, that is IEEE-754
      binary64 values.  They decide array lengths and slice bounds through
      [int(sr * seconds)], so they are modelled bit-exactly with the kernel's
      primitive floats: [int(44100 * 0.35)] is 15434 here as it is in Python.
    - Sample amplitudes, gains and filter coefficients are modelled in the
      real numbers [R]: rounding of amplitude arithmetic is idealised away.
    - A NumPy array of shape (n,) is a [list R], one of shape (n, 2) a
      [list (R * R)].
    - A Python exception is [None]; code that draws random numbers runs in a
      state-and-error monad over an explicit random source. *)

From Stdlib Require Import Reals Lra Lia ZArith.
From Stdlib Require Import Floats.PrimFloat Floats.SpecFloat Floats.FloatOps.
From stdpp Require Import base option list.

Set Warnings "-inexact-float".
Set Default Proof Using "Type".

(* ================================================================== *)
(** * The Python and NumPy run-time behaviour the scripts rely on       *)
(* ================================================================== *)

Module Py.

(** ** Scalars *)

(** [int(f)] on a float: truncation toward zero; [OverflowError] on an
    infinity and [ValueError] on a NaN. *)
Definition int_of_float (f : float) : option Z :=
  match Prim2SF f with
  | S754_zero _ => Some 0%Z
  | S754_finite s m e =>
      let a := (if 0 <=? e then Z.pos m * 2 ^ e else Z.pos m / 2 ^ (- e))%Z in
      Some (if s then (- a)%Z else a)
  | S754_infinity _ | S754_nan => None
  end.

(** An [int] operand of a float operation is converted to the nearest
    float; [OverflowError] when it is too large. *)
Definition float_of_int (z : Z) : option float :=
  let f := SF2Prim (binary_normalize prec emax z 0 false) in
  if is_infinity f then None else Some f.

(** [round(f)] on a float: nearest integer, ties to even. *)
Definition round_float (f : float) : option Z :=
  match Prim2SF f with
  | S754_zero _ => Some 0%Z
  | S754_finite s m e =>
      let a :=
        (if 0 <=? e then Z.pos m * 2 ^ e
         else let q := Z.pos m / 2 ^ (- e) in
              let r := Z.pos m mod 2 ^ (- e) in
              let h := 2 ^ (- e - 1) in
              if (h <? r) || ((r =? h) && Z.odd q) then q + 1 else q)%Z in
      Some (if s then (- a)%Z else a)
  | S754_infinity _ | S754_nan => None
  end.

(** The real number a finite float denotes (0 for the non-finite ones, which
    never reach amplitude arithmetic: [int] has raised before). *)
Definition to_R (f : float) : R :=
  match Prim2SF f with
  | S754_finite s m e => (IZR (if s then Z.neg m else Z.pos m) * powerRZ 2 e)%R
  | _ => 0%R
  end.

(** Float division [a / b]: [ZeroDivisionError] on a zero divisor. *)
Definition div (a b : R) : option R :=
  if Req_dec_T b 0 then None else Some (a / b)%R.

(** [x ** y] for a float base [x >= 0] and a positive float exponent. *)
Definition pow (x y : R) : R :=
  if Rlt_dec 0 x then Rpower x y else 0%R.

(** ** Indices, ranges and slices *)

(** [range(a, b)] *)
Definition range (a b : Z) : list Z := seqZ a (b - a).

(** The position [a[i]] denotes in an array of [n] elements: negative
    indices count from the end; [IndexError] outside [-n, n). *)
Definition index (n : nat) (i : Z) : option nat :=
  if decide (0 <= i < Z.of_nat n)%Z then Some (Z.to_nat i)
  else if decide (- Z.of_nat n <= i < 0)%Z then Some (Z.to_nat (Z.of_nat n + i))
  else None.

Definition get {A} (a : list A) (i : Z) : option A :=
  k ← index (length a) i; a !! k.

Definition set {A} (a : list A) (i : Z) (v : A) : option (list A) :=
  k ← index (length a) i; Some (<[k := v]> a).

(** A slice bound, clipped the way [a[lo:hi]] clips it (step 1). *)
Definition clip_bound (n : nat) (i : Z) : nat :=
  if (i <? 0)%Z then Z.to_nat (Z.max 0 (i + Z.of_nat n))
  else Z.to_nat (Z.min i (Z.of_nat n)).

(** Start and length of [a[lo:hi]] for [len(a) = n]; [None] is an omitted
    bound. *)
Definition slice_range (n : nat) (lo hi : option Z) : nat * nat :=
  let s := from_option (clip_bound n) 0%nat lo in
  let e := from_option (clip_bound n) n hi in
  (s, (e - s)%nat).

Definition slice {A} (a : list A) (lo hi : option Z) : list A :=
  let '(s, k) := slice_range (length a) lo hi in take k (drop s a).

(** NumPy broadcasting of a one-axis operand to [k] rows: the lengths agree
    or the operand has one row; [ValueError] otherwise. *)
Definition broadcast {A} (k : nat) (v : list A) : option (list A) :=
  if decide (length v = k) then Some v
  else match v with
       | [a] => Some (replicate k a)
       | _ => None
       end.

(** [a[lo:hi] = f(a[lo:hi], v)] row by row, in place: slice assignment
    ([f] keeps the operand) and the augmented assignments [*=], [+=]. *)
Definition slice_update {A B} (f : A → B → A) (a : list A) (lo hi : option Z)
    (v : list B) : option (list A) :=
  let '(s, k) := slice_range (length a) lo hi in
  v' ← broadcast k v;
  Some (take s a ++ zip_with f (take k (drop s a)) v' ++ drop (s + k) a).

(** Elementwise binary operation on two one-axis arrays. *)
Definition zip_arrays {A} (f : A → A → A) (a b : list A) : option (list A) :=
  if decide (length a = length b) then Some (zip_with f a b)
  else match a, b with
       | [x], _ => Some (fmap (f x) b)
       | _, [y] => Some (fmap (λ x, f x y) a)
       | _, _ => None
       end.

(** A [for] loop over a list of indices, the body updating the loop state
    or raising. *)
Definition for_each {S} (l : list Z) (body : Z → S → option S) (s : S) : option S :=
  foldl (λ acc i, acc ≫= body i) (Some s) l.

(** ** Array constructors *)

Definition zeros (n : Z) : option (list R) :=
  if decide (n < 0)%Z then None else Some (replicate (Z.to_nat n) 0%R).

Definition ones (n : Z) : option (list R) :=
  if decide (n < 0)%Z then None else Some (replicate (Z.to_nat n) 1%R).

(** Element [i] of [np.linspace(start, stop, num)], end point included: the
    step is [(stop - start) / (num - 1)]; one point is [start]. *)
Definition linspace_at (start stop : R) (num : Z) (i : nat) : R :=
  if decide (num = 1)%Z then start
  else (start + INR i * ((stop - start) / IZR (num - 1)))%R.

(** [np.linspace(start, stop, num)]: [ValueError] on a negative [num]. *)
Definition linspace (start stop : R) (num : Z) : option (list R) :=
  if decide (num < 0)%Z then None
  else Some (linspace_at start stop num <$> seq 0 (Z.to_nat num)).

(** [np.linspace(start, stop, num, endpoint=False)] *)
Definition linspace_open (start stop : R) (num : Z) : option (list R) :=
  if decide (num < 0)%Z then None
  else Some (fmap (λ i : nat, (start + INR i * ((stop - start) / IZR num))%R)
               (seq 0 (Z.to_nat num))).

(** [np.hanning(M)] *)
Definition hanning (M : Z) : list R :=
  if decide (M < 1)%Z then []
  else if decide (M = 1)%Z then [1%R]
  else fmap (λ k : nat, (0.5 + 0.5 * cos (PI * IZR (1 - M + 2 * Z.of_nat k) / IZR (M - 1)))%R)
         (seq 0 (Z.to_nat M)).

(** [np.clip(x, lo, hi)] on one element *)
Definition clip (lo hi x : R) : R := Rmin (Rmax x lo) hi.

(** [np.max(np.abs(a))] over the flattened array: [ValueError] on an
    empty one. *)
Definition max_abs (a : list R) : option R :=
  match a with
  | [] => None
  | x :: l => Some (foldl (λ m y, Rmax m (Rabs y)) (Rabs x) l)
  end.

(** ** Integer arrays and bytes *)

(** The C cast of a float to an integer: truncation toward zero. *)
Definition trunc (x : R) : Z :=
  if Rle_dec 0 x then Int_part x else (- Int_part (- x))%Z.

(** What a signed 16-bit integer keeps of [z]: its low 16 bits. *)
Definition wrap16 (z : Z) : Z := ((z + 32768) mod 65536 - 32768)%Z.

(** [np.int16(v)] and [v.astype(np.int16)] on one float element: the C
    cast; a value outside the 16-bit range keeps its low 16 bits (what
    NumPy's usual builds give below 2^31 in magnitude). *)
Definition astype_int16 (x : R) : Z := wrap16 (trunc x).

(** The two bytes of an int16 in memory, low byte first (a little-endian
    host). *)
Definition int16_bytes (z : Z) : list Z :=
  let u := (z mod 65536)%Z in [(u mod 256)%Z; (u / 256)%Z].

(** [a.tobytes()] of an int16 array of shape (n, 2): the rows in order, the
    left sample before the right one. *)
Definition tobytes (a : list (Z * Z)) : list Z :=
  a ≫= λ p, int16_bytes p.1 ++ int16_bytes p.2.

End Py.

(* ================================================================== *)
(** * The random source                                                 *)
(* ================================================================== *)

(** The scripts draw from two process-wide generators: NumPy's
    ([np.random.uniform]) and the [random] module's ([random.random],
    [random.randint]).  Each is modelled as the tape of raw uniform draws in
    [[0, 1)] it will produce from its seed, with a cursor: a seed is a state
    of type [Rng], and every draw advances the cursor. *)
Module Rand.

Record Rng := mkRng {
  np_tape : nat → R;
  np_pos : nat;
  py_tape : nat → R;
  py_pos : nat
}.

(** A source is valid when all its raw draws are in [[0, 1)]. *)
Definition valid (s : Rng) : Prop :=
  ∀ k, (0 <= np_tape s k < 1)%R ∧ (0 <= py_tape s k < 1)%R.

(** Computations that may raise and may draw. *)
Definition M (A : Type) : Type := Rng → option (A * Rng).

#[export] Instance M_ret : MRet M := λ A a s, Some (a, s).
#[export] Instance M_bind : MBind M := λ A B f m s,
  match m s with
  | Some (a, s') => f a s'
  | None => None
  end.

(** A computation that may raise but does not draw. *)
Definition ok {A} (o : option A) : M A := λ s,
  match o with
  | Some a => Some (a, s)
  | None => None
  end.

(** [random.random()] *)
Definition random : M R := λ s,
  Some (py_tape s (py_pos s),
        mkRng (np_tape s) (np_pos s) (py_tape s) (S (py_pos s))).

(** [random.randint(a, b)]: an integer of [[a, b]] decided by one raw draw
    ([ValueError] on an empty range).  CPython derives it from raw bits by
    rejection; only the range and the dependence on the source matter
    here. *)
Definition randint (a b : Z) : M Z := λ s,
  if decide (b < a)%Z then None
  else Some ((a + Int_part (py_tape s (py_pos s) * IZR (b - a + 1)))%Z,
             mkRng (np_tape s) (np_pos s) (py_tape s) (S (py_pos s))).

(** [np.random.uniform(low, high, size=n)] *)
Definition uniform (low high : R) (n : Z) : M (list R) := λ s,
  if decide (n < 0)%Z then None
  else Some (fmap (λ k, (low + (high - low) * np_tape s (np_pos s + k))%R)
                 (seq 0 (Z.to_nat n)),
             mkRng (np_tape s) (np_pos s + Z.to_nat n) (py_tape s) (py_pos s)).

(** A [for] loop whose body may raise and may draw. *)
Fixpoint for_each {S} (l : list Z) (body : Z → S → M S) (s : S) : M S :=
  match l with
  | [] => mret s
  | i :: l' => s' ← body i s; for_each l' body s'
  end.

End Rand.
Export Rand.

(* ================================================================== *)
(** * What both scripts share                                           *)
(* ================================================================== *)

(** SAMPLE_RATE = 44100 *)
Definition SAMPLE_RATE : Z := 44100.

(** The keys of [DURATION_S] and [GENERATORS]. *)
Inductive glyph := gale | ember | ward | snare | soothe | void | aegis.

#[export] Instance glyph_eq_dec : EqDecision glyph.
Proof. solve_decision. Defined.

(** DURATION_S, the same table in both scripts. *)
Definition DURATION_S (name : glyph) : float :=
  match name with
  | gale => 0.9
  | ember => 0.9
  | ward => 0.9
  | snare => 0.6
  | soothe => 1.1
  | void => 1.0
  | aegis => 1.1
  end%float.

(** One row of an array along its first axis: a sample of a mono array, a
    left/right pair of a stereo one.  The functions the scripts apply to
    arrays of either shape are written once over this interface. *)
Class Frame (A : Type) := {
  chans : A → list R;
  on_chans : (R → R) → A → A;
  chans_on_chans : ∀ f a, chans (on_chans f a) = fmap f (chans a);
  chans_inj : ∀ a b, chans a = chans b → a = b;
  chans_nonempty : ∀ a, chans a ≠ []
}.

#[export] Program Instance mono_frame : Frame R :=
  {| chans s := [s]; on_chans f s := f s |}.
Next Obligation. done. Qed.
Next Obligation. intros a b H. by injection H. Qed.
Next Obligation. done. Qed.

#[export] Program Instance stereo_frame : Frame (R * R) :=
  {| chans p := [p.1; p.2]; on_chans f p := (f p.1, f p.2) |}.
Next Obligation. done. Qed.
Next Obligation. intros [a1 a2] [b1 b2] H. simpl in H. by injection H as -> ->. Qed.
Next Obligation. done. Qed.

(** The flattened array. *)
Definition flat {A} `{Frame A} (x : list A) : list R := x ≫= chans.

(** A row times a scalar gain. *)
Definition scale {A} `{Frame A} (a : A) (g : R) : A := on_chans (λ s, (s * g)%R) a.

(** [int(sr * seconds)] *)
Definition samples (sr : Z) (seconds : float) : option Z :=
  f ← Py.float_of_int sr; Py.int_of_float (f * seconds)%float.

(** [int(seconds * sr)] *)
Definition samples_r (seconds : float) (sr : Z) : option Z :=
  f ← Py.float_of_int sr; Py.int_of_float (seconds * f)%float.

(** [int(sr * ms / 1000.0)] *)
Definition ms_samples (sr : Z) (ms : float) : option Z :=
  f ← Py.float_of_int sr; Py.int_of_float (f * ms / 1000)%float.

(** A whole array updated in place from an operand: [a op= v]. *)
Definition inplace {A B} (f : A → B → A) (a : list A) (v : list B) : option (list A) :=
  v' ← Py.broadcast (length a) v; Some (zip_with f a v').

(** [np.stack([l, r], axis=1)]: [ValueError] unless the shapes agree. *)
Definition stack (l r : list R) : option (list (R * R)) :=
  if decide (length l = length r) then Some (zip l r) else None.

(** [y[:, 0] += v] and [y[:, 1] += v] *)
Definition add_left (p : R * R) (v : R) : R * R := ((p.1 + v)%R, p.2).
Definition add_right (p : R * R) (v : R) : R * R := (p.1, (p.2 + v)%R).

(** Scalar-with-array arithmetic. *)
Definition smul (k : R) (v : list R) : list R := fmap (λ s, (k * s)%R) v.
Definition sadd (k : R) (v : list R) : list R := fmap (λ s, (k + s)%R) v.

(* ================================================================== *)
(** * make_witcher_sfx.py                                               *)
(* ================================================================== *)

Module V1.
Local Open Scope R_scope.

(** ** Low-level audio helpers *)

Definition _to_stereo (x : list R) : list (R * R) := zip x x.

Definition _normalize_peak {A} `{Frame A} (x : list A) (peak : R) : option (list A) :=
  m ← Py.max_abs (flat x);
  let max_abs := m + 1e-12 in
  Some (fmap (on_chans (λ s, s / max_abs * peak)) x).

Definition _fade {A} `{Frame A} (x : list A) (sr : Z) (fade_in_s fade_out_s : float)
    : option (list A) :=
  fi ← samples sr fade_in_s;
  fo ← samples sr fade_out_s;
  x ← (if decide (0 < fi)%Z then
         fade_in ← Py.linspace 0 1 fi;
         Py.slice_update scale x None (Some fi) fade_in
       else Some x);
  if decide (0 < fo)%Z then
    fade_out ← Py.linspace 1 0 fo;
    Py.slice_update scale x (Some (- fo)%Z) None fade_out
  else Some x.

Definition _apply_lowpass (x : list R) (cutoff_hz : R) (sr : Z) : option (list R) :=
  rc ← Py.div 1 (2 * PI * cutoff_hz);
  dt ← Py.div 1 (IZR sr);
  alpha ← Py.div dt (rc + dt);
  let y := replicate (length x) 0 in
  x0 ← Py.get x 0;
  y ← Py.set y 0 x0;
  Py.for_each (Py.range 1 (Z.of_nat (length x)))
    (λ i y,
       y1 ← Py.get y (i - 1);
       xi ← Py.get x i;
       Py.set y i (y1 + alpha * (xi - y1)))
    y.

Definition _apply_highpass (x : list R) (cutoff_hz : R) (sr : Z) : option (list R) :=
  rc ← Py.div 1 (2 * PI * cutoff_hz);
  dt ← Py.div 1 (IZR sr);
  alpha ← Py.div rc (rc + dt);
  let y := replicate (length x) 0 in
  x0 ← Py.get x 0;
  y ← Py.set y 0 x0;
  Py.for_each (Py.range 1 (Z.of_nat (length x)))
    (λ i y,
       y1 ← Py.get y (i - 1);
       xi ← Py.get x i;
       x1 ← Py.get x (i - 1);
       Py.set y i (alpha * (y1 + xi - x1)))
    y.

(** The loop of [_comb_filter]: [y = np.copy(x)], then
    [y[i] += feedback * y[i - delay_samples]] for [i] in
    [range(delay_samples, len(x))]. *)
Definition comb_loop (x : list R) (delay_samples : Z) (feedback : R) : option (list R) :=
  Py.for_each (Py.range delay_samples (Z.of_nat (length x)))
    (λ i y,
       yi ← Py.get y i;
       yd ← Py.get y (i - delay_samples);
       Py.set y i (yi + feedback * yd))
    x.

Definition _comb_filter (x : list R) (delay_ms : float) (feedback : R) (sr : Z)
    : option (list R) :=
  delay_samples ← ms_samples sr delay_ms;
  y ← comb_loop x delay_samples feedback;
  _normalize_peak y 0.9.

(** [int(sr * (base_delay_ms * t) / 1000.0)] *)
Definition tap_delay (sr : Z) (base_delay_ms : float) (t : Z) : option Z :=
  f ← Py.float_of_int sr;
  ft ← Py.float_of_int t;
  Py.int_of_float (f * (base_delay_ms * ft) / 1000)%float.

(** [tail]: the dry signal behind [delay] rows of zeros, or the zeros alone. *)
Definition tap_tail (stereo : list (R * R)) (delay : Z) : option (list (R * R)) :=
  if decide (delay < 0)%Z then None
  else
    let pad := replicate (Z.to_nat delay) (0, 0) in
    if decide (delay < Z.of_nat (length stereo))%Z
    then Some (pad ++ Py.slice stereo None (Some (- delay)%Z))
    else Some pad.

(** One turn of the loop of [_reverb_simple]. *)
Definition reverb_tap (stereo : list (R * R)) (sr : Z) (decay : R) (base_delay_ms : float)
    (t : Z) (y : list (R * R)) : M (list (R * R)) :=
  delay ← ok (tap_delay sr base_delay_ms t);
  let gain := decay ^ Z.to_nat t in
  tail ← ok (tap_tail stereo delay);
  y ← ok (inplace add_left y (smul gain (fmap fst tail)));
  r ← random;
  ok (inplace add_right y (fmap (λ s, gain * s * (0.9 + 0.2 * r)) (fmap snd tail))).

(** The wet sum of [_reverb_simple], before the final normalisation. *)
Definition reverb_sum (stereo : list (R * R)) (sr : Z) (decay : R) (num_taps : Z)
    (base_delay_ms : float) : M (list (R * R)) :=
  for_each (Py.range 1 (num_taps + 1)) (reverb_tap stereo sr decay base_delay_ms) stereo.

Definition _reverb_simple (stereo : list (R * R)) (sr : Z) (decay : R) (num_taps : Z)
    (base_delay_ms : float) : M (list (R * R)) :=
  y ← reverb_sum stereo sr decay num_taps base_delay_ms;
  ok (_normalize_peak y 0.95).

(** ** Synth building blocks *)

Definition _sine (f : R) (t : list R) : list R := fmap (λ ti, sin (2 * PI * f * ti)) t.

Definition _noise (n : Z) : M (list R) := uniform (-1) 1 n.

Definition _envelope_ad (t : list R) (attack decay : float) (sr : Z) : option (list R) :=
  let n := length t in
  let env := replicate n 1 in
  a ← samples_r attack sr;
  d ← samples_r decay sr;
  env ← (if decide (0 < a)%Z then
           ramp ← Py.linspace 0 1 a;
           Py.slice_update (λ _ v, v) env None (Some a) ramp
         else Some env);
  if decide (0 < d)%Z then
    decay_curve ← Py.linspace 1 0.2 d;
    let end_ := Z.min (a + d) (Z.of_nat n) in
    Py.slice_update (λ _ v, v) env (Some a) (Some end_)
      (Py.slice decay_curve None (Some (end_ - a)%Z))
  else Some env.

(** The sum of the four partials of [_bell_tone]. *)
Definition partials_sum (base_f : R) (t : list R) : list R :=
  foldl (λ x pa, zip_with Rplus x (smul pa.2 (_sine (base_f * pa.1) t)))
    (replicate (length t) 0)
    (zip [1.0; 2.01; 2.74; 3.76] [1.0; 0.5; 0.3; 0.2]).

Definition _bell_tone (duration : float) (base_f : R) (sr : Z) : option (list R) :=
  n ← samples sr duration;
  t ← Py.linspace_open 0 (Py.to_R duration) n;
  let x := partials_sum base_f t in
  env ← _envelope_ad t 0.005 (duration * 0.9)%float sr;
  inplace Rmult x env.

(** ** Sound designs *)

Definition sfx_gale (duration : float) : M (list (R * R)) :=
  n ← ok (samples SAMPLE_RATE duration);
  t ← ok (Py.linspace_open 0 (Py.to_R duration) n);
  base ← _noise n;
  base ← ok (_apply_lowpass base 1200 SAMPLE_RATE);
  whoosh ← ok (Py.zip_arrays Rplus (smul 0.6 (_sine 0.7 t)) (smul 0.4 (_sine 1.3 t)));
  x ← ok (Py.zip_arrays Rmult base (sadd 0.4 (smul 0.6 (sadd 0.5 (smul 0.5 whoosh)))));
  x ← ok (_apply_highpass x 80 SAMPLE_RATE);
  x ← ok (_normalize_peak x 0.8);
  x ← ok (_fade x SAMPLE_RATE 0.03 0.12);
  let L := smul 1.0 x in
  R ← ok (_apply_lowpass x 900 SAMPLE_RATE);
  ok (stack L R).

(** One turn of the crackle loop of [sfx_ember]. *)
Definition crackle (n : Z) (crackles : list R) : M (list R) :=
  w ← ok (samples_r 0.015 SAMPLE_RATE);
  pos ← randint 0 (n - w - 1);
  length ← ok (samples_r 0.015 SAMPLE_RATE);
  r ← random;
  let spike := smul (0.9 + 0.3 * r) (Py.hanning length) in
  ok (Py.slice_update Rplus crackles (Some pos) (Some (pos + length)%Z) spike).

Definition sfx_ember (duration : float) : M (list (R * R)) :=
  n ← ok (samples SAMPLE_RATE duration);
  t ← ok (Py.linspace_open 0 (Py.to_R duration) n);
  rumble ← ok (Py.zip_arrays Rplus (smul 0.3 (_sine 65 t)) (smul 0.2 (_sine 130 t)));
  nz ← _noise n;
  fizz ← ok (_apply_highpass (smul 0.4 nz) 3000 SAMPLE_RATE);
  crackles ← ok (Py.zeros n);
  crackles ← for_each (Py.range 0 18) (λ _, crackle n) crackles;
  x ← ok (Py.zip_arrays Rplus rumble (smul 0.5 crackles));
  x ← ok (Py.zip_arrays Rplus x (smul 0.25 fizz));
  x ← ok (_normalize_peak x 0.95);
  x ← ok (_fade x SAMPLE_RATE 0.005 0.1);
  R ← ok (_apply_lowpass x 2500 SAMPLE_RATE);
  stereo ← ok (stack x R);
  _reverb_simple stereo SAMPLE_RATE 0.55 3 45.

Definition sfx_ward (duration : float) : M (list (R * R)) :=
  n ← ok (samples SAMPLE_RATE duration);
  t ← ok (Py.linspace_open 0 (Py.to_R duration) n);
  hit ← ok (_bell_tone duration 520.0 SAMPLE_RATE);
  metal ← ok (_comb_filter hit 14.5 0.4 SAMPLE_RATE);
  x ← ok (Py.zip_arrays Rplus (smul 0.6 hit) (smul 0.7 metal));
  x ← ok (_normalize_peak x 0.9);
  x ← ok (_fade x SAMPLE_RATE 0.002 0.2);
  stereo ← ok (stack x x);
  _reverb_simple stereo SAMPLE_RATE 0.6 4 30.

Definition sfx_snare (duration : float) : M (list (R * R)) :=
  n ← ok (samples SAMPLE_RATE duration);
  t ← ok (Py.linspace_open 0 (Py.to_R duration) n);
  clank ← ok (Py.zeros n);
  burst_len ← ok (samples_r 0.04 SAMPLE_RATE);
  clank ← ok (Py.slice_update (λ _ v, v) clank None (Some burst_len)
                (smul 1.0 (Py.hanning burst_len)));
  clank ← ok (_apply_highpass clank 1200 SAMPLE_RATE);
  tail ← ok (_comb_filter (smul 0.6 clank) 11 0.5 SAMPLE_RATE);
  x ← ok (Py.zip_arrays Rplus (smul 0.8 clank) (smul 0.6 tail));
  x ← ok (_normalize_peak x 0.95);
  x ← ok (_fade x SAMPLE_RATE 0.0 0.25);
  R ← ok (_apply_lowpass x 3500 SAMPLE_RATE);
  stereo ← ok (stack x R);
  _reverb_simple stereo SAMPLE_RATE 0.45 3 25.

Definition sfx_soothe (duration : float) : M (list (R * R)) :=
  bell ← ok (_bell_tone duration 740.0 SAMPLE_RATE);
  nz ← _noise (Z.of_nat (length bell));
  shimmer ← ok (_apply_highpass (smul 0.2 nz) 6000 SAMPLE_RATE);
  x ← ok (Py.zip_arrays Rplus (smul 0.85 bell) (smul 0.2 shimmer));
  x ← ok (_normalize_peak x 0.9);
  x ← ok (_fade x SAMPLE_RATE 0.01 0.35);
  stereo ← ok (stack x (smul 0.95 x));
  _reverb_simple stereo SAMPLE_RATE 0.65 4 55.

Definition sfx_void (duration : float) : M (list (R * R)) :=
  n ← ok (samples SAMPLE_RATE duration);
  t ← ok (Py.linspace_open 0 (Py.to_R duration) n);
  sub ← ok (Py.zip_arrays Rplus (smul 0.7 (_sine 40 t)) (smul 0.4 (_sine 80 t)));
  nz ← _noise n;
  texture ← ok (_apply_lowpass (smul 0.3 nz) 1200 SAMPLE_RATE);
  ramp ← ok (Py.linspace 0 1 n);
  let swell := fmap (λ s, Py.clip 0 1 (Py.pow s 2.2)) ramp in
  a ← ok (Py.zip_arrays Rmult sub (sadd 0.6 (smul 0.4 swell)));
  b ← ok (Py.zip_arrays Rmult (smul 0.3 texture) (fmap (λ s, 1.0 - s * 0.5) swell));
  x ← ok (Py.zip_arrays Rplus a b);
  x ← ok (_normalize_peak x 0.9);
  x ← ok (_fade x SAMPLE_RATE 0.03 0.2);
  stereo ← ok (stack (smul 0.95 x) x);
  _reverb_simple stereo SAMPLE_RATE 0.55 4 70.

Definition sfx_aegis (duration : float) : M (list (R * R)) :=
  n ← ok (samples SAMPLE_RATE duration);
  t ← ok (Py.linspace_open 0 (Py.to_R duration) n);
  ramp ← ok (Py.linspace 0.2 1.0 n);
  riser ← ok (Py.zip_arrays Rmult (_sine 320 t) ramp);
  bell ← ok (_bell_tone duration 880.0 SAMPLE_RATE);
  nz ← _noise n;
  sparkle ← ok (_apply_highpass (smul 0.2 nz) 7000 SAMPLE_RATE);
  x ← ok (Py.zip_arrays Rplus (smul 0.6 riser) (smul 0.7 bell));
  x ← ok (Py.zip_arrays Rplus x (smul 0.18 sparkle));
  x ← ok (_normalize_peak x 0.92);
  x ← ok (_fade x SAMPLE_RATE 0.005 0.35);
  stereo ← ok (stack x x);
  _reverb_simple stereo SAMPLE_RATE 0.6 5 35.

(** GENERATORS *)
Definition GENERATORS (name : glyph) : float → M (list (R * R)) :=
  match name with
  | gale => sfx_gale
  | ember => sfx_ember
  | ward => sfx_ward
  | snare => sfx_snare
  | soothe => sfx_soothe
  | void => sfx_void
  | aegis => sfx_aegis
  end.

(** The render step of [main]: [gen(DURATION_S.get(name, 0.9))]. *)
Definition render (name : glyph) : M (list (R * R)) :=
  GENERATORS name (DURATION_S name).

(** ** The sound designs up to their last normalisation *)

(** [sfx_gale] up to [x = _apply_highpass(x, 80, SAMPLE_RATE)]: the array
    [x] that [_normalize_peak(x, 0.8)] scales next. *)
Definition gale_x (duration : float) : M (list R) :=
  n ← ok (samples SAMPLE_RATE duration);
  t ← ok (Py.linspace_open 0 (Py.to_R duration) n);
  base ← _noise n;
  base ← ok (_apply_lowpass base 1200 SAMPLE_RATE);
  whoosh ← ok (Py.zip_arrays Rplus (smul 0.6 (_sine 0.7 t)) (smul 0.4 (_sine 1.3 t)));
  x ← ok (Py.zip_arrays Rmult base (sadd 0.4 (smul 0.6 (sadd 0.5 (smul 0.5 whoosh)))));
  ok (_apply_highpass x 80 SAMPLE_RATE).

(** The lines of [sfx_gale] that follow its normalisation. *)
Definition gale_finish (x : list R) : option (list (R * R)) :=
  x ← _fade x SAMPLE_RATE 0.03 0.12;
  let L := smul 1.0 x in
  R ← _apply_lowpass x 900 SAMPLE_RATE;
  stack L R.

(** The array [stereo] that [sfx_ember] hands to [_reverb_simple]. *)
Definition ember_stereo (duration : float) : M (list (R * R)) :=
  n ← ok (samples SAMPLE_RATE duration);
  t ← ok (Py.linspace_open 0 (Py.to_R duration) n);
  rumble ← ok (Py.zip_arrays Rplus (smul 0.3 (_sine 65 t)) (smul 0.2 (_sine 130 t)));
  nz ← _noise n;
  fizz ← ok (_apply_highpass (smul 0.4 nz) 3000 SAMPLE_RATE);
  crackles ← ok (Py.zeros n);
  crackles ← for_each (Py.range 0 18) (λ _, crackle n) crackles;
  x ← ok (Py.zip_arrays Rplus rumble (smul 0.5 crackles));
  x ← ok (Py.zip_arrays Rplus x (smul 0.25 fizz));
  x ← ok (_normalize_peak x 0.95);
  x ← ok (_fade x SAMPLE_RATE 0.005 0.1);
  R ← ok (_apply_lowpass x 2500 SAMPLE_RATE);
  ok (stack x R).

(** The array [stereo] that [sfx_ward] hands to [_reverb_simple]. *)
Definition ward_stereo (duration : float) : M (list (R * R)) :=
  n ← ok (samples SAMPLE_RATE duration);
  t ← ok (Py.linspace_open 0 (Py.to_R duration) n);
  hit ← ok (_bell_tone duration 520.0 SAMPLE_RATE);
  metal ← ok (_comb_filter hit 14.5 0.4 SAMPLE_RATE);
  x ← ok (Py.zip_arrays Rplus (smul 0.6 hit) (smul 0.7 metal));
  x ← ok (_normalize_peak x 0.9);
  x ← ok (_fade x SAMPLE_RATE 0.002 0.2);
  ok (stack x x).

(** The array [stereo] that [sfx_snare] hands to [_reverb_simple]. *)
Definition snare_stereo (duration : float) : M (list (R * R)) :=
  n ← ok (samples SAMPLE_RATE duration);
  t ← ok (Py.linspace_open 0 (Py.to_R duration) n);
  clank ← ok (Py.zeros n);
  burst_len ← ok (samples_r 0.04 SAMPLE_RATE);
  clank ← ok (Py.slice_update (λ _ v, v) clank None (Some burst_len)
                (smul 1.0 (Py.hanning burst_len)));
  clank ← ok (_apply_highpass clank 1200 SAMPLE_RATE);
  tail ← ok (_comb_filter (smul 0.6 clank) 11 0.5 SAMPLE_RATE);
  x ← ok (Py.zip_arrays Rplus (smul 0.8 clank) (smul 0.6 tail));
  x ← ok (_normalize_peak x 0.95);
  x ← ok (_fade x SAMPLE_RATE 0.0 0.25);
  R ← ok (_apply_lowpass x 3500 SAMPLE_RATE);
  ok (stack x R).

(** The array [stereo] that [sfx_soothe] hands to [_reverb_simple]. *)
Definition soothe_stereo (duration : float) : M (list (R * R)) :=
  bell ← ok (_bell_tone duration 740.0 SAMPLE_RATE);
  nz ← _noise (Z.of_nat (length bell));
  shimmer ← ok (_apply_highpass (smul 0.2 nz) 6000 SAMPLE_RATE);
  x ← ok (Py.zip_arrays Rplus (smul 0.85 bell) (smul 0.2 shimmer));
  x ← ok (_normalize_peak x 0.9);
  x ← ok (_fade x SAMPLE_RATE 0.01 0.35);
  ok (stack x (smul 0.95 x)).

(** The array [stereo] that [sfx_void] hands to [_reverb_simple]. *)
Definition void_stereo (duration : float) : M (list (R * R)) :=
  n ← ok (samples SAMPLE_RATE duration);
  t ← ok (Py.linspace_open 0 (Py.to_R duration) n);
  sub ← ok (Py.zip_arrays Rplus (smul 0.7 (_sine 40 t)) (smul 0.4 (_sine 80 t)));
  nz ← _noise n;
  texture ← ok (_apply_lowpass (smul 0.3 nz) 1200 SAMPLE_RATE);
  ramp ← ok (Py.linspace 0 1 n);
  let swell := fmap (λ s, Py.clip 0 1 (Py.pow s 2.2)) ramp in
  a ← ok (Py.zip_arrays Rmult sub (sadd 0.6 (smul 0.4 swell)));
  b ← ok (Py.zip_arrays Rmult (smul 0.3 texture) (fmap (λ s, 1.0 - s * 0.5) swell));
  x ← ok (Py.zip_arrays Rplus a b);
  x ← ok (_normalize_peak x 0.9);
  x ← ok (_fade x SAMPLE_RATE 0.03 0.2);
  ok (stack (smul 0.95 x) x).

(** The array [stereo] that [sfx_aegis] hands to [_reverb_simple]. *)
Definition aegis_stereo (duration : float) : M (list (R * R)) :=
  n ← ok (samples SAMPLE_RATE duration);
  t ← ok (Py.linspace_open 0 (Py.to_R duration) n);
  ramp ← ok (Py.linspace 0.2 1.0 n);
  riser ← ok (Py.zip_arrays Rmult (_sine 320 t) ramp);
  bell ← ok (_bell_tone duration 880.0 SAMPLE_RATE);
  nz ← _noise n;
  sparkle ← ok (_apply_highpass (smul 0.2 nz) 7000 SAMPLE_RATE);
  x ← ok (Py.zip_arrays Rplus (smul 0.6 riser) (smul 0.7 bell));
  x ← ok (Py.zip_arrays Rplus x (smul 0.18 sparkle));
  x ← ok (_normalize_peak x 0.92);
  x ← ok (_fade x SAMPLE_RATE 0.005 0.35);
  ok (stack x x).

(** The array each sound design hands to [_reverb_simple]; [sfx_gale]
    calls no reverb. *)
Definition reverb_input (name : glyph) : option (float → M (list (R * R))) :=
  match name with
  | gale => None
  | ember => Some ember_stereo
  | ward => Some ward_stereo
  | snare => Some snare_stereo
  | soothe => Some soothe_stereo
  | void => Some void_stereo
  | aegis => Some aegis_stereo
  end.

(** ** Encoding *)

(** What [_np_to_audiosegment] hands to [AudioSegment]: the raw bytes and
    the three format parameters. *)
Record AudioSegment := {
  data : list Z;
  sample_width : Z;
  frame_rate : Z;
  channels : Z
}.

(** The array [int16] of [_np_to_audiosegment]: the hard limiter
    [np.clip(stereo, -1.0, 1.0)], then [np.int16(stereo * (2**15 - 1))]. *)
Definition int16 (stereo : list (R * R)) : list (Z * Z) :=
  let stereo := fmap (on_chans (Py.clip (-1) 1)) stereo in
  fmap (λ p, (Py.astype_int16 (p.1 * (2 ^ 15 - 1)), Py.astype_int16 (p.2 * (2 ^ 15 - 1))))
    stereo.

Definition _np_to_audiosegment (stereo : list (R * R)) (sr : Z) : AudioSegment :=
  let raw := Py.tobytes (int16 stereo) in
  {| data := raw; sample_width := 2; frame_rate := sr; channels := 2 |}.

End V1.

(* ================================================================== *)
(** * make_witcher_sfx_v2.py                                            *)
(* ================================================================== *)

Module V2.
Local Open Scope R_scope.

(** ** Utils *)

Definition normalize_peak {A} `{Frame A} (x : list A) (peak : R) : option (list A) :=
  m ← Py.max_abs (flat x);
  let m := m + 1e-12 in
  Some (fmap (on_chans (λ s, s / m * peak)) x).

(** [fade] indexes its envelopes as [env[:, None]]: it takes arrays of
    shape (n, 2) only. *)
Definition fade (x : list (R * R)) (sr : Z) (fi fo : float) : option (list (R * R)) :=
  fi_n ← samples sr fi;
  fo_n ← samples sr fo;
  x ← (if decide (0 < fi_n)%Z then
         env_in ← Py.linspace 0 1 fi_n;
         Py.slice_update scale x None (Some fi_n) env_in
       else Some x);
  if decide (0 < fo_n)%Z then
    env_out ← Py.linspace 1 0 fo_n;
    Py.slice_update scale x (Some (- fo_n)%Z) None env_out
  else Some x.

Definition lowpass (x : list R) (cutoff_hz : R) (sr : Z) : option (list R) :=
  rc ← Py.div 1 (2 * PI * cutoff_hz);
  dt ← Py.div 1 (IZR sr);
  alpha ← Py.div dt (rc + dt);
  let y := replicate (length x) 0 in
  x0 ← Py.get x 0;
  y ← Py.set y 0 x0;
  Py.for_each (Py.range 1 (Z.of_nat (length x)))
    (λ i y,
       y1 ← Py.get y (i - 1);
       xi ← Py.get x i;
       Py.set y i (y1 + alpha * (xi - y1)))
    y.

Definition highpass (x : list R) (cutoff_hz : R) (sr : Z) : option (list R) :=
  rc ← Py.div 1 (2 * PI * cutoff_hz);
  dt ← Py.div 1 (IZR sr);
  alpha ← Py.div rc (rc + dt);
  let y := replicate (length x) 0 in
  x0 ← Py.get x 0;
  y ← Py.set y 0 x0;
  Py.for_each (Py.range 1 (Z.of_nat (length x)))
    (λ i y,
       y1 ← Py.get y (i - 1);
       xi ← Py.get x i;
       x1 ← Py.get x (i - 1);
       Py.set y i (alpha * (y1 + xi - x1)))
    y.

Definition comb_filter (x : list R) (delay_ms : float) (feedback : R) (sr : Z)
    : option (list R) :=
  d ← ms_samples sr delay_ms;
  y ← Py.for_each (Py.range d (Z.of_nat (length x)))
         (λ i y,
            yi ← Py.get y i;
            yd ← Py.get y (i - d);
            Py.set y i (yi + feedback * yd))
         x;
  normalize_peak y 0.9.

Definition reverb_simple (st : list (R * R)) (sr : Z) (decay : R) (taps : Z)
    (base_ms : float) : M (list (R * R)) :=
  y ← for_each (Py.range 1 (taps + 1))
        (λ t y,
           delay ← ok (f ← Py.float_of_int sr;
                       ft ← Py.float_of_int t;
                       Py.int_of_float (f * (base_ms * ft) / 1000)%float);
           let gain := decay ^ Z.to_nat t in
           tail ← ok (if decide (delay < 0)%Z then None
                      else
                        let pad := replicate (Z.to_nat delay) (0, 0) in
                        if decide (delay < Z.of_nat (length st))%Z
                        then Some (pad ++ Py.slice st None (Some (- delay)%Z))
                        else Some pad);
           y ← ok (inplace add_left y (smul gain (fmap fst tail)));
           r ← random;
           ok (inplace add_right y (fmap (λ s, gain * s * (0.9 + 0.2 * r)) (fmap snd tail))))
        st;
  ok (normalize_peak y 0.95).

Definition sine (f : R) (t : list R) : list R := fmap (λ ti, sin (2 * PI * f * ti)) t.

Definition noise (n : Z) : M (list R) := uniform (-1) 1 n.

Definition bell_tone (duration : float) (base_f : R) (sr : Z) : option (list R) :=
  n ← samples sr duration;
  t ← Py.linspace_open 0 (Py.to_R duration) n;
  let x :=
    foldl (λ x pa, zip_with Rplus x (smul pa.2 (sine (base_f * pa.1) t)))
      (replicate (length t) 0)
      (zip [1.0; 2.01; 2.74; 3.76] [1.0; 0.5; 0.3; 0.2]) in
  a ← samples_r 0.005 sr;
  d ← samples_r (duration * 0.9)%float sr;
  let env := replicate (length t) 1 in
  ramp ← Py.linspace 0 1 a;
  env ← Py.slice_update (λ _ v, v) env None (Some a) ramp;
  curve ← Py.linspace 1 0.25 (Z.min d (Z.of_nat (length t) - a));
  env ← Py.slice_update (λ _ v, v) env (Some a) (Some (a + d)%Z) curve;
  Py.zip_arrays Rmult x env.

Definition to_stereo (x : list R) : list (R * R) := zip x x.

(** ** SFX designs *)

Definition sfx_gale (d : float) : M (list (R * R)) :=
  n ← ok (samples SAMPLE_RATE d);
  t ← ok (Py.linspace_open 0 (Py.to_R d) n);
  base ← noise n;
  base ← ok (lowpass base 1200 SAMPLE_RATE);
  whoosh ← ok (Py.zip_arrays Rplus (smul 0.6 (sine 0.7 t)) (smul 0.4 (sine 1.3 t)));
  x ← ok (Py.zip_arrays Rmult base (sadd 0.4 (smul 0.6 (sadd 0.5 (smul 0.5 whoosh)))));
  x ← ok (highpass x 80 SAMPLE_RATE);
  x ← ok (normalize_peak x 0.8);
  let L := x in
  R ← ok (lowpass x 900 SAMPLE_RATE);
  st ← ok (stack L R);
  ok (fade st SAMPLE_RATE 0.03 0.12).

(** One turn of the crackle loop of [sfx_ember]. *)
Definition crackle (n : Z) (crackles : list R) : M (list R) :=
  w ← ok (samples_r 0.015 SAMPLE_RATE);
  pos ← randint 0 (n - w - 1);
  L ← ok (samples_r 0.015 SAMPLE_RATE);
  r ← random;
  let spike := smul (0.9 + 0.3 * r) (Py.hanning L) in
  ok (Py.slice_update Rplus crackles (Some pos) (Some (pos + L)%Z) spike).

Definition sfx_ember (d : float) : M (list (R * R)) :=
  n ← ok (samples SAMPLE_RATE d);
  t ← ok (Py.linspace_open 0 (Py.to_R d) n);
  rumble ← ok (Py.zip_arrays Rplus (smul 0.3 (sine 65 t)) (smul 0.2 (sine 130 t)));
  nz ← noise n;
  fizz ← ok (highpass (smul 0.4 nz) 3000 SAMPLE_RATE);
  crackles ← ok (Py.zeros n);
  crackles ← for_each (Py.range 0 18) (λ _, crackle n) crackles;
  x ← ok (Py.zip_arrays Rplus rumble (smul 0.5 crackles));
  x ← ok (Py.zip_arrays Rplus x (smul 0.25 fizz));
  x ← ok (normalize_peak x 0.95);
  R ← ok (lowpass x 2500 SAMPLE_RATE);
  st ← ok (stack x R);
  st ← reverb_simple st SAMPLE_RATE 0.55 3 45;
  ok (fade st SAMPLE_RATE 0.005 0.1).

Definition sfx_ward (d : float) : M (list (R * R)) :=
  hit ← ok (bell_tone d 520.0 SAMPLE_RATE);
  metal ← ok (comb_filter hit 14.5 0.4 SAMPLE_RATE);
  x ← ok (Py.zip_arrays Rplus (smul 0.6 hit) (smul 0.7 metal));
  x ← ok (normalize_peak x 0.9);
  st ← ok (stack x x);
  st ← reverb_simple st SAMPLE_RATE 0.6 4 30;
  ok (fade st SAMPLE_RATE 0.002 0.2).

Definition sfx_snare (d : float) : M (list (R * R)) :=
  n ← ok (samples SAMPLE_RATE d);
  clank ← ok (Py.zeros n);
  L ← ok (samples_r 0.04 SAMPLE_RATE);
  clank ← ok (Py.slice_update (λ _ v, v) clank None (Some L) (smul 1.0 (Py.hanning L)));
  clank ← ok (highpass clank 1200 SAMPLE_RATE);
  tail ← ok (comb_filter (smul 0.6 clank) 11 0.5 SAMPLE_RATE);
  x ← ok (Py.zip_arrays Rplus (smul 0.8 clank) (smul 0.6 tail));
  x ← ok (normalize_peak x 0.95);
  R ← ok (lowpass x 3500 SAMPLE_RATE);
  st ← ok (stack x R);
  st ← reverb_simple st SAMPLE_RATE 0.45 3 25;
  ok (fade st SAMPLE_RATE 0.0 0.25).

Definition sfx_soothe (d : float) : M (list (R * R)) :=
  bell ← ok (bell_tone d 740.0 SAMPLE_RATE);
  nz ← noise (Z.of_nat (length bell));
  shimmer ← ok (highpass (smul 0.2 nz) 6000 SAMPLE_RATE);
  x ← ok (Py.zip_arrays Rplus (smul 0.85 bell) (smul 0.2 shimmer));
  x ← ok (normalize_peak x 0.9);
  st ← ok (stack x (smul 0.95 x));
  st ← reverb_simple st SAMPLE_RATE 0.65 4 55;
  ok (fade st SAMPLE_RATE 0.01 0.35).

Definition sfx_void (d : float) : M (list (R * R)) :=
  n ← ok (samples SAMPLE_RATE d);
  t ← ok (Py.linspace_open 0 (Py.to_R d) n);
  sub ← ok (Py.zip_arrays Rplus (smul 0.7 (sine 40 t)) (smul 0.4 (sine 80 t)));
  nz ← noise n;
  texture ← ok (lowpass (smul 0.3 nz) 1200 SAMPLE_RATE);
  ramp ← ok (Py.linspace 0 1 n);
  let swell := fmap (λ s, Py.clip 0 1 (Py.pow s 2.2)) ramp in
  a ← ok (Py.zip_arrays Rmult sub (sadd 0.6 (smul 0.4 swell)));
  b ← ok (Py.zip_arrays Rmult (smul 0.3 texture) (fmap (λ s, 1.0 - s * 0.5) swell));
  x ← ok (Py.zip_arrays Rplus a b);
  x ← ok (normalize_peak x 0.9);
  st ← ok (stack (smul 0.95 x) x);
  st ← reverb_simple st SAMPLE_RATE 0.55 4 70;
  ok (fade st SAMPLE_RATE 0.03 0.2).

Definition sfx_aegis (d : float) : M (list (R * R)) :=
  n ← ok (samples SAMPLE_RATE d);
  t ← ok (Py.linspace_open 0 (Py.to_R d) n);
  ramp ← ok (Py.linspace 0.2 1.0 n);
  riser ← ok (Py.zip_arrays Rmult (sine 320 t) ramp);
  bell ← ok (bell_tone d 880.0 SAMPLE_RATE);
  nz ← noise n;
  sparkle ← ok (highpass (smul 0.2 nz) 7000 SAMPLE_RATE);
  x ← ok (Py.zip_arrays Rplus (smul 0.6 riser) (smul 0.7 bell));
  x ← ok (Py.zip_arrays Rplus x (smul 0.18 sparkle));
  x ← ok (normalize_peak x 0.92);
  st ← ok (stack x x);
  st ← reverb_simple st SAMPLE_RATE 0.6 5 35;
  ok (fade st SAMPLE_RATE 0.005 0.35).

(** GENERATORS *)
Definition GENERATORS (name : glyph) : float → M (list (R * R)) :=
  match name with
  | gale => sfx_gale
  | ember => sfx_ember
  | ward => sfx_ward
  | snare => sfx_snare
  | soothe => sfx_soothe
  | void => sfx_void
  | aegis => sfx_aegis
  end.

(** The render step of [main]: [gen(DURATION_S.get(name, 0.9))]. *)
Definition render (name : glyph) : M (list (R * R)) :=
  GENERATORS name (DURATION_S name).

(** ** The SFX designs up to their last normalisation *)

(** [sfx_gale] up to [x = highpass(x, 80, SAMPLE_RATE)]: the array [x]
    that [normalize_peak(x, 0.8)] scales next. *)
Definition gale_x (d : float) : M (list R) :=
  n ← ok (samples SAMPLE_RATE d);
  t ← ok (Py.linspace_open 0 (Py.to_R d) n);
  base ← noise n;
  base ← ok (lowpass base 1200 SAMPLE_RATE);
  whoosh ← ok (Py.zip_arrays Rplus (smul 0.6 (sine 0.7 t)) (smul 0.4 (sine 1.3 t)));
  x ← ok (Py.zip_arrays Rmult base (sadd 0.4 (smul 0.6 (sadd 0.5 (smul 0.5 whoosh)))));
  ok (highpass x 80 SAMPLE_RATE).

(** The array [st] that [sfx_gale] fades at its end. *)
Definition gale_st (x : list R) : option (list (R * R)) :=
  let L := x in
  R ← lowpass x 900 SAMPLE_RATE;
  stack L R.

(** The array [st] that [sfx_ember] hands to [reverb_simple]. *)
Definition ember_st (d : float) : M (list (R * R)) :=
  n ← ok (samples SAMPLE_RATE d);
  t ← ok (Py.linspace_open 0 (Py.to_R d) n);
  rumble ← ok (Py.zip_arrays Rplus (smul 0.3 (sine 65 t)) (smul 0.2 (sine 130 t)));
  nz ← noise n;
  fizz ← ok (highpass (smul 0.4 nz) 3000 SAMPLE_RATE);
  crackles ← ok (Py.zeros n);
  crackles ← for_each (Py.range 0 18) (λ _, crackle n) crackles;
  x ← ok (Py.zip_arrays Rplus rumble (smul 0.5 crackles));
  x ← ok (Py.zip_arrays Rplus x (smul 0.25 fizz));
  x ← ok (normalize_peak x 0.95);
  R ← ok (lowpass x 2500 SAMPLE_RATE);
  ok (stack x R).

(** The array [st] that [sfx_ward] hands to [reverb_simple]. *)
Definition ward_st (d : float) : M (list (R * R)) :=
  hit ← ok (bell_tone d 520.0 SAMPLE_RATE);
  metal ← ok (comb_filter hit 14.5 0.4 SAMPLE_RATE);
  x ← ok (Py.zip_arrays Rplus (smul 0.6 hit) (smul 0.7 metal));
  x ← ok (normalize_peak x 0.9);
  ok (stack x x).

(** The array [st] that [sfx_snare] hands to [reverb_simple]. *)
Definition snare_st (d : float) : M (list (R * R)) :=
  n ← ok (samples SAMPLE_RATE d);
  clank ← ok (Py.zeros n);
  L ← ok (samples_r 0.04 SAMPLE_RATE);
  clank ← ok (Py.slice_update (λ _ v, v) clank None (Some L) (smul 1.0 (Py.hanning L)));
  clank ← ok (highpass clank 1200 SAMPLE_RATE);
  tail ← ok (comb_filter (smul 0.6 clank) 11 0.5 SAMPLE_RATE);
  x ← ok (Py.zip_arrays Rplus (smul 0.8 clank) (smul 0.6 tail));
  x ← ok (normalize_peak x 0.95);
  R ← ok (lowpass x 3500 SAMPLE_RATE);
  ok (stack x R).

(** The array [st] that [sfx_soothe] hands to [reverb_simple]. *)
Definition soothe_st (d : float) : M (list (R * R)) :=
  bell ← ok (bell_tone d 740.0 SAMPLE_RATE);
  nz ← noise (Z.of_nat (length bell));
  shimmer ← ok (highpass (smul 0.2 nz) 6000 SAMPLE_RATE);
  x ← ok (Py.zip_arrays Rplus (smul 0.85 bell) (smul 0.2 shimmer));
  x ← ok (normalize_peak x 0.9);
  ok (stack x (smul 0.95 x)).

(** The array [st] that [sfx_void] hands to [reverb_simple]. *)
Definition void_st (d : float) : M (list (R * R)) :=
  n ← ok (samples SAMPLE_RATE d);
  t ← ok (Py.linspace_open 0 (Py.to_R d) n);
  sub ← ok (Py.zip_arrays Rplus (smul 0.7 (sine 40 t)) (smul 0.4 (sine 80 t)));
  nz ← noise n;
  texture ← ok (lowpass (smul 0.3 nz) 1200 SAMPLE_RATE);
  ramp ← ok (Py.linspace 0 1 n);
  let swell := fmap (λ s, Py.clip 0 1 (Py.pow s 2.2)) ramp in
  a ← ok (Py.zip_arrays Rmult sub (sadd 0.6 (smul 0.4 swell)));
  b ← ok (Py.zip_arrays Rmult (smul 0.3 texture) (fmap (λ s, 1.0 - s * 0.5) swell));
  x ← ok (Py.zip_arrays Rplus a b);
  x ← ok (normalize_peak x 0.9);
  ok (stack (smul 0.95 x) x).

(** The array [st] that [sfx_aegis] hands to [reverb_simple]. *)
Definition aegis_st (d : float) : M (list (R * R)) :=
  n ← ok (samples SAMPLE_RATE d);
  t ← ok (Py.linspace_open 0 (Py.to_R d) n);
  ramp ← ok (Py.linspace 0.2 1.0 n);
  riser ← ok (Py.zip_arrays Rmult (sine 320 t) ramp);
  bell ← ok (bell_tone d 880.0 SAMPLE_RATE);
  nz ← noise n;
  sparkle ← ok (highpass (smul 0.2 nz) 7000 SAMPLE_RATE);
  x ← ok (Py.zip_arrays Rplus (smul 0.6 riser) (smul 0.7 bell));
  x ← ok (Py.zip_arrays Rplus x (smul 0.18 sparkle));
  x ← ok (normalize_peak x 0.92);
  ok (stack x x).

(** The array each design hands to [reverb_simple]; [sfx_gale] calls no
    reverb. *)
Definition reverb_input (name : glyph) : option (float → M (list (R * R))) :=
  match name with
  | gale => None
  | ember => Some ember_st
  | ward => Some ward_st
  | snare => Some snare_st
  | soothe => Some soothe_st
  | void => Some void_st
  | aegis => Some aegis_st
  end.

(** ** Encoding *)

(** The WAV file [write_wav_int16] writes at [path]: the three parameters
    it sets and the frames it writes. *)
Record WavFile := {
  nchannels : Z;
  sampwidth : Z;
  framerate : Z;
  frames : list Z
}.

(** The array [int16] of [write_wav_int16]: [np.clip(stereo, -1.0, 1.0)],
    then [(stereo * (2**15 - 1)).astype(np.int16)]. *)
Definition int16 (stereo : list (R * R)) : list (Z * Z) :=
  let stereo := fmap (on_chans (Py.clip (-1) 1)) stereo in
  fmap (λ p, (Py.astype_int16 (p.1 * (2 ^ 15 - 1)), Py.astype_int16 (p.2 * (2 ^ 15 - 1))))
    stereo.

(** [wave] refuses a frame rate that is not positive ([wave.Error]). *)
Definition write_wav_int16 (stereo : list (R * R)) (sr : Z) : option WavFile :=
  if decide (sr <= 0)%Z then None
  else Some {| nchannels := 2; sampwidth := 2; framerate := sr;
               frames := Py.tobytes (int16 stereo) |}.

End V2.

(* ================================================================== *)
(** * Notions used to state the properties                              *)
(* ================================================================== *)

(** Row [i] of a faded array of [n] rows, from row [a] of the input: the
    gain of the fade-in window [[0, fi)] is applied, then that of the
    fade-out window [[n - fo, n)]. *)
Definition fade_row {A} `{Frame A} (n : nat) (fi fo : Z) (i : nat) (a : A) : A :=
  let a1 :=
    if decide (Z.of_nat i < fi)%Z then scale a (Py.linspace_at 0 1 fi i) else a in
  if decide (Z.of_nat n - fo <= Z.of_nat i)%Z
  then scale a1 (Py.linspace_at 1 0 fo (i - (n - Z.to_nat fo)))
  else a1.

(** A row is silent when all its channels are 0. *)
Definition silent {A} `{Frame A} (a : A) : Prop := ∀ s, s ∈ chans a → s = 0%R.

(** The coefficients the one-pole filters compute from the cutoff and the
    sample rate: [rc = 1/(2 pi cutoff)], [dt = 1/sr], and [dt/(rc + dt)] for
    the low-pass, [rc/(rc + dt)] for the high-pass. *)
Definition lowpass_alpha (cutoff_hz : R) (sr : Z) : R :=
  (1 / IZR sr / (1 / (2 * PI * cutoff_hz) + 1 / IZR sr))%R.

Definition highpass_alpha (cutoff_hz : R) (sr : Z) : R :=
  (1 / (2 * PI * cutoff_hz) / (1 / (2 * PI * cutoff_hz) + 1 / IZR sr))%R.

(** [y] is the one-pole low-pass of [x] with coefficient [alpha]:
    [y[0] = x[0]] and [y[i] = y[i-1] + alpha * (x[i] - y[i-1])]. *)
Definition is_lowpass (alpha : R) (x y : list R) : Prop :=
  length y = length x ∧
  y !! 0%nat = x !! 0%nat ∧
  ∀ i, (0 < i < length x)%nat →
       ∃ y1 xi, y !! (i - 1)%nat = Some y1 ∧ x !! i = Some xi ∧
                y !! i = Some (y1 + alpha * (xi - y1))%R.

(** [y] is the one-pole high-pass of [x] with coefficient [alpha]:
    [y[0] = x[0]] and [y[i] = alpha * (y[i-1] + x[i] - x[i-1])]. *)
Definition is_highpass (alpha : R) (x y : list R) : Prop :=
  length y = length x ∧
  y !! 0%nat = x !! 0%nat ∧
  ∀ i, (0 < i < length x)%nat →
       ∃ y1 xi x1, y !! (i - 1)%nat = Some y1 ∧ x !! i = Some xi ∧
                   x !! (i - 1)%nat = Some x1 ∧
                   y !! i = Some (alpha * (y1 + xi - x1))%R.

(** Every sample of [x] is at most [bound] in magnitude. *)
Definition bounded (bound : R) (x : list R) : Prop :=
  ∀ s, s ∈ x → (Rabs s <= bound)%R.

(** [y] is the feedback comb of [x] with a delay of [d] samples:
    [y[i] = x[i]] below [d] and [y[i] = x[i] + feedback * y[i - d]] from
    [d] on. *)
Definition is_comb (feedback : R) (d : nat) (x y : list R) : Prop :=
  length y = length x ∧
  (∀ i, (i < d)%nat → y !! i = x !! i) ∧
  ∀ i, (d <= i < length x)%nat →
       ∃ xi yd, x !! i = Some xi ∧ y !! (i - d)%nat = Some yd ∧
                y !! i = Some (xi + feedback * yd)%R.

(** Sample [i] of the attack/decay envelope for an attack of [a] samples
    and a decay of [d] samples: the attack ramp below [a], the decay curve
    from [a] to [a + d], and the initial gain 1 from there on. *)
Definition envelope_at (a d : Z) (i : nat) : R :=
  if decide (Z.of_nat i < a)%Z then Py.linspace_at 0 1 a i
  else if decide (Z.of_nat i < a + d)%Z then Py.linspace_at 1 0.2 d (i - Z.to_nat a)
  else 1%R.

(** Drawing changes the cursors only: the tapes stay. *)
Definition same_tapes (s s' : Rng) : Prop :=
  np_tape s' = np_tape s ∧ py_tape s' = py_tape s.

(** Row [i] of the dry signal delayed by [delay] rows: zeros before
    [delay], then the dry rows. *)
Definition delayed (stereo : list (R * R)) (delay : nat) (i : nat) : R * R :=
  if decide (delay <= i)%nat then default (0, 0)%R (stereo !! (i - delay)%nat)
  else (0, 0)%R.

(** Row [i] of the wet sum after [k] taps: the dry row plus, for each tap
    [t = 1..k], [decay ^ t] times the dry row delayed by [delay t] rows, the
    right channel with the further gain [0.9 + 0.2 * jitter t]. *)
Fixpoint wet_row (stereo : list (R * R)) (decay : R) (delay : nat → nat)
    (jitter : nat → R) (k i : nat) : R * R :=
  match k with
  | O => default (0, 0)%R (stereo !! i)
  | S k' =>
      let p := wet_row stereo decay delay jitter k' i in
      let d := delayed stereo (delay k) i in
      (p.1 + decay ^ k * d.1, p.2 + decay ^ k * d.2 * (0.9 + 0.2 * jitter k))%R
  end.

(** The target of the last normalisation a recipe goes through: that of
    the reverb, 0.95, for the six recipes that end in it, and 0.8 for gale. *)
Definition final_peak (name : glyph) : R :=
  match name with
  | gale => 0.8%R
  | _ => 0.95%R
  end.

(** A source whose every raw draw is 0.5: the noise [-1 + 2 * 0.5] it gives
    is silence. *)
Definition silent_source : Rng := mkRng (λ _, 0.5%R) 0 (λ _, 0.5%R) 0.

(** A source whose every raw draw is 0: the noise it gives is constantly -1. *)
Definition low_source : Rng := mkRng (λ _, 0%R) 0 (λ _, 0%R) 0.

(** Two sources have their cursors at the same places. *)
Definition same_cursors (s1 s2 : Rng) : Prop :=
  np_pos s1 = np_pos s2 ∧ py_pos s1 = py_pos s2.

(** Two sources give the same raw draws from the cursors of the first up to
    the positions [np_end] and [py_end] of its two tapes. *)
Definition same_draws (s1 s2 : Rng) (np_end py_end : nat) : Prop :=
  (∀ k, (np_pos s1 <= k < np_end)%nat → np_tape s1 k = np_tape s2 k) ∧
  (∀ k, (py_pos s1 <= k < py_end)%nat → py_tape s1 k = py_tape s2 k).

(** A computation depends on the random source through the draws it
    consumes only: it leaves the tapes alone and moves the cursors
    forward; and run from a second source with the cursors at the same
    places and the same raw draws up to where the first run stopped, it
    returns the same value and stops at the same places. *)
Definition draws_only {A} (m : M A) : Prop :=
  (∀ s a s', m s = Some (a, s') →
     same_tapes s s' ∧ (np_pos s <= np_pos s')%nat ∧ (py_pos s <= py_pos s')%nat) ∧
  (∀ s1 s2 a s1', m s1 = Some (a, s1') →
     same_cursors s1 s2 →
     same_draws s1 s2 (np_pos s1') (py_pos s1') →
     ∃ s2', m s2 = Some (a, s2') ∧ same_cursors s1' s2').

(** A source that agrees with [low_source] on the first four draws of the
    [random] module and on nothing else. *)
Definition other_source : Rng :=
  mkRng (λ _, 0.25%R) 0 (λ k, if decide (k < 4)%nat then 0%R else 0.75%R) 0.

(** The arguments [decay], [num_taps] and [base_delay_ms] of the reverb a
    recipe calls, the same in both scripts; gale calls none. *)
Definition reverb_args (name : glyph) : option (R * Z * float) :=
  match name with
  | gale => None
  | ember => Some (0.55%R, 3%Z, 45%float)
  | ward => Some (0.6%R, 4%Z, 30%float)
  | snare => Some (0.45%R, 3%Z, 25%float)
  | soothe => Some (0.65%R, 4%Z, 55%float)
  | void => Some (0.55%R, 4%Z, 70%float)
  | aegis => Some (0.6%R, 5%Z, 35%float)
  end.

(** The fade-in and fade-out times of a recipe, in seconds, the same in
    both scripts. *)
Definition fade_args (name : glyph) : float * float :=
  match name with
  | gale => (0.03, 0.12)
  | ember => (0.005, 0.1)
  | ward => (0.002, 0.2)
  | snare => (0.0, 0.25)
  | soothe => (0.01, 0.35)
  | void => (0.03, 0.2)
  | aegis => (0.005, 0.35)
  end%float.

(** The array [x] has a sample of magnitude [p] in a row that a fade with
    windows of [fi] and [fo] rows leaves alone: a row from [fi] on and
    before the last [fo]. *)
Definition unfaded_sample {A} `{Frame A} (x : list A) (fi fo : Z) (p : R) : Prop :=
  ∃ i a v, x !! i = Some a ∧ v ∈ chans a ∧ Rabs v = p ∧
           (fi <= Z.of_nat i < Z.of_nat (length x) - fo)%Z.

(** A buffer scaled by the one factor [peak / (m + 1e-12)], as
    [_normalize_peak] and [normalize_peak] do for the peak [m] of their
    argument. *)
Definition scaled_to {A} `{Frame A} (peak m : R) (x : list A) : list A :=
  fmap (on_chans (λ v, (v / (m + 1e-12) * peak)%R)) x.

(** The int16 that two bytes hold, low byte first. *)
Definition int16_of_bytes (lo hi : Z) : Z := Py.wrap16 (lo + 256 * hi).

(** The wet sum of a reverb of [k] taps over the dry signal, row by row. *)
Definition wet_sum (stereo : list (R * R)) (decay : R) (delay : nat → nat)
    (jitter : nat → R) (k : nat) : list (R * R) :=
  wet_row stereo decay delay jitter k <$> seq 0 (length stereo).

(** Every tap of the reverb has a delay of 1 to [n] rows, [n] the length
    of the dry signal. *)
Definition taps_fit (stereo : list (R * R)) (sr : Z) (num_taps : Z)
    (base_delay_ms : float) : Prop :=
  ∀ t, (1 <= t <= num_taps)%Z →
       ∃ d, V1.tap_delay sr base_delay_ms t = Some d ∧
            (1 <= d <= Z.of_nat (length stereo))%Z.

(** The fewest samples a recipe can render: the longest of its fade
    windows and of the delays of its reverb taps. *)
Definition min_samples (name : glyph) : Z :=
  match name with
  | gale => 5292
  | ember => 5953
  | ward => 8820
  | snare => 11025
  | soothe => 15434
  | void => 12348
  | aegis => 15434
  end.

(** The draws a recipe takes from NumPy's generator, for [n] samples, and
    from the [random] module. *)
Definition np_draws (name : glyph) (n : Z) : nat :=
  match name with
  | ward | snare => 0
  | _ => Z.to_nat n
  end.

Definition py_draws (name : glyph) : nat :=
  match name with
  | gale => 0
  | ember => 39
  | ward => 4
  | snare => 3
  | soothe => 4
  | void => 4
  | aegis => 5
  end.

(* ================================================================== *)
(** * Facts about the run-time model                                    *)
(* ================================================================== *)

Section runtime_facts.
Local Open Scope R_scope.

Lemma eps_pos : 0 < 1e-12.
Proof. lra. Qed.

(** ** Peak of an array *)

Lemma foldl_max_spec (l : list R) (m0 : R) :
  let m := foldl (λ m y, Rmax m (Rabs y)) m0 l in
  m0 <= m ∧ (∀ y, y ∈ l → Rabs y <= m) ∧ (m = m0 ∨ ∃ y, y ∈ l ∧ Rabs y = m).
Proof.
  revert m0. induction l as [|a l IH]; intros m0; simpl.
  - split; [lra|]. split; [|by left]. intros y Hy. by apply elem_of_nil in Hy.
  - destruct (IH (Rmax m0 (Rabs a))) as (H1 & H2 & H3).
    pose proof (Rmax_l m0 (Rabs a)). pose proof (Rmax_r m0 (Rabs a)).
    split; [lra|]. split.
    + intros y [->|Hy]%elem_of_cons; [lra | by apply H2].
    + destruct H3 as [H3|(y & Hy & H3)].
      * rewrite H3. unfold Rmax. destruct (Rle_dec m0 (Rabs a)).
        -- right. exists a. split; [apply elem_of_cons; by left | done].
        -- by left.
      * right. exists y. split; [apply elem_of_cons; by right | done].
Qed.

Lemma max_abs_spec (a : list R) :
  a ≠ [] →
  ∃ m, Py.max_abs a = Some m ∧ 0 <= m ∧
       (∀ y, y ∈ a → Rabs y <= m) ∧ (∃ y, y ∈ a ∧ Rabs y = m).
Proof.
  destruct a as [|x l]; [done|]. intros _. simpl.
  destruct (foldl_max_spec l (Rabs x)) as (H1 & H2 & H3).
  eexists. split; [done|]. pose proof (Rabs_pos x). split; [lra|]. split.
  - intros y [->|Hy]%elem_of_cons; [lra | by apply H2].
  - destruct H3 as [H3|(y & Hy & H3)].
    + exists x. split; [apply elem_of_cons; by left | done].
    + exists y. split; [apply elem_of_cons; by right | done].
Qed.

Lemma max_abs_Some (a : list R) (m : R) :
  Py.max_abs a = Some m →
  a ≠ [] ∧ 0 <= m ∧ (∀ y, y ∈ a → Rabs y <= m) ∧ (∃ y, y ∈ a ∧ Rabs y = m).
Proof.
  intros Hm. assert (a ≠ []) as Hne by (by destruct a).
  destruct (max_abs_spec a Hne) as (m' & Hm' & H). by simplify_eq.
Qed.

(** The peak is determined by its two defining properties. *)
Lemma max_abs_unique (a : list R) (m : R) :
  (∀ y, y ∈ a → Rabs y <= m) → (∃ y, y ∈ a ∧ Rabs y = m) → Py.max_abs a = Some m.
Proof.
  intros Hub (y & Hy & Hym).
  assert (a ≠ []) as Hne by (intros ->; by apply elem_of_nil in Hy).
  destruct (max_abs_spec a Hne) as (m' & -> & _ & Hub' & (y' & Hy' & Hym')).
  f_equal. apply Rle_antisym.
  - rewrite <- Hym'. by apply Hub.
  - rewrite <- Hym. by apply Hub'.
Qed.

(** ** Indexing *)

Lemma index_nat (n k : nat) : (k < n)%nat → Py.index n (Z.of_nat k) = Some k.
Proof.
  intros Hk. unfold Py.index. rewrite decide_True by lia. by rewrite Nat2Z.id.
Qed.

Lemma get_nat {A} (a : list A) (k : nat) :
  (k < length a)%nat → Py.get a (Z.of_nat k) = a !! k.
Proof. intros Hk. unfold Py.get. by rewrite index_nat. Qed.

Lemma set_nat {A} (a : list A) (k : nat) (v : A) :
  (k < length a)%nat → Py.set a (Z.of_nat k) v = Some (<[k := v]> a).
Proof. intros Hk. unfold Py.set. by rewrite index_nat. Qed.

Lemma index_None (n : nat) (i : Z) :
  (Z.of_nat n <= i ∨ i < - Z.of_nat n)%Z → Py.index n i = None.
Proof. intros Hi. unfold Py.index. by rewrite !decide_False by lia. Qed.

(** ** Loops *)

Lemma range_nil (a b : Z) : (b <= a)%Z → Py.range a b = [].
Proof.
  intros Hab. unfold Py.range, seqZ.
  replace (Z.to_nat (b - a)) with 0%nat by lia. done.
Qed.

Lemma range_cons (a b : Z) : (a < b)%Z → Py.range a b = a :: Py.range (a + 1) b.
Proof.
  intros Hab. unfold Py.range.
  rewrite seqZ_cons by lia.
  replace (Z.succ a) with (a + 1)%Z by lia.
  by replace (Z.pred (b - a)) with (b - (a + 1))%Z by lia.
Qed.

(** The invariant rule of a [for] loop over [range(a, b)], total form: when
    every turn succeeds and re-establishes the invariant, the loop succeeds
    and the invariant holds at [b]. *)
Lemma for_each_inv {S} (Inv : Z → S → Prop) (body : Z → S → option S) (a b : Z) (s0 : S) :
  (a <= b)%Z →
  Inv a s0 →
  (∀ i s, (a <= i < b)%Z → Inv i s → ∃ s', body i s = Some s' ∧ Inv (i + 1)%Z s') →
  ∃ s', Py.for_each (Py.range a b) body s0 = Some s' ∧ Inv b s'.
Proof.
  intros Hab. remember (Z.to_nat (b - a)) as k eqn:Hk.
  revert a s0 Hab Hk. induction k as [|k IH]; intros a s0 Hab Hk H0 Hstep.
  - assert (a = b) as -> by lia. rewrite range_nil by lia. by exists s0.
  - rewrite range_cons by lia. unfold Py.for_each. simpl.
    destruct (Hstep a s0) as (s1 & Hb & H1); [lia|done|]. rewrite Hb.
    apply (IH (a + 1)%Z s1); [lia|lia|done|].
    intros i s Hi. apply Hstep. lia.
Qed.

(** Partial form: whatever a successful loop returns satisfies the
    invariant. *)
Lemma for_each_inv_partial {S} (Inv : Z → S → Prop) (body : Z → S → option S)
    (a b : Z) (s0 s' : S) :
  Py.for_each (Py.range a b) body s0 = Some s' →
  (a <= b)%Z →
  Inv a s0 →
  (∀ i s s1, (a <= i < b)%Z → Inv i s → body i s = Some s1 → Inv (i + 1)%Z s1) →
  Inv b s'.
Proof.
  intros Hrun Hab. remember (Z.to_nat (b - a)) as k eqn:Hk.
  revert a s0 Hab Hk Hrun. induction k as [|k IH]; intros a s0 Hab Hk Hrun H0 Hstep.
  - assert (a = b) as -> by lia. rewrite range_nil in Hrun by lia.
    unfold Py.for_each in Hrun. simpl in Hrun. by simplify_eq.
  - rewrite range_cons in Hrun by lia. unfold Py.for_each in Hrun. simpl in Hrun.
    destruct (body a s0) as [s1|] eqn:Hb.
    + apply (IH (a + 1)%Z s1); [lia|lia|done| |].
      * apply (Hstep a s0); [lia|done|done].
      * intros i s s2 Hi. apply Hstep. lia.
    + exfalso. clear -Hrun. induction (Py.range (a + 1) b) as [|? ? IHl]; simpl in *; done.
Qed.

(** An empty loop returns its state. *)
Lemma for_each_nil {S} (body : Z → S → option S) (a b : Z) (s0 : S) :
  (b <= a)%Z → Py.for_each (Py.range a b) body s0 = Some s0.
Proof. intros Hab. by rewrite range_nil. Qed.

End runtime_facts.

(* ================================================================== *)
(** * Peak normalisation                                                *)
(* ================================================================== *)

Section normalisation.
Local Open Scope R_scope.
Context {A : Type} `{Frame A}.

Lemma flat_nil : flat ([] : list A) = [].
Proof. done. Qed.

Lemma flat_cons (a : A) (x : list A) : flat (a :: x) = chans a ++ flat x.
Proof. done. Qed.

Lemma flat_nonempty (x : list A) : x ≠ [] → flat x ≠ [].
Proof.
  destruct x as [|a x]; [done|]. intros _. rewrite flat_cons.
  pose proof (chans_nonempty a). by destruct (chans a).
Qed.

Lemma flat_empty (x : list A) : flat x = [] → x = [].
Proof. destruct x; [done|]. intros Hf. by apply flat_nonempty in Hf. Qed.

Lemma flat_map_on_chans (f : R → R) (x : list A) :
  flat (fmap (on_chans f) x) = fmap f (flat x).
Proof.
  induction x as [|a x IH]; [done|].
  rewrite fmap_cons, !flat_cons, fmap_app, chans_on_chans. by f_equal.
Qed.

Lemma elem_of_flat (x : list A) (s : R) :
  s ∈ flat x ↔ ∃ a, a ∈ x ∧ s ∈ chans a.
Proof.
  unfold flat. rewrite list_elem_of_bind. split; intros (a & H1 & H2); exists a; done.
Qed.

(** Both scripts define the same normalisation. *)
Lemma normalize_peak_same (x : list A) (peak : R) :
  V2.normalize_peak x peak = V1._normalize_peak x peak.
Proof. reflexivity. Qed.

(** What a successful normalisation returns: every sample scaled by the one
    factor [peak / (m + 1e-12)], [m] the peak over all channels. *)
Lemma normalize_peak_Some (x y : list A) (peak : R) :
  V1._normalize_peak x peak = Some y →
  ∃ m, Py.max_abs (flat x) = Some m ∧
       y = fmap (on_chans (λ s, s / (m + 1e-12) * peak)) x.
Proof.
  unfold V1._normalize_peak. intros Hn.
  destruct (Py.max_abs (flat x)) as [m|]; [|done].
  exists m. simpl in Hn. by simplify_eq.
Qed.

(** It succeeds on every non-empty array. *)
Lemma normalize_peak_ok (x : list A) (peak : R) :
  x ≠ [] → ∃ y, V1._normalize_peak x peak = Some y ∧ length y = length x.
Proof.
  intros Hne. destruct (max_abs_spec (flat x)) as (m & Hm & _); [by apply flat_nonempty|].
  unfold V1._normalize_peak. rewrite Hm. simpl. eexists. split; [done|].
  by rewrite length_fmap.
Qed.

Lemma normalize_peak_length (x y : list A) (peak : R) :
  V1._normalize_peak x peak = Some y → length y = length x.
Proof. intros (m & _ & ->)%normalize_peak_Some. by rewrite length_fmap. Qed.

Lemma scaled_abs (s m peak : R) :
  0 <= m → 0 <= peak → Rabs (s / (m + 1e-12) * peak) = Rabs s * peak / (m + 1e-12).
Proof.
  intros Hm Hp. pose proof eps_pos.
  set (d := m + 1e-12). assert (0 < d) as Hd by (unfold d; lra).
  unfold Rdiv. rewrite !Rabs_mult, Rabs_inv.
  rewrite (Rabs_pos_eq peak) by done. rewrite (Rabs_pos_eq d) by lra. lra.
Qed.

Lemma scaled_le (s m peak : R) :
  0 <= m → 0 <= peak → Rabs s <= m → Rabs s * peak / (m + 1e-12) <= peak * m / (m + 1e-12).
Proof.
  intros Hm Hp Hs. pose proof eps_pos.
  set (d := m + 1e-12). assert (0 < d) as Hd by (unfold d; lra).
  unfold Rdiv. apply Rmult_le_compat_r.
  - left. by apply Rinv_0_lt_compat.
  - nra.
Qed.

Lemma peak_fraction_le (m peak : R) :
  0 <= m → 0 <= peak → peak * m / (m + 1e-12) <= peak.
Proof.
  intros Hm Hp. pose proof eps_pos.
  set (d := m + 1e-12). assert (0 < d ∧ m <= d) as [Hd Hmd] by (unfold d; lra).
  apply (Rmult_le_reg_r d); [done|].
  unfold Rdiv. rewrite Rmult_assoc, Rinv_l by lra. nra.
Qed.

(** The loudest sample of a normalised array is [peak * m / (m + 1e-12)]. *)
Lemma normalize_peak_max (x y : list A) (peak m : R) :
  0 <= peak →
  Py.max_abs (flat x) = Some m →
  V1._normalize_peak x peak = Some y →
  Py.max_abs (flat y) = Some (peak * m / (m + 1e-12)).
Proof.
  intros Hp Hm Hn. apply normalize_peak_Some in Hn as (m' & Hm' & ->).
  assert (m' = m) as -> by congruence.
  apply max_abs_Some in Hm as (_ & Hm0 & Hub & (s0 & Hs0 & Hs0m)).
  rewrite flat_map_on_chans. apply max_abs_unique.
  - intros s' (s & -> & Hs)%list_elem_of_fmap.
    rewrite scaled_abs by done. apply scaled_le; auto.
  - exists (s0 / (m + 1e-12) * peak). split.
    + apply list_elem_of_fmap. by exists s0.
    + rewrite scaled_abs by done. rewrite Hs0m. lra.
Qed.

(** No sample of a normalised array exceeds the target peak. *)
Lemma normalize_peak_bound (x y : list A) (peak : R) :
  0 <= peak →
  V1._normalize_peak x peak = Some y →
  ∀ s, s ∈ flat y → Rabs s <= peak.
Proof.
  intros Hp Hn s Hs.
  destruct (normalize_peak_Some _ _ _ Hn) as (m & Hm & _).
  pose proof (normalize_peak_max _ _ _ _ Hp Hm Hn) as Hy.
  apply max_abs_Some in Hy as (_ & _ & Hub & _).
  apply max_abs_Some in Hm as (_ & Hm0 & _).
  etrans; [by apply Hub|]. by apply peak_fraction_le.
Qed.

(** A row whose channels are all zero is unchanged by any rescaling. *)
Lemma on_chans_zero (a : A) (k : R → R) :
  k 0 = 0 → (∀ s, s ∈ chans a → s = 0) → on_chans k a = a.
Proof.
  intros Hk Hz. apply chans_inj. rewrite chans_on_chans.
  induction (chans a) as [|s l IH]; [done|]. simpl. f_equal.
  - rewrite (Hz s); [done|]. apply elem_of_cons. by left.
  - apply IH. intros s' Hs'. apply Hz. apply elem_of_cons. by right.
Qed.

Lemma map_on_chans_zero (x : list A) (k : R → R) :
  k 0 = 0 → (∀ s, s ∈ flat x → s = 0) → fmap (on_chans k) x = x.
Proof.
  intros Hk Hz. induction x as [|a x IH]; [done|]. simpl. f_equal.
  - apply on_chans_zero; [done|]. intros s Hs. apply Hz. rewrite flat_cons.
    apply elem_of_app. by left.
  - apply IH. intros s Hs. apply Hz. rewrite flat_cons. apply elem_of_app. by right.
Qed.

Lemma max_abs_zero (l : list R) :
  l ≠ [] → (∀ s, s ∈ l → s = 0) → Py.max_abs l = Some 0.
Proof.
  intros Hne Hz. apply max_abs_unique.
  - intros y Hy. rewrite (Hz y Hy), Rabs_R0. lra.
  - destruct l as [|s l]; [done|]. exists s.
    assert (s ∈ s :: l) as Hs by (apply elem_of_cons; by left).
    split; [done|]. by rewrite (Hz s Hs), Rabs_R0.
Qed.

End normalisation.

(* ================================================================== *)
(** * Normalising silence                                               *)
(* ================================================================== *)

Section silence.
Local Open Scope R_scope.

(** A silent array with at least one row normalises to itself. *)
Lemma normalize_of_silence {A} `{Frame A} (x : list A) (peak : R) :
  x ≠ [] → (∀ s, s ∈ flat x → s = 0) → V1._normalize_peak x peak = Some x.
Proof.
  intros Hne Hz.
  assert (Py.max_abs (flat x) = Some 0) as Hm
    by (apply max_abs_zero; [by apply flat_nonempty | done]).
  unfold V1._normalize_peak. rewrite Hm. simpl. f_equal.
  apply map_on_chans_zero; [|done]. unfold Rdiv. lra.
Qed.

(** C10, as amended: peak normalisation of a silent array with at least one
    row, mono or stereo, returns that same all-zero array in both scripts,
    whatever the target peak; the loudest sample of the result is 0, so the
    target peak is not reached. *)
Theorem normalize_silence {A} `{Frame A} (x : list A) (peak : R) :
  x ≠ [] →
  (∀ s, s ∈ flat x → s = 0) →
  V1._normalize_peak x peak = Some x ∧
  V2.normalize_peak x peak = Some x ∧
  Py.max_abs (flat x) = Some 0.
Proof.
  intros Hne Hz.
  pose proof (normalize_of_silence x peak Hne Hz) as Hn.
  split; [exact Hn|]. split.
  - by rewrite (normalize_peak_same x peak).
  - apply max_abs_zero; [by apply flat_nonempty | done].
Qed.

Lemma normalize_silence_witness :
  V1._normalize_peak [(0, 0); (0, 0)] 0.95 = Some [(0, 0); (0, 0)] ∧
  V2.normalize_peak [(0, 0); (0, 0)] 0.95 = Some [(0, 0); (0, 0)] ∧
  Py.max_abs (flat [(0, 0); (0, 0)]) = Some 0.
Proof.
  apply (normalize_silence [(0, 0); (0, 0)] 0.95).
  - discriminate.
  - intros s Hs. simpl in Hs.
    repeat (apply elem_of_cons in Hs as [Hs|Hs]; [exact Hs|]).
    by apply elem_of_nil in Hs.
Defined.

(** C10, as stated, fails on the array with no row: it is silent, and both
    scripts raise on it ([np.max] of an empty array). *)
Lemma normalize_empty_raises :
  (∀ s, s ∈ flat ([] : list R) → s = 0) ∧
  V1._normalize_peak ([] : list R) 0.9 = None ∧
  V2.normalize_peak ([] : list (R * R)) 0.95 = None.
Proof.
  split; [|split; reflexivity].
  intros s Hs. by apply elem_of_nil in Hs.
Qed.

End silence.

(* ================================================================== *)
(** * Slices and ramps                                                  *)
(* ================================================================== *)

Section slices.
Local Open Scope R_scope.

Lemma linspace_Some (start stop : R) (num : Z) :
  (0 <= num)%Z →
  Py.linspace start stop num = Some (Py.linspace_at start stop num <$> seq 0 (Z.to_nat num)).
Proof. intros Hn. unfold Py.linspace. by rewrite decide_False by lia. Qed.

Lemma linspace_inv (start stop : R) (num : Z) (l : list R) :
  Py.linspace start stop num = Some l →
  (0 <= num)%Z ∧ l = Py.linspace_at start stop num <$> seq 0 (Z.to_nat num).
Proof.
  unfold Py.linspace. destruct (decide (num < 0)%Z); [done|].
  intros [= <-]. split; [lia|done].
Qed.

Lemma linspace_open_Some (start stop : R) (num : Z) :
  (0 <= num)%Z →
  ∃ l, Py.linspace_open start stop num = Some l ∧ length l = Z.to_nat num.
Proof.
  intros Hn. unfold Py.linspace_open. rewrite decide_False by lia.
  eexists. split; [done|]. by rewrite length_fmap, length_seq.
Qed.

Lemma linspace_at_first (start stop : R) (num : Z) :
  Py.linspace_at start stop num 0 = start.
Proof. unfold Py.linspace_at. destruct (decide _); [done|]. simpl. lra. Qed.

Lemma linspace_at_last (start stop : R) (num : Z) :
  (1 < num)%Z → Py.linspace_at start stop num (Z.to_nat (num - 1)) = stop.
Proof.
  intros Hn. unfold Py.linspace_at. rewrite decide_False by lia.
  rewrite INR_IZR_INZ, Z2Nat.id by lia.
  assert (IZR (num - 1) ≠ 0) by (apply not_0_IZR; lia). by field.
Qed.

Lemma linspace_at_one (start stop : R) (i : nat) : Py.linspace_at start stop 1 i = start.
Proof. unfold Py.linspace_at. by rewrite decide_True. Qed.

(** A ramp between 0 and 1, in either direction, stays between 0 and 1. *)
Lemma linspace_at_unit (start stop : R) (num : Z) (i : nat) :
  0 <= start <= 1 → 0 <= stop <= 1 → (Z.of_nat i < num)%Z →
  0 <= Py.linspace_at start stop num i <= 1.
Proof.
  intros Hs He Hi. unfold Py.linspace_at. destruct (decide _); [done|].
  assert (0 < IZR (num - 1)) as Hd by (apply IZR_lt; lia).
  assert (0 <= INR i <= IZR (num - 1)) as [Hi0 Hi1].
  { rewrite INR_IZR_INZ. split; apply IZR_le; lia. }
  set (d := IZR (num - 1)) in *. set (k := INR i) in *.
  replace (start + k * ((stop - start) / d))
    with (start * ((d - k) / d) + stop * (k / d)) by (field; lra).
  replace ((d - k) / d) with (1 - k / d) by (field; lra).
  assert (k / d * d = k) as Hq by (field; lra).
  set (q := k / d) in *.
  assert (0 <= q <= 1) as [? ?] by (split; nra). nra.
Qed.

Lemma clip_bound_nonneg (n : nat) (i : Z) :
  (0 <= i)%Z → Py.clip_bound n i = Z.to_nat (Z.min i (Z.of_nat n)).
Proof. intros Hi. unfold Py.clip_bound. by rewrite (proj2 (Z.ltb_ge i 0)) by lia. Qed.

Lemma clip_bound_neg (n : nat) (i : Z) :
  (i < 0)%Z → Py.clip_bound n i = Z.to_nat (Z.max 0 (i + Z.of_nat n)).
Proof. intros Hi. unfold Py.clip_bound. by rewrite (proj2 (Z.ltb_lt i 0)) by lia. Qed.

(** [a[:k]] for [0 <= k <= len(a)] *)
Lemma slice_range_head (n : nat) (k : Z) :
  (0 <= k <= Z.of_nat n)%Z → Py.slice_range n None (Some k) = (0%nat, Z.to_nat k).
Proof.
  intros Hk. unfold Py.slice_range. simpl. rewrite clip_bound_nonneg by lia.
  f_equal. lia.
Qed.

(** [a[-k:]] for [0 < k <= len(a)] *)
Lemma slice_range_tail (n : nat) (k : Z) :
  (0 < k <= Z.of_nat n)%Z →
  Py.slice_range n (Some (- k)%Z) None = ((n - Z.to_nat k)%nat, Z.to_nat k).
Proof.
  intros Hk. unfold Py.slice_range. simpl. rewrite clip_bound_neg by lia.
  f_equal; lia.
Qed.

(** [a[lo:hi]] for [0 <= lo <= hi <= len(a)] *)
Lemma slice_range_mid (n : nat) (lo hi : Z) :
  (0 <= lo <= hi)%Z → (hi <= Z.of_nat n)%Z →
  Py.slice_range n (Some lo) (Some hi) = (Z.to_nat lo, Z.to_nat (hi - lo)).
Proof.
  intros Hlo Hhi. unfold Py.slice_range. simpl. rewrite !clip_bound_nonneg by lia.
  f_equal; lia.
Qed.

Lemma broadcast_same {A} (k : nat) (v : list A) :
  length v = k → Py.broadcast k v = Some v.
Proof. intros Hk. unfold Py.broadcast. by rewrite decide_True. Qed.

Lemma broadcast_None {A} (k : nat) (v : list A) :
  length v ≠ k → length v ≠ 1%nat → Py.broadcast k v = None.
Proof.
  intros Hk H1. unfold Py.broadcast. rewrite decide_False by done.
  destruct v as [|a [|b v]]; done.
Qed.

Lemma broadcast_length {A} (k : nat) (v v' : list A) :
  Py.broadcast k v = Some v' → length v' = k.
Proof.
  unfold Py.broadcast. destruct (decide _) as [Hk|Hk]; [by intros [= <-]|].
  destruct v as [|a [|b v]]; try done. intros [= <-]. by rewrite length_replicate.
Qed.

(** An in-place slice update keeps the length of the array. *)
Lemma slice_update_length {A B} (f : A → B → A) (a a' : list A) (lo hi : option Z)
    (v : list B) :
  Py.slice_update f a lo hi v = Some a' → length a' = length a.
Proof.
  unfold Py.slice_update, Py.slice_range.
  set (s := from_option _ _ lo). set (e := from_option _ _ hi).
  destruct (Py.broadcast (e - s) v) as [v'|] eqn:Hb; [|done].
  apply broadcast_length in Hb. intros [= <-].
  rewrite !length_app, length_zip_with, !length_take, !length_drop. lia.
Qed.

(** The rows of an updated array, when the operand has as many rows as the
    slice [a[s : s + k]]. *)
Lemma slice_update_rows {A B} (f : A → B → A) (a : list A) (lo hi : option Z)
    (v : list B) (s k : nat) :
  Py.slice_range (length a) lo hi = (s, k) →
  length v = k →
  (s + k <= length a)%nat →
  ∃ a', Py.slice_update f a lo hi v = Some a' ∧ length a' = length a ∧
        ∀ i x, a !! i = Some x →
               a' !! i = Some (if decide (s <= i < s + k)%nat
                               then from_option (f x) x (v !! (i - s)%nat) else x).
Proof.
  intros Hr Hv Hsk. unfold Py.slice_update. rewrite Hr, (broadcast_same k v Hv). simpl.
  eexists. split; [done|]. split.
  { rewrite !length_app, length_zip_with, !length_take, !length_drop. lia. }
  intros i x Hx. pose proof (lookup_lt_Some _ _ _ Hx) as Hi.
  destruct (decide (s <= i < s + k)%nat) as [Hin|Hout].
  - rewrite lookup_app_r by (rewrite length_take; lia).
    rewrite length_take, Nat.min_l by lia.
    rewrite lookup_app_l by (rewrite length_zip_with, length_take, length_drop; lia).
    rewrite lookup_zip_with, lookup_take_lt, lookup_drop by lia.
    replace (s + (i - s))%nat with i by lia. rewrite Hx. simpl.
    destruct (v !! (i - s)%nat) as [b|] eqn:Hb; [done|].
    apply lookup_ge_None in Hb. lia.
  - destruct (decide (i < s)%nat).
    + rewrite lookup_app_l by (rewrite length_take; lia).
      by rewrite lookup_take_lt.
    + rewrite lookup_app_r by (rewrite length_take; lia).
      rewrite length_take, Nat.min_l by lia.
      rewrite lookup_app_r by (rewrite length_zip_with, length_take, length_drop; lia).
      rewrite length_zip_with, length_take, length_drop.
      rewrite lookup_drop. rewrite <- Hx. f_equal. lia.
Qed.

End slices.

(* ================================================================== *)
(** * Fade                                                              *)
(* ================================================================== *)

Section fade.
Local Open Scope R_scope.
Context {A : Type} `{Frame A}.

Lemma chans_scale (a : A) (g : R) : chans (scale a g) = (λ s, s * g) <$> chans a.
Proof. unfold scale. by rewrite chans_on_chans. Qed.

Lemma scale_zero_silent (a : A) : silent (scale a 0).
Proof.
  intros s. rewrite chans_scale. intros (s' & -> & _)%list_elem_of_fmap. lra.
Qed.

Lemma silent_scale (a : A) (g : R) : silent a → silent (scale a g).
Proof.
  intros Ha s. rewrite chans_scale. intros (s' & -> & Hs')%list_elem_of_fmap.
  rewrite (Ha s' Hs'). lra.
Qed.

Lemma ramp_lookup (start stop : R) (num : Z) (i : nat) :
  (Z.of_nat i < num)%Z →
  (Py.linspace_at start stop num <$> seq 0 (Z.to_nat num)) !! i
  = Some (Py.linspace_at start stop num i).
Proof.
  intros Hi. rewrite list_lookup_fmap, lookup_seq_lt by lia. done.
Qed.

(** [_fade] row by row: when both windows fit in the array, the fade
    succeeds and row [i] of the result is [fade_row] of row [i] of the
    input. *)
Lemma fade_rows (x : list A) (sr : Z) (fade_in_s fade_out_s : float) (fi fo : Z) :
  samples sr fade_in_s = Some fi →
  samples sr fade_out_s = Some fo →
  (fi <= Z.of_nat (length x))%Z →
  (fo <= Z.of_nat (length x))%Z →
  ∃ y, V1._fade x sr fade_in_s fade_out_s = Some y ∧
       length y = length x ∧
       ∀ i a, x !! i = Some a → y !! i = Some (fade_row (length x) fi fo i a).
Proof.
  intros Hfi Hfo Hin Hout. unfold V1._fade. rewrite Hfi, Hfo. simpl.
  assert (∃ x1, (if decide (0 < fi)%Z
                 then Py.linspace 0 1 fi ≫= λ fade_in,
                        Py.slice_update scale x None (Some fi) fade_in
                 else Some x) = Some x1 ∧
                length x1 = length x ∧
                ∀ i a, x !! i = Some a →
                  x1 !! i = Some (if decide (Z.of_nat i < fi)%Z
                                  then scale a (Py.linspace_at 0 1 fi i) else a))
    as (x1 & -> & Hlen1 & Hrows1).
  { destruct (decide (0 < fi)%Z) as [Hpos|Hnpos].
    - rewrite linspace_Some by lia. simpl.
      destruct (slice_update_rows scale x None (Some fi)
                  (Py.linspace_at 0 1 fi <$> seq 0 (Z.to_nat fi)) 0 (Z.to_nat fi))
        as (x1 & -> & Hlen1 & Hrows1).
      + apply slice_range_head. lia.
      + by rewrite length_fmap, length_seq.
      + lia.
      + exists x1. split; [done|]. split; [done|]. intros i a Ha.
        rewrite (Hrows1 i a Ha). f_equal.
        destruct (decide (Z.of_nat i < fi)%Z).
        * rewrite decide_True by lia. rewrite Nat.sub_0_r, ramp_lookup by lia. done.
        * by rewrite decide_False by lia.
    - exists x. split; [done|]. split; [done|]. intros i a Ha.
      by rewrite decide_False by lia. }
  simpl. destruct (decide (0 < fo)%Z) as [Hpos|Hnpos].
  - rewrite linspace_Some by lia. simpl.
    destruct (slice_update_rows scale x1 (Some (- fo)%Z) None
                (Py.linspace_at 1 0 fo <$> seq 0 (Z.to_nat fo))
                (length x - Z.to_nat fo)%nat (Z.to_nat fo))
      as (y & -> & Hlen & Hrows).
    + rewrite Hlen1. apply slice_range_tail. lia.
    + by rewrite length_fmap, length_seq.
    + lia.
    + exists y. split; [done|]. split; [lia|]. intros i a Ha.
      pose proof (lookup_lt_Some _ _ _ Ha) as Hi.
      rewrite (Hrows i _ (Hrows1 i a Ha)). f_equal. unfold fade_row.
      destruct (decide (Z.of_nat (length x) - fo <= Z.of_nat i)%Z).
      * rewrite decide_True by lia. rewrite ramp_lookup by lia. done.
      * by rewrite decide_False by lia.
  - exists x1. split; [done|]. split; [done|]. intros i a Ha.
    pose proof (lookup_lt_Some _ _ _ Ha) as Hi.
    rewrite (Hrows1 i a Ha). f_equal. unfold fade_row.
    by rewrite (decide_False (P := (Z.of_nat (length x) - fo <= Z.of_nat i)%Z)) by lia.
Qed.

(** A fade never makes a sample louder. *)
Lemma scale_unit_bound (a : A) (g bound : R) :
  0 <= g <= 1 → (∀ s, s ∈ chans a → Rabs s <= bound) →
  ∀ s, s ∈ chans (scale a g) → Rabs s <= bound.
Proof.
  intros Hg Ha s. rewrite chans_scale. intros (s' & -> & Hs')%list_elem_of_fmap.
  rewrite Rabs_mult, (Rabs_pos_eq g) by lra.
  pose proof (Ha s' Hs'). pose proof (Rabs_pos s'). nra.
Qed.

Lemma fade_row_bound (n : nat) (fi fo : Z) (i : nat) (a : A) (bound : R) :
  (i < n)%nat → (fo <= Z.of_nat n)%Z →
  (∀ s, s ∈ chans a → Rabs s <= bound) →
  ∀ s, s ∈ chans (fade_row n fi fo i a) → Rabs s <= bound.
Proof.
  intros Hi Hfo Ha. unfold fade_row.
  assert (∀ s, s ∈ chans (if decide (Z.of_nat i < fi)%Z
                          then scale a (Py.linspace_at 0 1 fi i) else a) →
               Rabs s <= bound) as Ha1.
  { destruct (decide _); [|done]. apply scale_unit_bound; [|done].
    apply linspace_at_unit; [lra|lra|done]. }
  cbv zeta. destruct (decide (Z.of_nat n - fo <= Z.of_nat i)%Z); [|exact Ha1].
  apply scale_unit_bound; [|exact Ha1].
  apply linspace_at_unit; [lra|lra|lia].
Qed.

End fade.

Section fade_claims.
Local Open Scope R_scope.

(** The fade of the second script is the fade of the first at stereo
    arrays. *)
Lemma fade_same (x : list (R * R)) (sr : Z) (fi fo : float) :
  V2.fade x sr fi fo = V1._fade x sr fi fo.
Proof. reflexivity. Qed.

(** C9, as amended.  For a stereo array of [n] rows and windows of [fi] and
    [fo] rows that fit in it, the fade of either script succeeds and:
    with [fi > 0] the first row is silenced; with [fo >= 2] the last
    row is silenced; every row from [fi] up to the fade-out window, so the
    row at the fade-in boundary and the row just before the fade-out window
    when the windows do not overlap, is unchanged; and each row has both
    its channels multiplied by one and the same gain of [[0, 1]]. *)
Theorem fade_edges (x : list (R * R)) (sr : Z) (fade_in_s fade_out_s : float) (fi fo : Z) :
  samples sr fade_in_s = Some fi →
  samples sr fade_out_s = Some fo →
  (fi <= Z.of_nat (length x))%Z →
  (fo <= Z.of_nat (length x))%Z →
  ∃ y, V1._fade x sr fade_in_s fade_out_s = Some y ∧
       V2.fade x sr fade_in_s fade_out_s = Some y ∧
       length y = length x ∧
       ((0 < fi)%Z → ∀ a, y !! 0%nat = Some a → a = (0, 0)) ∧
       ((1 < fo)%Z → ∀ a, y !! (length x - 1)%nat = Some a → a = (0, 0)) ∧
       (∀ i, (fi <= Z.of_nat i < Z.of_nat (length x) - fo)%Z → y !! i = x !! i) ∧
       (∀ i a, x !! i = Some a →
               ∃ g, 0 <= g <= 1 ∧ y !! i = Some (a.1 * g, a.2 * g)).
Proof.
  intros Hfi Hfo Hin Hout.
  destruct (fade_rows x sr fade_in_s fade_out_s fi fo Hfi Hfo Hin Hout)
    as (y & Hy & Hlen & Hrows).
  exists y. split; [done|]. split; [by rewrite fade_same|]. split; [done|].
  split; [|split; [|split]].
  - intros Hpos a Ha.
    destruct (x !! 0%nat) as [a0|] eqn:Hx0.
    + rewrite (Hrows _ _ Hx0) in Ha. injection Ha as <-. unfold fade_row.
      rewrite !(decide_True (P := (Z.of_nat 0 < fi)%Z)) by lia.
      rewrite linspace_at_first.
      destruct (decide _); unfold scale; simpl; f_equal; lra.
    + apply lookup_ge_None in Hx0. apply lookup_lt_Some in Ha. lia.
  - intros Hpos a Ha.
    destruct (x !! (length x - 1)%nat) as [a0|] eqn:Hx0.
    + pose proof (lookup_lt_Some _ _ _ Hx0) as Hn.
      rewrite (Hrows _ _ Hx0) in Ha. injection Ha as <-. unfold fade_row.
      rewrite (decide_True (P := (Z.of_nat (length x) - fo <= _)%Z)) by lia.
      replace (length x - 1 - (length x - Z.to_nat fo))%nat with (Z.to_nat (fo - 1)) by lia.
      rewrite linspace_at_last by lia.
      destruct (decide _); unfold scale; simpl; f_equal; lra.
    + apply lookup_ge_None in Hx0. apply lookup_lt_Some in Ha. lia.
  - intros i Hi. destruct (x !! i) as [a|] eqn:Hxi.
    + rewrite (Hrows _ _ Hxi). unfold fade_row. by rewrite !decide_False by lia.
    + apply lookup_ge_None. apply lookup_ge_None in Hxi. lia.
  - intros i [l r] Hxi. pose proof (lookup_lt_Some _ _ _ Hxi) as Hn.
    rewrite (Hrows _ _ Hxi). unfold fade_row.
    destruct (decide (Z.of_nat i < fi)%Z) as [H1|H1];
      destruct (decide (Z.of_nat (length x) - fo <= Z.of_nat i)%Z) as [H2|H2].
    + pose proof (linspace_at_unit 0 1 fi i) as [? ?]; [lra|lra|lia|].
      pose proof (linspace_at_unit 1 0 fo (i - (length x - Z.to_nat fo))) as [? ?];
        [lra|lra|lia|].
      eexists (_ * _). split; [|unfold scale; simpl; f_equal; f_equal; apply Rmult_assoc].
      split; nra.
    + pose proof (linspace_at_unit 0 1 fi i) as [? ?]; [lra|lra|lia|].
      eexists. split; [|done]. done.
    + pose proof (linspace_at_unit 1 0 fo (i - (length x - Z.to_nat fo))) as [? ?];
        [lra|lra|lia|].
      eexists. split; [|done]. done.
    + exists 1. split; [lra|]. simpl. f_equal. f_equal; lra.
Qed.

Lemma fade_edges_witness :
  ∃ y, V1._fade [(1, 1); (1, 1); (1, 1); (1, 1)] 44100 0.00003 0.00005 = Some y ∧
       V2.fade [(1, 1); (1, 1); (1, 1); (1, 1)] 44100 0.00003 0.00005 = Some y ∧
       length y = 4%nat ∧
       ((0 < 1)%Z → ∀ a, y !! 0%nat = Some a → a = (0, 0)) ∧
       ((1 < 2)%Z → ∀ a, y !! 3%nat = Some a → a = (0, 0)) ∧
       (∀ i, (1 <= Z.of_nat i < 4 - 2)%Z →
             y !! i = [(1, 1); (1, 1); (1, 1); (1, 1)] !! i) ∧
       (∀ i a, [(1, 1); (1, 1); (1, 1); (1, 1)] !! i = Some a →
               ∃ g, 0 <= g <= 1 ∧ y !! i = Some (a.1 * g, a.2 * g)).
Proof.
  apply (fade_edges [(1, 1); (1, 1); (1, 1); (1, 1)] 44100 0.00003 0.00005 1 2).
  - reflexivity.
  - reflexivity.
  - simpl. lia.
  - simpl. lia.
Defined.

(** C9, as stated, fails for a fade-out of one row: [np.linspace(1.0, 0.0, 1)]
    is [[1.0]], so the last row keeps gain 1.  Here [int(44100 * 0.00003)]
    is 1. *)
Lemma fade_out_one_row :
  samples 44100 0.00003 = Some 1%Z ∧
  V1._fade [(1, 1); (1, 1)] 44100 0 0.00003 = Some [(1, 1); (1 * 1, 1 * 1)] ∧
  V2.fade [(1, 1); (1, 1)] 44100 0 0.00003 = Some [(1, 1); (1 * 1, 1 * 1)] ∧
  (1 * 1, 1 * 1) ≠ (0, 0).
Proof.
  split; [reflexivity|]. split; [reflexivity|]. split; [reflexivity|].
  intros [= Hx _]. lra.
Qed.

End fade_claims.

(* ================================================================== *)
(** * The one-pole filters                                              *)
(* ================================================================== *)

Section filters.
Local Open Scope R_scope.

Lemma div_Some (a b : R) : b ≠ 0 → Py.div a b = Some (a / b).
Proof. intros Hb. unfold Py.div. by destruct (Req_dec_T b 0). Qed.

Lemma div_inv (a b q : R) : Py.div a b = Some q → b ≠ 0 ∧ q = a / b.
Proof. unfold Py.div. destruct (Req_dec_T b 0); [done|]. by intros [= <-]. Qed.

Lemma get_Z {A} (a : list A) (i : Z) :
  (0 <= i < Z.of_nat (length a))%Z → Py.get a i = a !! Z.to_nat i.
Proof. intros Hi. rewrite <- (get_nat a (Z.to_nat i)) by lia. f_equal. lia. Qed.

Lemma set_Z {A} (a : list A) (i : Z) (v : A) :
  (0 <= i < Z.of_nat (length a))%Z → Py.set a i v = Some (<[Z.to_nat i := v]> a).
Proof. intros Hi. rewrite <- (set_nat a (Z.to_nat i)) by lia. f_equal. lia. Qed.

Lemma lookup_Some_lt {A} (a : list A) (i : nat) :
  (i < length a)%nat → ∃ v, a !! i = Some v.
Proof. intros Hi. by apply lookup_lt_is_Some_2. Qed.

Lemma coefficients_pos (cutoff_hz : R) (sr : Z) :
  0 < cutoff_hz → (0 < sr)%Z →
  0 < 1 / (2 * PI * cutoff_hz) ∧ 0 < 1 / IZR sr.
Proof.
  intros Hc Hsr. pose proof PI_RGT_0. assert (0 < IZR sr) by (by apply IZR_lt).
  split; apply Rdiv_lt_0_compat; nra.
Qed.

Lemma lowpass_alpha_unit (cutoff_hz : R) (sr : Z) :
  0 < cutoff_hz → (0 < sr)%Z → 0 < lowpass_alpha cutoff_hz sr < 1.
Proof.
  intros Hc Hsr. destruct (coefficients_pos cutoff_hz sr Hc Hsr) as [Hrc Hdt].
  unfold lowpass_alpha. set (rc := 1 / (2 * PI * cutoff_hz)) in *.
  set (dt := 1 / IZR sr) in *.
  assert (dt / (rc + dt) * (rc + dt) = dt) as Hq by (field; lra).
  set (q := dt / (rc + dt)) in *. split; nra.
Qed.

Lemma highpass_alpha_unit (cutoff_hz : R) (sr : Z) :
  0 < cutoff_hz → (0 < sr)%Z → 0 < highpass_alpha cutoff_hz sr < 1.
Proof.
  intros Hc Hsr. destruct (coefficients_pos cutoff_hz sr Hc Hsr) as [Hrc Hdt].
  unfold highpass_alpha. set (rc := 1 / (2 * PI * cutoff_hz)) in *.
  set (dt := 1 / IZR sr) in *.
  assert (rc / (rc + dt) * (rc + dt) = rc) as Hq by (field; lra).
  set (q := rc / (rc + dt)) in *. split; nra.
Qed.

(** The loop of the low-pass computes the recurrence. *)
Lemma lowpass_loop (alpha : R) (x : list R) (x0 : R) :
  x !! 0%nat = Some x0 →
  ∃ y, Py.for_each (Py.range 1 (Z.of_nat (length x)))
         (λ i y,
            y1 ← Py.get y (i - 1);
            xi ← Py.get x i;
            Py.set y i (y1 + alpha * (xi - y1)))
         (<[0%nat := x0]> (replicate (length x) 0)) = Some y ∧
       is_lowpass alpha x y.
Proof.
  intros Hx0. pose proof (lookup_lt_Some _ _ _ Hx0) as Hn.
  set (y0 := <[0%nat := x0]> (replicate (length x) 0)).
  destruct (for_each_inv
    (λ i y, length y = length x ∧ y !! 0%nat = Some x0 ∧
            ∀ j, (0 < j)%nat → (Z.of_nat j < i)%Z →
                 ∃ y1 xj, y !! (j - 1)%nat = Some y1 ∧ x !! j = Some xj ∧
                          y !! j = Some (y1 + alpha * (xj - y1)))
    (λ i y,
       y1 ← Py.get y (i - 1);
       xi ← Py.get x i;
       Py.set y i (y1 + alpha * (xi - y1)))
    1 (Z.of_nat (length x)) y0) as (y & Hy & Hlen & Hy0 & Hrec).
  - lia.
  - unfold y0. rewrite length_insert, length_replicate. split; [done|]. split.
    + apply list_lookup_insert_eq. by rewrite length_replicate.
    + intros j Hj1 Hj2. lia.
  - intros i y Hi (Hlen & Hy0 & Hrec).
    destruct (lookup_Some_lt y (Z.to_nat (i - 1))) as [y1 Hy1]; [lia|].
    destruct (lookup_Some_lt x (Z.to_nat i)) as [xi Hxi]; [lia|].
    rewrite (get_Z y (i - 1)), Hy1 by lia. simpl.
    rewrite (get_Z x i), Hxi by lia. simpl.
    rewrite set_Z by lia.
    eexists. split; [done|]. rewrite length_insert. split; [done|]. split.
    + rewrite list_lookup_insert_ne by lia. done.
    + intros j Hj1 Hj2. destruct (decide (j = Z.to_nat i)) as [->|Hne].
      * exists y1, xi. replace (Z.to_nat i - 1)%nat with (Z.to_nat (i - 1)) by lia.
        rewrite list_lookup_insert_ne by lia.
        rewrite list_lookup_insert_eq by lia. done.
      * destruct (Hrec j) as (y1' & xj & H1 & H2 & H3); [lia|lia|].
        exists y1', xj. rewrite !list_lookup_insert_ne by lia. done.
  - exists y. split; [done|]. split; [done|]. split; [congruence|].
    intros i Hi. apply Hrec; lia.
Qed.

(** The loop of the high-pass computes the recurrence. *)
Lemma highpass_loop (alpha : R) (x : list R) (x0 : R) :
  x !! 0%nat = Some x0 →
  ∃ y, Py.for_each (Py.range 1 (Z.of_nat (length x)))
         (λ i y,
            y1 ← Py.get y (i - 1);
            xi ← Py.get x i;
            x1 ← Py.get x (i - 1);
            Py.set y i (alpha * (y1 + xi - x1)))
         (<[0%nat := x0]> (replicate (length x) 0)) = Some y ∧
       is_highpass alpha x y.
Proof.
  intros Hx0. pose proof (lookup_lt_Some _ _ _ Hx0) as Hn.
  set (y0 := <[0%nat := x0]> (replicate (length x) 0)).
  destruct (for_each_inv
    (λ i y, length y = length x ∧ y !! 0%nat = Some x0 ∧
            ∀ j, (0 < j)%nat → (Z.of_nat j < i)%Z →
                 ∃ y1 xj x1, y !! (j - 1)%nat = Some y1 ∧ x !! j = Some xj ∧
                             x !! (j - 1)%nat = Some x1 ∧
                             y !! j = Some (alpha * (y1 + xj - x1)))
    (λ i y,
       y1 ← Py.get y (i - 1);
       xi ← Py.get x i;
       x1 ← Py.get x (i - 1);
       Py.set y i (alpha * (y1 + xi - x1)))
    1 (Z.of_nat (length x)) y0) as (y & Hy & Hlen & Hy0 & Hrec).
  - lia.
  - unfold y0. rewrite length_insert, length_replicate. split; [done|]. split.
    + apply list_lookup_insert_eq. by rewrite length_replicate.
    + intros j Hj1 Hj2. lia.
  - intros i y Hi (Hlen & Hy0 & Hrec).
    destruct (lookup_Some_lt y (Z.to_nat (i - 1))) as [y1 Hy1]; [lia|].
    destruct (lookup_Some_lt x (Z.to_nat i)) as [xi Hxi]; [lia|].
    destruct (lookup_Some_lt x (Z.to_nat (i - 1))) as [x1 Hx1]; [lia|].
    rewrite (get_Z y (i - 1)), Hy1 by lia. simpl.
    rewrite (get_Z x i), Hxi by lia. simpl.
    rewrite (get_Z x (i - 1)), Hx1 by lia. simpl. rewrite set_Z by lia.
    eexists. split; [done|]. rewrite length_insert. split; [done|]. split.
    + rewrite list_lookup_insert_ne by lia. done.
    + intros j Hj1 Hj2. destruct (decide (j = Z.to_nat i)) as [->|Hne].
      * exists y1, xi, x1. replace (Z.to_nat i - 1)%nat with (Z.to_nat (i - 1)) by lia.
        rewrite list_lookup_insert_ne by lia.
        rewrite list_lookup_insert_eq by lia. done.
      * destruct (Hrec j) as (y1' & xj & x1' & H1 & H2 & H3 & H4); [lia|lia|].
        exists y1', xj, x1'. rewrite !list_lookup_insert_ne by lia. done.
  - exists y. split; [done|]. split; [done|]. split; [congruence|].
    intros i Hi. apply Hrec; lia.
Qed.

(** On a non-empty array, with a positive cutoff and sample rate, the
    low-pass succeeds and returns the recurrence. *)
Lemma lowpass_total (x : list R) (cutoff_hz : R) (sr : Z) :
  x ≠ [] → 0 < cutoff_hz → (0 < sr)%Z →
  ∃ y, V1._apply_lowpass x cutoff_hz sr = Some y ∧
       is_lowpass (lowpass_alpha cutoff_hz sr) x y.
Proof.
  intros Hne Hc Hsr. destruct (coefficients_pos cutoff_hz sr Hc Hsr) as [Hrc Hdt].
  pose proof PI_RGT_0. assert (0 < IZR sr) by (by apply IZR_lt).
  destruct x as [|x0 x']; [done|].
  unfold V1._apply_lowpass.
  rewrite (div_Some 1 (2 * PI * cutoff_hz)) by nra. simpl.
  rewrite (div_Some 1 (IZR sr)) by lra. simpl.
  rewrite div_Some by lra. simpl.
  apply (lowpass_loop _ (x0 :: x') x0). done.
Qed.

Lemma highpass_total (x : list R) (cutoff_hz : R) (sr : Z) :
  x ≠ [] → 0 < cutoff_hz → (0 < sr)%Z →
  ∃ y, V1._apply_highpass x cutoff_hz sr = Some y ∧
       is_highpass (highpass_alpha cutoff_hz sr) x y.
Proof.
  intros Hne Hc Hsr. destruct (coefficients_pos cutoff_hz sr Hc Hsr) as [Hrc Hdt].
  pose proof PI_RGT_0. assert (0 < IZR sr) by (by apply IZR_lt).
  destruct x as [|x0 x']; [done|].
  unfold V1._apply_highpass.
  rewrite (div_Some 1 (2 * PI * cutoff_hz)) by nra. simpl.
  rewrite (div_Some 1 (IZR sr)) by lra. simpl.
  rewrite div_Some by lra. simpl.
  apply (highpass_loop _ (x0 :: x') x0). done.
Qed.

(** Both filters raise on an empty array ([y[0] = x[0]]). *)
Lemma filters_empty (cutoff_hz : R) (sr : Z) :
  V1._apply_lowpass [] cutoff_hz sr = None ∧ V1._apply_highpass [] cutoff_hz sr = None.
Proof.
  unfold V1._apply_lowpass, V1._apply_highpass.
  split.
  - destruct (Py.div 1 (2 * PI * cutoff_hz)) as [rc|]; [simpl|done].
    destruct (Py.div 1 (IZR sr)) as [dt|]; [simpl|done].
    destruct (Py.div dt (rc + dt)) as [alpha|]; [simpl|done]. reflexivity.
  - destruct (Py.div 1 (2 * PI * cutoff_hz)) as [rc|]; [simpl|done].
    destruct (Py.div 1 (IZR sr)) as [dt|]; [simpl|done].
    destruct (Py.div rc (rc + dt)) as [alpha|]; [simpl|done]. reflexivity.
Qed.

End filters.

Section filter_bounds.
Local Open Scope R_scope.

Lemma Rabs_bound (a b : R) : Rabs a <= b ↔ - b <= a <= b.
Proof. unfold Rabs. destruct (Rcase_abs a); lra. Qed.

Lemma bounded_lookup (M : R) (x : list R) :
  bounded M x ↔ ∀ i v, x !! i = Some v → Rabs v <= M.
Proof.
  split.
  - intros Hb i v Hv. apply Hb. by apply list_elem_of_lookup_2 in Hv.
  - intros Hb v (i & Hi)%list_elem_of_lookup_1. by apply (Hb i).
Qed.

Lemma bounded_weaken (M M' : R) (x : list R) : M <= M' → bounded M x → bounded M' x.
Proof. intros HM Hb s Hs. pose proof (Hb s Hs). lra. Qed.

(** A one-pole low-pass never exceeds the peak of its input. *)
Lemma lowpass_bounded (alpha M : R) (x y : list R) :
  0 <= alpha <= 1 → is_lowpass alpha x y → bounded M x → bounded M y.
Proof.
  intros Ha (Hlen & H0 & Hrec) Hx. rewrite bounded_lookup in Hx.
  apply bounded_lookup. intros i. induction i as [|i IH]; intros v Hv.
  - rewrite H0 in Hv. by apply (Hx 0%nat).
  - pose proof (lookup_lt_Some _ _ _ Hv) as Hi.
    destruct (Hrec (S i)) as (y1 & xi & Hy1 & Hxi & Hyi); [lia|].
    replace (S i - 1)%nat with i in Hy1 by lia.
    rewrite Hyi in Hv. injection Hv as <-.
    pose proof (IH _ Hy1) as B1. pose proof (Hx _ _ Hxi) as B2.
    apply Rabs_bound in B1, B2. apply Rabs_bound. split; nra.
Qed.

(** A one-pole high-pass never exceeds twice the peak of its input: the
    difference [x[i] - y[i]] is itself a low-pass of [x]. *)
Lemma highpass_bounded (alpha M : R) (x y : list R) :
  0 <= alpha <= 1 → is_highpass alpha x y → bounded M x → bounded (2 * M) y.
Proof.
  intros Ha (Hlen & H0 & Hrec) Hx. rewrite bounded_lookup in Hx.
  assert (∀ i v xi, y !! i = Some v → x !! i = Some xi → Rabs (xi - v) <= M) as Hdiff.
  { intros i. induction i as [|i IH]; intros v xi Hv Hxi.
    - rewrite H0 in Hv. assert (v = xi) as -> by congruence.
      pose proof (Hx _ _ Hxi) as B. pose proof (Rabs_pos xi).
      replace (xi - xi) with 0 by lra. rewrite Rabs_R0. lra.
    - pose proof (lookup_lt_Some _ _ _ Hxi) as Hi.
      destruct (Hrec (S i)) as (y1 & xi' & x1 & Hy1 & Hxi' & Hx1 & Hyi); [lia|].
      replace (S i - 1)%nat with i in Hy1, Hx1 by lia.
      assert (xi' = xi) as -> by congruence.
      rewrite Hyi in Hv. injection Hv as <-.
      pose proof (IH _ _ Hy1 Hx1) as B1. pose proof (Hx _ _ Hxi) as B2.
      apply Rabs_bound in B1, B2. apply Rabs_bound. split; nra. }
  apply bounded_lookup. intros i v Hv.
  destruct (lookup_Some_lt x i) as [xi Hxi];
    [rewrite <- Hlen; by apply lookup_lt_Some in Hv|].
  pose proof (Hdiff _ _ _ Hv Hxi) as B1. pose proof (Hx _ _ Hxi) as B2.
  apply Rabs_bound in B1, B2. apply Rabs_bound. split; lra.
Qed.

End filter_bounds.

(* ================================================================== *)
(** * The comb filter                                                   *)
(* ================================================================== *)

Section comb.
Local Open Scope R_scope.

(** The comb filter of the second script is that of the first. *)
Lemma comb_filter_same (x : list R) (delay_ms : float) (feedback : R) (sr : Z) :
  V2.comb_filter x delay_ms feedback sr = V1._comb_filter x delay_ms feedback sr.
Proof. reflexivity. Qed.

(** With a delay of at least one sample, the loop computes the feedback
    recurrence. *)
Lemma comb_loop_spec (x : list R) (d : Z) (feedback : R) :
  (1 <= d)%Z →
  ∃ y, V1.comb_loop x d feedback = Some y ∧ is_comb feedback (Z.to_nat d) x y.
Proof.
  intros Hd. unfold V1.comb_loop.
  destruct (decide (Z.of_nat (length x) <= d)%Z) as [Hbig|Hsmall].
  { rewrite for_each_nil by lia. exists x. split; [done|]. split; [done|].
    split; [done|]. intros i Hi. lia. }
  destruct (for_each_inv
    (λ i y, length y = length x ∧
            (∀ j, (Z.of_nat j < d ∨ i <= Z.of_nat j)%Z → y !! j = x !! j) ∧
            ∀ j, (d <= Z.of_nat j < i)%Z →
                 ∃ xj yd, x !! j = Some xj ∧ y !! (j - Z.to_nat d)%nat = Some yd ∧
                          y !! j = Some (xj + feedback * yd))
    (λ i y,
       yi ← Py.get y i;
       yd ← Py.get y (i - d);
       Py.set y i (yi + feedback * yd))
    d (Z.of_nat (length x)) x) as (y & Hy & Hlen & Hsame & Hrec).
  - lia.
  - split; [done|]. split; [done|]. intros j Hj. lia.
  - intros i y Hi (Hlen & Hsame & Hrec).
    destruct (lookup_Some_lt x (Z.to_nat i)) as [xi Hxi]; [lia|].
    destruct (lookup_Some_lt y (Z.to_nat (i - d))) as [yd Hyd]; [lia|].
    rewrite (get_Z y i), (Hsame (Z.to_nat i)), Hxi by lia. simpl.
    rewrite (get_Z y (i - d)), Hyd by lia. simpl.
    rewrite set_Z by lia. eexists. split; [done|].
    rewrite length_insert. split; [done|]. split.
    + intros j Hj. rewrite list_lookup_insert_ne by lia. apply Hsame. lia.
    + intros j Hj. destruct (decide (j = Z.to_nat i)) as [->|Hne].
      * exists xi, yd. split; [done|].
        replace (Z.to_nat i - Z.to_nat d)%nat with (Z.to_nat (i - d)) by lia.
        rewrite list_lookup_insert_ne by lia.
        rewrite list_lookup_insert_eq by lia. done.
      * destruct (Hrec j) as (xj & yd' & H1 & H2 & H3); [lia|].
        exists xj, yd'. rewrite !list_lookup_insert_ne by lia. done.
  - exists y. split; [done|]. split; [done|]. split.
    + intros i Hi. apply Hsame. lia.
    + intros i Hi. apply Hrec. lia.
Qed.

(** With a delay of zero samples the loop reads the sample it is about
    to overwrite: every sample is multiplied by [1 + feedback]. *)
Lemma comb_loop_zero (x : list R) (feedback : R) :
  ∃ y, V1.comb_loop x 0 feedback = Some y ∧ length y = length x ∧
       ∀ i xi, x !! i = Some xi → y !! i = Some (xi + feedback * xi).
Proof.
  unfold V1.comb_loop.
  destruct (for_each_inv
    (λ i y, length y = length x ∧
            (∀ j, (i <= Z.of_nat j)%Z → y !! j = x !! j) ∧
            ∀ j xj, (Z.of_nat j < i)%Z → x !! j = Some xj →
                    y !! j = Some (xj + feedback * xj))
    (λ i y,
       yi ← Py.get y i;
       yd ← Py.get y (i - 0);
       Py.set y i (yi + feedback * yd))
    0 (Z.of_nat (length x)) x) as (y & Hy & Hlen & Hsame & Hrec).
  - lia.
  - split; [done|]. split; [done|]. intros j xj Hj. lia.
  - intros i y Hi (Hlen & Hsame & Hrec).
    destruct (lookup_Some_lt x (Z.to_nat i)) as [xi Hxi]; [lia|].
    rewrite (get_Z y i), (Hsame (Z.to_nat i)), Hxi by lia. simpl.
    rewrite Z.sub_0_r.
    rewrite (get_Z y i), (Hsame (Z.to_nat i)), Hxi by lia. simpl.
    rewrite set_Z by lia. eexists. split; [done|].
    rewrite length_insert. split; [done|]. split.
    + intros j Hj. rewrite list_lookup_insert_ne by lia. apply Hsame. lia.
    + intros j xj Hj Hxj. destruct (decide (j = Z.to_nat i)) as [->|Hne].
      * rewrite list_lookup_insert_eq by lia. congruence.
      * rewrite list_lookup_insert_ne by lia. apply Hrec; [lia|done].
  - exists y. split; [done|]. split; [done|]. intros i xi Hxi.
    apply Hrec; [|done]. apply lookup_lt_Some in Hxi. lia.
Qed.

(** The comb filter returns the loop's result normalised to 0.9: it
    succeeds on a non-empty array for any delay of zero samples or more,
    and no sample of its result exceeds 0.9, whatever the feedback. *)
Lemma comb_filter_total (x : list R) (delay_ms : float) (feedback : R) (sr d : Z) :
  ms_samples sr delay_ms = Some d → (0 <= d)%Z → x ≠ [] →
  ∃ y out, V1.comb_loop x d feedback = Some y ∧
           V1._normalize_peak y 0.9 = Some out ∧
           V1._comb_filter x delay_ms feedback sr = Some out ∧
           length out = length x.
Proof.
  intros Hms Hd Hne.
  assert (∃ y, V1.comb_loop x d feedback = Some y ∧ length y = length x)
    as (y & Hy & Hlen).
  { destruct (decide (d = 0%Z)) as [->|Hd0].
    - destruct (comb_loop_zero x feedback) as (y & Hy & Hlen & _). by exists y.
    - destruct (comb_loop_spec x d feedback) as (y & Hy & Hlen & _); [lia|].
      by exists y. }
  destruct (normalize_peak_ok y 0.9) as (out & Hout & Hlen').
  { intros ->. destruct x; done. }
  exists y, out. split; [done|]. split; [done|]. split; [|lia].
  unfold V1._comb_filter. rewrite Hms. simpl. rewrite Hy. done.
Qed.

Lemma comb_filter_bounded (x out : list R) (delay_ms : float) (feedback : R) (sr : Z) :
  V1._comb_filter x delay_ms feedback sr = Some out → bounded 0.9 out.
Proof.
  unfold V1._comb_filter. intros Hc.
  destruct (ms_samples sr delay_ms) as [d|]; [simpl in Hc|done].
  destruct (V1.comb_loop x d feedback) as [y|]; [simpl in Hc|done].
  intros s Hs. apply (normalize_peak_bound y out 0.9); [lra|done|].
  unfold flat. apply list_elem_of_bind. exists s. split; [|done].
  simpl. apply elem_of_cons. by left.
Qed.

End comb.

Section comb_claims.
Local Open Scope R_scope.

(** C6, as amended.  For a non-empty input and a delay of at least one
    sample, the loop of the comb filter returns [y] with [y[i] = x[i]]
    below the delay and [y[i] = x[i] + feedback * y[i - delay]] from the
    delay on, and the filter of either script returns that [y]
    peak-normalised to 0.9. *)
Theorem comb_recurrence (x : list R) (delay_ms : float) (feedback : R) (sr d : Z) :
  ms_samples sr delay_ms = Some d →
  (1 <= d)%Z →
  x ≠ [] →
  ∃ y out,
    V1.comb_loop x d feedback = Some y ∧
    is_comb feedback (Z.to_nat d) x y ∧
    V1._normalize_peak y 0.9 = Some out ∧
    V1._comb_filter x delay_ms feedback sr = Some out ∧
    V2.comb_filter x delay_ms feedback sr = Some out.
Proof.
  intros Hms Hd Hne.
  destruct (comb_loop_spec x d feedback Hd) as (y & Hy & Hcomb).
  destruct (comb_filter_total x delay_ms feedback sr d Hms) as (y' & out & Hy' & Hn & Hc & _);
    [lia|done|].
  assert (y' = y) as -> by congruence.
  exists y, out. repeat split; try done; apply Hcomb.
Qed.

Lemma comb_recurrence_witness :
  ∃ y out,
    V1.comb_loop [1; 1; 1] 1 0.5 = Some y ∧
    is_comb 0.5 (Z.to_nat 1) [1; 1; 1] y ∧
    V1._normalize_peak y 0.9 = Some out ∧
    V1._comb_filter [1; 1; 1] 0.03 0.5 44100 = Some out ∧
    V2.comb_filter [1; 1; 1] 0.03 0.5 44100 = Some out.
Proof.
  apply (comb_recurrence [1; 1; 1] 0.03 0.5 44100 1).
  - reflexivity.
  - lia.
  - discriminate.
Defined.

(** C6, as stated, fails for a delay that rounds to zero samples
    ([int(44100 * 0.01 / 1000.0)] is 0): the loop then adds to each sample
    [feedback] times its own old value, so [y[0]] is 1.5 for [x = [1]] and a
    feedback of 0.5, while [y[0] = x[0] + feedback * y[0]] would need 2. *)
Lemma comb_zero_delay :
  ms_samples 44100 0.01 = Some 0%Z ∧
  V1.comb_loop [1] 0 0.5 = Some [1 + 0.5 * 1] ∧
  1 + 0.5 * 1 ≠ 1 + 0.5 * (1 + 0.5 * 1).
Proof.
  split; [reflexivity|]. split; [reflexivity|]. lra.
Qed.

(** C8.  For a non-empty input of peak [m] and a cutoff between 0 and half
    the sample rate, the low-pass and the high-pass of either script succeed
    and no sample of their output exceeds [2 * m]; and for a feedback of
    magnitude below 1 and a delay of zero samples or more, the comb filter
    succeeds and no sample of its output exceeds 0.9. *)
Theorem filters_stable (x : list R) (cutoff_hz : R) (sr : Z) (m : R) :
  Py.max_abs x = Some m →
  0 < cutoff_hz < IZR sr / 2 →
  (∃ y, V1._apply_lowpass x cutoff_hz sr = Some y ∧
        V2.lowpass x cutoff_hz sr = Some y ∧ bounded (2 * m) y) ∧
  (∃ y, V1._apply_highpass x cutoff_hz sr = Some y ∧
        V2.highpass x cutoff_hz sr = Some y ∧ bounded (2 * m) y) ∧
  (∀ delay_ms feedback d,
     Rabs feedback < 1 → ms_samples sr delay_ms = Some d → (0 <= d)%Z →
     ∃ out, V1._comb_filter x delay_ms feedback sr = Some out ∧
            V2.comb_filter x delay_ms feedback sr = Some out ∧
            bounded 0.9 out).
Proof.
  intros Hm [Hc Hny].
  apply max_abs_Some in Hm as (Hne & Hm0 & Hub & _).
  assert (0 < sr)%Z as Hsr by (apply lt_IZR; lra).
  assert (bounded m x) as Hx by done.
  split; [|split].
  - destruct (lowpass_total x cutoff_hz sr Hne Hc Hsr) as (y & Hy & Hlp).
    exists y. split; [done|]. split; [done|].
    apply (bounded_weaken m); [lra|].
    apply (lowpass_bounded (lowpass_alpha cutoff_hz sr) m x); [|done|done].
    pose proof (lowpass_alpha_unit cutoff_hz sr Hc Hsr). lra.
  - destruct (highpass_total x cutoff_hz sr Hne Hc Hsr) as (y & Hy & Hhp).
    exists y. split; [done|]. split; [done|].
    apply (highpass_bounded (highpass_alpha cutoff_hz sr) m x); [|done|done].
    pose proof (highpass_alpha_unit cutoff_hz sr Hc Hsr). lra.
  - intros delay_ms feedback d _ Hms Hd.
    destruct (comb_filter_total x delay_ms feedback sr d Hms Hd Hne)
      as (y & out & _ & _ & Hout & _).
    exists out. split; [done|]. split; [done|].
    by apply (comb_filter_bounded x out delay_ms feedback sr).
Qed.

Lemma filters_stable_witness :
  (∃ y, V1._apply_lowpass [1; -1] 1200 44100 = Some y ∧
        V2.lowpass [1; -1] 1200 44100 = Some y ∧ bounded (2 * 1) y) ∧
  (∃ y, V1._apply_highpass [1; -1] 1200 44100 = Some y ∧
        V2.highpass [1; -1] 1200 44100 = Some y ∧ bounded (2 * 1) y) ∧
  (∀ delay_ms feedback d,
     Rabs feedback < 1 → ms_samples 44100 delay_ms = Some d → (0 <= d)%Z →
     ∃ out, V1._comb_filter [1; -1] delay_ms feedback 44100 = Some out ∧
            V2.comb_filter [1; -1] delay_ms feedback 44100 = Some out ∧
            bounded 0.9 out).
Proof.
  apply (filters_stable [1; -1] 1200 44100 1).
  - apply max_abs_unique.
    + intros y Hy. repeat (apply elem_of_cons in Hy as [->|Hy]);
        [apply Rabs_bound; lra | apply Rabs_bound; lra | by apply elem_of_nil in Hy].
    + exists 1. split; [apply elem_of_cons; by left | apply Rabs_R1].
  - lra.
Defined.

End comb_claims.

(* ================================================================== *)
(** * The attack/decay envelope                                         *)
(* ================================================================== *)

Section envelope.
Local Open Scope R_scope.

Lemma slice_head {A} (l : list A) (k : Z) :
  (0 <= k <= Z.of_nat (length l))%Z → Py.slice l None (Some k) = take (Z.to_nat k) l.
Proof.
  intros Hk. unfold Py.slice. rewrite slice_range_head by done. by rewrite drop_0.
Qed.

(** The envelope sample by sample, for an attack that fits in the array. *)
Lemma envelope_ad_rows (t : list R) (attack decay : float) (sr a d : Z) :
  samples_r attack sr = Some a →
  samples_r decay sr = Some d →
  (0 <= a <= Z.of_nat (length t))%Z →
  ∃ env, V1._envelope_ad t attack decay sr = Some env ∧
         length env = length t ∧
         ∀ i, (i < length t)%nat → env !! i = Some (envelope_at a d i).
Proof.
  intros Ha Hd Han. unfold V1._envelope_ad. rewrite Ha, Hd. simpl.
  set (n := length t) in *. set (ones := replicate n 1).
  assert (∃ e1, (if decide (0 < a)%Z
                 then Py.linspace 0 1 a ≫= λ ramp,
                        Py.slice_update (λ _ v : R, v) ones None (Some a) ramp
                 else Some ones) = Some e1 ∧
                length e1 = n ∧
                ∀ i, (i < n)%nat →
                  e1 !! i = Some (if decide (Z.of_nat i < a)%Z
                                  then Py.linspace_at 0 1 a i else 1))
    as (e1 & -> & Hlen1 & Hrows1).
  { assert (length ones = n) as Hones by apply length_replicate.
    assert (∀ i, (i < n)%nat → ones !! i = Some 1) as Hone.
    { intros i Hi. by apply lookup_replicate_2. }
    destruct (decide (0 < a)%Z) as [Hpos|Hnpos].
    - rewrite linspace_Some by lia. simpl.
      destruct (slice_update_rows (λ _ v : R, v) ones None (Some a)
                  (Py.linspace_at 0 1 a <$> seq 0 (Z.to_nat a)) 0 (Z.to_nat a))
        as (e1 & -> & Hlen1 & Hrows1).
      + rewrite Hones. apply slice_range_head. lia.
      + by rewrite length_fmap, length_seq.
      + lia.
      + exists e1. split; [done|]. split; [lia|]. intros i Hi.
        rewrite (Hrows1 i 1 (Hone i Hi)). f_equal.
        destruct (decide (Z.of_nat i < a)%Z).
        * rewrite decide_True by lia. rewrite Nat.sub_0_r, ramp_lookup by lia. done.
        * by rewrite decide_False by lia.
    - exists ones. split; [done|]. split; [done|]. intros i Hi.
      rewrite decide_False by lia. by apply Hone. }
  simpl. destruct (decide (0 < d)%Z) as [Hpos|Hnpos].
  - rewrite linspace_Some by lia. simpl.
    set (curve := Py.linspace_at 1 0.2 d <$> seq 0 (Z.to_nat d)).
    assert (length curve = Z.to_nat d) as Hcurve
      by (unfold curve; by rewrite length_fmap, length_seq).
    set (end_ := Z.min (a + d) (Z.of_nat n)).
    rewrite slice_head by lia.
    destruct (slice_update_rows (λ _ v : R, v) e1 (Some a) (Some end_)
                (take (Z.to_nat (end_ - a)) curve) (Z.to_nat a) (Z.to_nat (end_ - a)))
      as (env & -> & Hlen & Hrows).
    + rewrite Hlen1. apply slice_range_mid; lia.
    + rewrite length_take. lia.
    + lia.
    + exists env. split; [done|]. split; [lia|]. intros i Hi.
      rewrite (Hrows i _ (Hrows1 i Hi)). f_equal. unfold envelope_at.
      destruct (decide (Z.of_nat i < a)%Z) as [H1|H1].
      * by rewrite decide_False by lia.
      * destruct (decide (Z.of_nat i < a + d)%Z) as [H2|H2].
        -- rewrite decide_True by lia.
           rewrite lookup_take_lt by lia. unfold curve.
           rewrite ramp_lookup by lia. done.
        -- by rewrite decide_False by lia.
  - exists e1. split; [done|]. split; [done|]. intros i Hi.
    rewrite (Hrows1 i Hi). f_equal. unfold envelope_at.
    destruct (decide (Z.of_nat i < a)%Z); [done|]. by rewrite decide_False by lia.
Qed.

(** C4, as amended.  For an attack of [a = int(attack * sr)] samples with
    [0 <= a <= n] and a decay of [d = int(decay * sr)] samples, the envelope
    over [n] samples is: the linear ramp from 0 to 1 over the first [a]
    samples (0 at sample 0, 1 at sample [a - 1] when [a >= 2]); the linear
    curve from 1 to 0.2 of [d] points over the samples from [a] on (1 at
    sample [a], 0.2 at sample [a + d - 1] when [d >= 2]), cut off at [n]
    when [a + d] exceeds [n]; and the gain 1.0, the value the envelope is
    initialised with, for every sample from [a + d] on. *)
Theorem envelope_ad_shape (t : list R) (attack decay : float) (sr a d : Z) :
  samples_r attack sr = Some a →
  samples_r decay sr = Some d →
  (0 <= a <= Z.of_nat (length t))%Z →
  ∃ env, V1._envelope_ad t attack decay sr = Some env ∧
         length env = length t ∧
         (∀ i, (i < length t)%nat → env !! i = Some (envelope_at a d i)) ∧
         ((0 < a)%Z → envelope_at a d 0 = 0) ∧
         ((1 < a)%Z → envelope_at a d (Z.to_nat (a - 1)) = 1) ∧
         ((0 < d)%Z → envelope_at a d (Z.to_nat a) = 1) ∧
         ((1 < d)%Z → envelope_at a d (Z.to_nat (a + d - 1)) = 0.2) ∧
         (∀ i, (a + d <= Z.of_nat i)%Z → (0 <= d)%Z → envelope_at a d i = 1).
Proof.
  intros Ha Hd Han.
  destruct (envelope_ad_rows t attack decay sr a d Ha Hd Han) as (env & Henv & Hlen & Hrows).
  exists env. split; [done|]. split; [done|]. split; [done|].
  unfold envelope_at. repeat split.
  - intros Hpos. rewrite decide_True by lia. apply linspace_at_first.
  - intros Hpos. rewrite decide_True by lia. by apply linspace_at_last.
  - intros Hpos. rewrite decide_False by lia. rewrite decide_True by lia.
    rewrite Nat.sub_diag. apply linspace_at_first.
  - intros Hpos. rewrite decide_False by lia. rewrite decide_True by lia.
    replace (Z.to_nat (a + d - 1) - Z.to_nat a)%nat with (Z.to_nat (d - 1)) by lia.
    by apply linspace_at_last.
  - intros i Hi Hd0. by rewrite !decide_False by lia.
Qed.

Lemma envelope_ad_shape_witness :
  ∃ env, V1._envelope_ad [0; 0; 0; 0; 0; 0] 0.00005 0.00005 44100 = Some env ∧
         length env = 6%nat ∧
         (∀ i, (i < 6)%nat → env !! i = Some (envelope_at 2 2 i)) ∧
         ((0 < 2)%Z → envelope_at 2 2 0 = 0) ∧
         ((1 < 2)%Z → envelope_at 2 2 (Z.to_nat (2 - 1)) = 1) ∧
         ((0 < 2)%Z → envelope_at 2 2 (Z.to_nat 2) = 1) ∧
         ((1 < 2)%Z → envelope_at 2 2 (Z.to_nat (2 + 2 - 1)) = 0.2) ∧
         (∀ i, (2 + 2 <= Z.of_nat i)%Z → (0 <= 2)%Z → envelope_at 2 2 i = 1).
Proof.
  apply (envelope_ad_shape [0; 0; 0; 0; 0; 0] 0.00005 0.00005 44100 2 2).
  - reflexivity.
  - reflexivity.
  - simpl. lia.
Defined.

(** C4, as stated, fails once the decay window ends before the array does:
    the samples after it are not held at the last decay value 0.2 but are
    1.0, the value the envelope was initialised with.  Here the attack and
    the decay are 2 samples each, of 6. *)
Lemma envelope_not_held :
  V1._envelope_ad [0; 0; 0; 0; 0; 0] 0.00005 0.00005 44100
  = Some [Py.linspace_at 0 1 2 0; Py.linspace_at 0 1 2 1;
          Py.linspace_at 1 0.2 2 0; Py.linspace_at 1 0.2 2 1; 1; 1] ∧
  Py.linspace_at 1 0.2 2 1 = 0.2 ∧
  (1 : R) ≠ 0.2.
Proof.
  split; [reflexivity|]. split; [|lra].
  unfold Py.linspace_at. rewrite decide_False by lia.
  replace (2 - 1)%Z with 1%Z by lia. change (INR 1) with 1. lra.
Qed.

End envelope.

(* ================================================================== *)
(** * Computations that draw                                            *)
(* ================================================================== *)

Section drawing.
Local Open Scope R_scope.

Lemma bind_unfold {A B} (m : M A) (f : A → M B) (s : Rng) :
  (m ≫= f) s = match m s with Some (a, s') => f a s' | None => None end.
Proof. reflexivity. Qed.

Lemma bind_Some {A B} (m : M A) (f : A → M B) (s s' : Rng) (b : B) :
  (m ≫= f) s = Some (b, s') ↔ ∃ a s1, m s = Some (a, s1) ∧ f a s1 = Some (b, s').
Proof.
  rewrite bind_unfold. split.
  - destruct (m s) as [[a s1]|]; [|done]. intros Hf. by exists a, s1.
  - intros (a & s1 & -> & Hf). done.
Qed.

Lemma ok_Some {A} (o : option A) (s s' : Rng) (a : A) :
  ok o s = Some (a, s') ↔ o = Some a ∧ s' = s.
Proof.
  unfold ok. destruct o as [a'|]; split; try done.
  - by intros [= -> ->].
  - by intros [[= ->] ->].
  - by intros [? _].
Qed.

(** A step that does not draw and succeeds is a [let]. *)
Lemma bind_ok {A B} (o : option A) (a : A) (f : A → M B) (s : Rng) :
  o = Some a → (ok o ≫= f) s = f a s.
Proof. intros ->. reflexivity. Qed.

Lemma bind_run {A B} (m : M A) (f : A → M B) (s s1 : Rng) (a : A) :
  m s = Some (a, s1) → (m ≫= f) s = f a s1.
Proof. intros Hm. by rewrite bind_unfold, Hm. Qed.

Lemma same_tapes_refl (s : Rng) : same_tapes s s.
Proof. done. Qed.

Lemma same_tapes_trans (s1 s2 s3 : Rng) :
  same_tapes s1 s2 → same_tapes s2 s3 → same_tapes s1 s3.
Proof. intros [H1 H2] [H3 H4]. split; congruence. Qed.

Lemma same_tapes_valid (s s' : Rng) : same_tapes s s' → valid s → valid s'.
Proof. intros [H1 H2] Hv k. rewrite H1, H2. apply Hv. Qed.

Lemma random_run (s : Rng) :
  ∃ r s', random s = Some (r, s') ∧ same_tapes s s' ∧ r = py_tape s (py_pos s).
Proof. eexists _, _. split; [reflexivity|]. done. Qed.

Lemma uniform_run (low high : R) (n : Z) (s : Rng) :
  (0 <= n)%Z →
  ∃ l s', uniform low high n s = Some (l, s') ∧ same_tapes s s' ∧
          length l = Z.to_nat n.
Proof.
  intros Hn. unfold uniform. rewrite decide_False by lia.
  eexists _, _. split; [reflexivity|]. split; [done|].
  by rewrite length_fmap, length_seq.
Qed.

(** A valid source gives [randint(a, b)] a value of [[a, b]]. *)
Lemma randint_run (a b : Z) (s : Rng) :
  valid s → (a <= b)%Z →
  ∃ k s', randint a b s = Some (k, s') ∧ same_tapes s s' ∧ (a <= k <= b)%Z.
Proof.
  intros Hv Hab. unfold randint. rewrite decide_False by lia.
  eexists _, _. split; [reflexivity|]. split; [done|].
  destruct (Hv (py_pos s)) as [_ [Hu0 Hu1]].
  set (u := py_tape s (py_pos s)) in *. set (w := IZR (b - a + 1)) in *.
  assert (1 <= w) as Hw by (unfold w; apply IZR_le; lia).
  destruct (base_Int_part (u * w)) as [Hlo Hhi].
  assert (0 <= u * w < w) as [Hp0 Hp1] by (split; nra).
  assert (-1 < IZR (Int_part (u * w)) ∧ IZR (Int_part (u * w)) < IZR (b - a + 1))
    as [G1 G2] by (fold w; lra).
  apply lt_IZR in G1, G2. lia.
Qed.

(** The invariant rule of a drawing [for] loop over [range(a, b)]. *)
Lemma for_each_draw_inv {S} (Inv : Z → S → Rng → Prop) (body : Z → S → M S)
    (a b : Z) (x0 : S) (s0 : Rng) :
  (a <= b)%Z →
  Inv a x0 s0 →
  (∀ i x s, (a <= i < b)%Z → Inv i x s →
            ∃ x' s', body i x s = Some (x', s') ∧ Inv (i + 1)%Z x' s') →
  ∃ x' s', for_each (Py.range a b) body x0 s0 = Some (x', s') ∧ Inv b x' s'.
Proof.
  intros Hab. remember (Z.to_nat (b - a)) as k eqn:Hk.
  revert a x0 s0 Hab Hk. induction k as [|k IH]; intros a x0 s0 Hab Hk H0 Hstep.
  - assert (a = b) as -> by lia. rewrite range_nil by lia. by exists x0, s0.
  - rewrite range_cons by lia. simpl.
    destruct (Hstep a x0 s0) as (x1 & s1 & Hb & H1); [lia|done|].
    rewrite (bind_run _ _ _ _ _ Hb).
    apply (IH (a + 1)%Z x1 s1); [lia|lia|done|].
    intros i x s Hi. apply Hstep. lia.
Qed.

(** Partial form. *)
Lemma for_each_draw_partial {S} (Inv : Z → S → Prop) (body : Z → S → M S)
    (a b : Z) (x0 x' : S) (s0 s' : Rng) :
  for_each (Py.range a b) body x0 s0 = Some (x', s') →
  (a <= b)%Z →
  Inv a x0 →
  (∀ i x s x1 s1, (a <= i < b)%Z → Inv i x → body i x s = Some (x1, s1) →
                  Inv (i + 1)%Z x1) →
  Inv b x'.
Proof.
  intros Hrun Hab. remember (Z.to_nat (b - a)) as k eqn:Hk.
  revert a x0 s0 Hab Hk Hrun. induction k as [|k IH]; intros a x0 s0 Hab Hk Hrun H0 Hstep.
  - assert (a = b) as -> by lia. rewrite range_nil in Hrun by lia.
    simpl in Hrun. injection Hrun as <- <-. done.
  - rewrite range_cons in Hrun by lia. simpl in Hrun.
    apply bind_Some in Hrun as (x1 & s1 & Hb & Hrun).
    apply (IH (a + 1)%Z x1 s1); [lia|lia|done| |].
    + apply (Hstep a x0 s0 x1 s1); [lia|done|done].
    + intros i x s x2 s2 Hi. apply Hstep. lia.
Qed.

End drawing.

(* ================================================================== *)
(** * Reverb                                                            *)
(* ================================================================== *)

Section reverb.
Local Open Scope R_scope.

(** The reverb of the second script is that of the first. *)
Lemma reverb_simple_same (st : list (R * R)) (sr : Z) (decay : R) (taps : Z)
    (base_ms : float) :
  V2.reverb_simple st sr decay taps base_ms = V1._reverb_simple st sr decay taps base_ms.
Proof. reflexivity. Qed.

Lemma inplace_rows {A B} (f : A → B → A) (a : list A) (v : list B) :
  length v = length a →
  ∃ a', inplace f a v = Some a' ∧ length a' = length a ∧
        ∀ i x b, a !! i = Some x → v !! i = Some b → a' !! i = Some (f x b).
Proof.
  intros Hv. unfold inplace. rewrite broadcast_same by done. simpl.
  eexists. split; [done|]. split; [rewrite length_zip_with; lia|].
  intros i x b Hx Hb. rewrite lookup_zip_with, Hx. simpl. by rewrite Hb.
Qed.

(** For a delay of 1 to [n] rows, [tail] is the dry signal delayed. *)
Lemma tap_tail_rows (stereo : list (R * R)) (delay : Z) :
  (1 <= delay <= Z.of_nat (length stereo))%Z →
  ∃ tail, V1.tap_tail stereo delay = Some tail ∧ length tail = length stereo ∧
          ∀ i, (i < length stereo)%nat →
               tail !! i = Some (delayed stereo (Z.to_nat delay) i).
Proof.
  intros Hd. unfold V1.tap_tail. rewrite decide_False by lia.
  set (pad := replicate (Z.to_nat delay) (0, 0)).
  assert (length pad = Z.to_nat delay) as Hpad by apply length_replicate.
  assert (∀ tail, tail = pad ++ take (length stereo - Z.to_nat delay) stereo →
            length tail = length stereo ∧
            ∀ i, (i < length stereo)%nat →
                 tail !! i = Some (delayed stereo (Z.to_nat delay) i)) as Htail.
  { intros tail ->. split.
    - rewrite length_app, length_take. lia.
    - intros i Hi. unfold delayed. destruct (decide (Z.to_nat delay <= i)%nat).
      + rewrite lookup_app_r by lia. rewrite Hpad, lookup_take_lt by lia.
        destruct (lookup_Some_lt stereo (i - Z.to_nat delay)) as [v ->]; [lia|]. done.
      + rewrite lookup_app_l by lia. apply lookup_replicate_2. lia. }
  destruct (decide (delay < Z.of_nat (length stereo))%Z).
  - eexists. split; [done|]. apply Htail. f_equal.
    unfold Py.slice, Py.slice_range. simpl. rewrite clip_bound_neg by lia.
    rewrite drop_0. f_equal. lia.
  - exists pad. split; [done|]. apply Htail.
    replace (length stereo - Z.to_nat delay)%nat with 0%nat by lia.
    by rewrite take_0, app_nil_r.
Qed.

(** One tap with a delay of 1 to [n] rows: the left channel gains
    [gain] times the delayed left channel, the right channel [gain] times the
    delayed right channel times [0.9 + 0.2 r], [r] the next draw. *)
Lemma reverb_tap_run (stereo y : list (R * R)) (sr : Z) (decay : R) (base_delay_ms : float)
    (t delay : Z) (s : Rng) :
  V1.tap_delay sr base_delay_ms t = Some delay →
  (1 <= delay <= Z.of_nat (length stereo))%Z →
  length y = length stereo →
  ∃ y' s', V1.reverb_tap stereo sr decay base_delay_ms t y s = Some (y', s') ∧
           same_tapes s s' ∧ py_pos s' = S (py_pos s) ∧ np_pos s' = np_pos s ∧
           length y' = length stereo ∧
           ∀ i p, y !! i = Some p →
                  y' !! i = Some
                    (p.1 + decay ^ Z.to_nat t * (delayed stereo (Z.to_nat delay) i).1,
                     p.2 + decay ^ Z.to_nat t * (delayed stereo (Z.to_nat delay) i).2
                           * (0.9 + 0.2 * py_tape s (py_pos s))).
Proof.
  intros Hdelay Hd Hlen. unfold V1.reverb_tap.
  rewrite (bind_ok _ _ _ _ Hdelay).
  destruct (tap_tail_rows stereo delay Hd) as (tail & Htail & Hlt & Hrows).
  rewrite (bind_ok _ _ _ _ Htail).
  destruct (inplace_rows add_left y (smul (decay ^ Z.to_nat t) (fst <$> tail)))
    as (y1 & Hy1 & Hlen1 & Hrows1).
  { unfold smul. rewrite !length_fmap. lia. }
  rewrite (bind_ok _ _ _ _ Hy1).
  destruct (random_run s) as (r & s' & Hr & Hs' & ->).
  rewrite (bind_run _ _ _ _ _ Hr).
  destruct (inplace_rows add_right y1
              ((λ v, decay ^ Z.to_nat t * v * (0.9 + 0.2 * py_tape s (py_pos s)))
                 <$> (snd <$> tail)))
    as (y2 & Hy2 & Hlen2 & Hrows2).
  { rewrite !length_fmap. lia. }
  exists y2, s'. split; [by rewrite Hy2|]. split; [done|].
  split; [by injection Hr as <-|]. split; [by injection Hr as <-|].
  split; [lia|]. intros i p Hp.
  pose proof (lookup_lt_Some _ _ _ Hp) as Hi.
  assert (tail !! i = Some (delayed stereo (Z.to_nat delay) i)) as Hti
    by (apply Hrows; lia).
  apply (Hrows2 i (add_left p (decay ^ Z.to_nat t * (delayed stereo (Z.to_nat delay) i).1))).
  - apply Hrows1; [done|]. unfold smul. rewrite !list_lookup_fmap, Hti. done.
  - rewrite !list_lookup_fmap, Hti. done.
Qed.

(** When every tap has a delay of 1 to [n] rows, the reverb succeeds, keeps
    the number of rows, draws once per tap, and returns its wet sum
    normalised to 0.95. *)
Lemma reverb_run (stereo : list (R * R)) (sr : Z) (decay : R) (num_taps : Z)
    (base_delay_ms : float) (s : Rng) :
  stereo ≠ [] →
  (0 <= num_taps)%Z →
  (∀ t, (1 <= t <= num_taps)%Z →
        ∃ delay, V1.tap_delay sr base_delay_ms t = Some delay ∧
                 (1 <= delay <= Z.of_nat (length stereo))%Z) →
  ∃ y out s', V1.reverb_sum stereo sr decay num_taps base_delay_ms s = Some (y, s') ∧
              V1._normalize_peak y 0.95 = Some out ∧
              V1._reverb_simple stereo sr decay num_taps base_delay_ms s = Some (out, s') ∧
              same_tapes s s' ∧
              py_pos s' = (py_pos s + Z.to_nat num_taps)%nat ∧ np_pos s' = np_pos s ∧
              length out = length stereo.
Proof.
  intros Hne Hn Htaps.
  destruct (for_each_draw_inv
    (λ t y s', length y = length stereo ∧ same_tapes s s' ∧
               py_pos s' = (py_pos s + Z.to_nat (t - 1))%nat ∧ np_pos s' = np_pos s)
    (V1.reverb_tap stereo sr decay base_delay_ms) 1 (num_taps + 1) stereo s)
    as (y & s' & Hrun & Hlen & Hst & Hpy & Hnp).
  - lia.
  - split; [done|]. split; [done|]. split; [|done]. simpl. lia.
  - intros t y s1 Ht (Hlen & Hst & Hpy & Hnp).
    destruct (Htaps t) as (delay & Hdelay & Hd); [lia|].
    destruct (reverb_tap_run stereo y sr decay base_delay_ms t delay s1 Hdelay Hd Hlen)
      as (y' & s2 & Hy' & Hst' & Hpy' & Hnp' & Hlen' & _).
    exists y', s2. split; [done|]. split; [done|].
    split; [by apply (same_tapes_trans s s1 s2)|]. split; lia.
  - destruct (normalize_peak_ok y 0.95) as (out & Hout & Hlo).
    { intros ->. destruct stereo; done. }
    exists y, out, s'. split; [done|]. split; [done|]. split.
    { unfold V1._reverb_simple. fold (V1.reverb_sum stereo sr decay num_taps base_delay_ms).
      rewrite (bind_run _ _ _ _ _ Hrun). by rewrite Hout. }
    split; [done|]. split; [|split; [done|lia]].
    rewrite Hpy. f_equal. lia.
Qed.

(** With every delay between 1 and [n] rows, the wet sum is, row by row,
    the dry signal plus the delayed copies: tap [t] uses draw [t - 1] after
    the cursor for its jitter. *)
Lemma reverb_sum_rows (stereo : list (R * R)) (sr : Z) (decay : R) (num_taps : Z)
    (base_delay_ms : float) (delay : nat → nat) (s : Rng) :
  (0 <= num_taps)%Z →
  (∀ t, (1 <= t <= num_taps)%Z →
        V1.tap_delay sr base_delay_ms t = Some (Z.of_nat (delay (Z.to_nat t))) ∧
        (1 <= delay (Z.to_nat t) <= length stereo)%nat) →
  ∃ y s', V1.reverb_sum stereo sr decay num_taps base_delay_ms s = Some (y, s') ∧
          length y = length stereo ∧
          ∀ i, (i < length stereo)%nat →
               y !! i = Some (wet_row stereo decay delay
                                (λ t, py_tape s (py_pos s + t - 1)%nat)
                                (Z.to_nat num_taps) i).
Proof.
  intros Hn Htaps. set (jitter := λ t : nat, py_tape s (py_pos s + t - 1)%nat).
  destruct (for_each_draw_inv
    (λ t y s', length y = length stereo ∧ py_tape s' = py_tape s ∧
               py_pos s' = (py_pos s + Z.to_nat (t - 1))%nat ∧
               ∀ i, (i < length stereo)%nat →
                    y !! i = Some (wet_row stereo decay delay jitter (Z.to_nat (t - 1)) i))
    (V1.reverb_tap stereo sr decay base_delay_ms) 1 (num_taps + 1) stereo s)
    as (y & s' & Hrun & Hlen & _ & _ & Hrows).
  - lia.
  - split; [done|]. split; [done|]. split; [simpl; lia|].
    intros i Hi. simpl. destruct (lookup_lt_is_Some_2 stereo i Hi) as [v ->]. done.
  - intros t y s1 Ht (Hlen & Htape & Hpy & Hrows).
    destruct (Htaps t) as (Hdelay & Hd); [lia|].
    destruct (reverb_tap_run stereo y sr decay base_delay_ms t _ s1 Hdelay)
      as (y' & s2 & Hy' & (_ & Htape') & Hpy' & _ & Hlen' & Hrows'); [lia|done|].
    exists y', s2. split; [done|]. split; [done|]. split; [congruence|].
    split; [lia|]. intros i Hi.
    rewrite (Hrows' i _ (Hrows i Hi)).
    replace (Z.to_nat (t + 1 - 1)) with (S (Z.to_nat (t - 1))) by lia.
    cbn [wet_row]. replace (S (Z.to_nat (t - 1))) with (Z.to_nat t) by lia.
    rewrite Nat2Z.id.
    assert (py_tape s1 (py_pos s1) = jitter (Z.to_nat t)) as ->; [|done].
    unfold jitter. rewrite Htape, Hpy. f_equal. lia.
  - exists y, s'. split; [done|]. split; [done|].
    intros i Hi. replace (Z.to_nat num_taps) with (Z.to_nat (num_taps + 1 - 1)) by lia.
    by apply Hrows.
Qed.

(** A tap whose delay exceeds the number of rows makes the reverb raise:
    the pad has [delay] rows and cannot be added to [n] rows. *)
Lemma reverb_tap_raises (stereo y : list (R * R)) (sr : Z) (decay : R)
    (base_delay_ms : float) (t delay : Z) (s : Rng) :
  V1.tap_delay sr base_delay_ms t = Some delay →
  (Z.of_nat (length stereo) < delay)%Z → (1 < delay)%Z →
  length y = length stereo →
  V1.reverb_tap stereo sr decay base_delay_ms t y s = None.
Proof.
  intros Hdelay Hbig H1 Hlen. unfold V1.reverb_tap.
  rewrite (bind_ok _ _ _ _ Hdelay).
  assert (V1.tap_tail stereo delay = Some (replicate (Z.to_nat delay) (0, 0))) as Htail.
  { unfold V1.tap_tail. by rewrite !decide_False by lia. }
  rewrite (bind_ok _ _ _ _ Htail).
  assert (inplace add_left y
            (smul (decay ^ Z.to_nat t) (fst <$> replicate (Z.to_nat delay) (0, 0))) = None)
    as Hin.
  { unfold inplace. rewrite broadcast_None; [done| |];
      unfold smul; rewrite !length_fmap, length_replicate; lia. }
  rewrite bind_unfold. unfold ok at 1. by rewrite Hin.
Qed.

(** A tap whose delay truncates to zero rows makes the reverb raise as
    well: [stereo[:-0]] is empty, so [tail] has no row. *)
Lemma reverb_tap_zero_raises (stereo y : list (R * R)) (sr : Z) (decay : R)
    (base_delay_ms : float) (t : Z) (s : Rng) :
  V1.tap_delay sr base_delay_ms t = Some 0%Z →
  (1 < length stereo)%nat →
  length y = length stereo →
  V1.reverb_tap stereo sr decay base_delay_ms t y s = None.
Proof.
  intros Hdelay Hbig Hlen. unfold V1.reverb_tap.
  rewrite (bind_ok _ _ _ _ Hdelay).
  assert (V1.tap_tail stereo 0 = Some []) as Htail.
  { unfold V1.tap_tail. rewrite decide_False by lia. rewrite decide_True by lia.
    unfold Py.slice, Py.slice_range. simpl.
    change (- 0)%Z with 0%Z. rewrite clip_bound_nonneg by lia.
    replace (Z.to_nat (Z.min 0 (Z.of_nat (length stereo))) - 0)%nat with 0%nat by lia.
    by rewrite take_0. }
  rewrite (bind_ok _ _ _ _ Htail).
  rewrite bind_unfold. unfold ok at 1. unfold inplace.
  rewrite broadcast_None; [done|simpl; lia|simpl; lia].
Qed.

End reverb.

Section reverb_claims.
Local Open Scope R_scope.

(** C5: the code at the failing input.  A two-row stereo signal with one tap
    of 60 ms: the delay is [int(44100 * (60 * 1) / 1000.0)], that is 2646
    rows, more than the signal has; the tap does not contribute silence, the
    reverb of either script raises. *)
Theorem reverb_short_signal_raises (s : Rng) :
  V1.tap_delay 44100 60 1 = Some 2646%Z ∧
  V1._reverb_simple [(1, 1); (1, 1)] 44100 0.5 1 60 s = None ∧
  V2.reverb_simple [(1, 1); (1, 1)] 44100 0.5 1 60 s = None.
Proof.
  assert (V1.tap_delay 44100 60 1 = Some 2646%Z) as Hdelay by reflexivity.
  assert (V1._reverb_simple [(1, 1); (1, 1)] 44100 0.5 1 60 s = None) as Hraise.
  { unfold V1._reverb_simple, V1.reverb_sum.
    rewrite range_cons, range_nil by lia. simpl.
    rewrite bind_unfold, bind_unfold.
    rewrite (reverb_tap_raises [(1, 1); (1, 1)] [(1, 1); (1, 1)] 44100 0.5 60 1 2646 s);
      [done|done|simpl; lia|lia|done]. }
  split; [done|]. split; [done|]. by rewrite reverb_simple_same.
Qed.

End reverb_claims.

(* ================================================================== *)
(** * The recipes run                                                   *)
(* ================================================================== *)

(** Reduce the [Some a ≫= f] at the head of a computation. *)
Ltac obind := cbn [mbind option_bind].

Section building_blocks.
Local Open Scope R_scope.

Lemma ok_run {A} (o : option A) (a : A) (s : Rng) : o = Some a → ok o s = Some (a, s).
Proof. by intros ->. Qed.

Lemma zip_arrays_same {A} (f : A → A → A) (a b : list A) :
  length a = length b →
  ∃ c, Py.zip_arrays f a b = Some c ∧ length c = length a ∧ c = zip_with f a b.
Proof.
  intros Hab. unfold Py.zip_arrays. rewrite decide_True by done.
  eexists. split; [done|]. split; [|done]. rewrite length_zip_with. lia.
Qed.

Lemma stack_same (l r : list R) :
  length l = length r →
  ∃ st, stack l r = Some st ∧ length st = length l ∧ st = zip l r.
Proof.
  intros Hlr. unfold stack. rewrite decide_True by done.
  eexists. split; [done|]. split; [|done]. rewrite length_zip. lia.
Qed.

Lemma smul_length (k : R) (v : list R) : length (smul k v) = length v.
Proof. apply length_fmap. Qed.

Lemma sadd_length (k : R) (v : list R) : length (sadd k v) = length v.
Proof. apply length_fmap. Qed.

Lemma sine_length (f : R) (t : list R) : length (V1._sine f t) = length t.
Proof. apply length_fmap. Qed.

Lemma zeros_run (n : Z) :
  (0 <= n)%Z → ∃ z, Py.zeros n = Some z ∧ length z = Z.to_nat n.
Proof.
  intros Hn. unfold Py.zeros. rewrite decide_False by lia.
  eexists. split; [done|]. apply length_replicate.
Qed.

Lemma linspace_run (start stop : R) (num : Z) :
  (0 <= num)%Z → ∃ l, Py.linspace start stop num = Some l ∧ length l = Z.to_nat num.
Proof.
  intros Hn. rewrite linspace_Some by done. eexists. split; [done|].
  by rewrite length_fmap, length_seq.
Qed.

Lemma hanning_length (M : Z) : (0 <= M)%Z → length (Py.hanning M) = Z.to_nat M.
Proof.
  intros HM. unfold Py.hanning.
  destruct (decide (M < 1)%Z); [simpl; lia|].
  destruct (decide (M = 1)%Z) as [->|]; [done|].
  by rewrite length_fmap, length_seq.
Qed.

Lemma partials_sum_length (base_f : R) (t : list R) :
  length (V1.partials_sum base_f t) = length t.
Proof.
  unfold V1.partials_sum. simpl.
  rewrite !length_zip_with, !smul_length, !sine_length, length_replicate. lia.
Qed.

Lemma nonempty_length {A} (l : list A) : (0 < length l)%nat → l ≠ [].
Proof. intros Hl ->. simpl in Hl. lia. Qed.

(** The filters keep the length of their input. *)
Lemma lowpass_run (x : list R) (cutoff_hz : R) (sr : Z) :
  (0 < length x)%nat → 0 < cutoff_hz → (0 < sr)%Z →
  ∃ y, V1._apply_lowpass x cutoff_hz sr = Some y ∧ length y = length x.
Proof.
  intros Hx Hc Hsr.
  destruct (lowpass_total x cutoff_hz sr) as (y & Hy & Hlen & _);
    [by apply nonempty_length|done|done|]. by exists y.
Qed.

Lemma highpass_run (x : list R) (cutoff_hz : R) (sr : Z) :
  (0 < length x)%nat → 0 < cutoff_hz → (0 < sr)%Z →
  ∃ y, V1._apply_highpass x cutoff_hz sr = Some y ∧ length y = length x.
Proof.
  intros Hx Hc Hsr.
  destruct (highpass_total x cutoff_hz sr) as (y & Hy & Hlen & _);
    [by apply nonempty_length|done|done|]. by exists y.
Qed.

Lemma normalize_run {A} `{Frame A} (x : list A) (peak : R) :
  (0 < length x)%nat →
  ∃ y, V1._normalize_peak x peak = Some y ∧ length y = length x.
Proof. intros Hx. apply normalize_peak_ok. by apply nonempty_length. Qed.

Lemma fade_run {A} `{Frame A} (x : list A) (sr : Z) (fade_in_s fade_out_s : float)
    (fi fo : Z) :
  samples sr fade_in_s = Some fi →
  samples sr fade_out_s = Some fo →
  (fi <= Z.of_nat (length x))%Z →
  (fo <= Z.of_nat (length x))%Z →
  ∃ y, V1._fade x sr fade_in_s fade_out_s = Some y ∧ length y = length x.
Proof.
  intros Hfi Hfo H1 H2.
  destruct (fade_rows x sr fade_in_s fade_out_s fi fo Hfi Hfo H1 H2) as (y & Hy & Hlen & _).
  by exists y.
Qed.

Lemma comb_run (x : list R) (delay_ms : float) (feedback : R) (sr d : Z) :
  ms_samples sr delay_ms = Some d → (0 <= d)%Z → (0 < length x)%nat →
  ∃ out, V1._comb_filter x delay_ms feedback sr = Some out ∧ length out = length x.
Proof.
  intros Hms Hd Hx.
  destruct (comb_filter_total x delay_ms feedback sr d Hms Hd) as (y & out & _ & _ & Ho & Hl);
    [by apply nonempty_length|]. by exists out.
Qed.

(** The bell tone of the first script, for an attack that fits in the
    tone. *)
Lemma bell_tone_run (duration : float) (base_f : R) (sr n a d : Z) :
  samples sr duration = Some n →
  samples_r 0.005 sr = Some a →
  samples_r (duration * 0.9)%float sr = Some d →
  (0 <= a <= n)%Z →
  ∃ x, V1._bell_tone duration base_f sr = Some x ∧ length x = Z.to_nat n.
Proof.
  intros Hn Ha Hd Han. unfold V1._bell_tone. rewrite Hn. simpl.
  destruct (linspace_open_Some 0 (Py.to_R duration) n) as (t & -> & Hlt); [lia|]. simpl.
  destruct (envelope_ad_rows t 0.005 (duration * 0.9)%float sr a d Ha Hd)
    as (env & -> & Hle & _); [lia|]. simpl.
  destruct (inplace_rows Rmult (V1.partials_sum base_f t) env) as (x & Hx & Hlx & _).
  { rewrite partials_sum_length. lia. }
  exists x. split; [done|]. rewrite Hlx, partials_sum_length. lia.
Qed.

(** The bell tone of the second script, for an attack and a decay that fit
    in the tone. *)
Lemma bell_tone_v2_run (duration : float) (base_f : R) (sr n a d : Z) :
  samples sr duration = Some n →
  samples_r 0.005 sr = Some a →
  samples_r (duration * 0.9)%float sr = Some d →
  (0 <= a)%Z → (0 <= d)%Z → (a + d <= n)%Z →
  ∃ x, V2.bell_tone duration base_f sr = Some x ∧ length x = Z.to_nat n.
Proof.
  intros Hn Ha Hd Ha0 Hd0 Had. unfold V2.bell_tone. rewrite Hn. obind.
  destruct (linspace_open_Some 0 (Py.to_R duration) n) as (t & -> & Hlt); [lia|]. obind.
  rewrite Ha. obind. rewrite Hd. obind.
  replace (Z.min d (Z.of_nat (length t) - a)) with d by lia.
  rewrite (linspace_Some 0 1 a) by lia. obind.
  destruct (slice_update_rows (λ _ v : R, v) (replicate (length t) 1) None (Some a)
              (Py.linspace_at 0 1 a <$> seq 0 (Z.to_nat a)) 0 (Z.to_nat a))
    as (e1 & -> & Hl1 & _).
  { rewrite length_replicate. apply slice_range_head. lia. }
  { by rewrite length_fmap, length_seq. }
  { rewrite length_replicate. lia. }
  obind. rewrite length_replicate in Hl1.
  rewrite (linspace_Some 1 0.25 d) by lia. obind.
  destruct (slice_update_rows (λ _ v : R, v) e1 (Some a) (Some (a + d)%Z)
              (Py.linspace_at 1 0.25 d <$> seq 0 (Z.to_nat d)) (Z.to_nat a) (Z.to_nat d))
    as (e2 & -> & Hl2 & _).
  { rewrite slice_range_mid by lia. f_equal. f_equal. lia. }
  { by rewrite length_fmap, length_seq. }
  { lia. }
  obind.
  destruct (zip_arrays_same Rmult (V1.partials_sum base_f t) e2) as (x & Hx & Hlx & _).
  { rewrite partials_sum_length. lia. }
  exists x. split; [exact Hx|]. rewrite Hlx, partials_sum_length. lia.
Qed.

End building_blocks.

(** The delays of the taps of a recipe, each of 1 to [n] rows. *)
Ltac tap_delays :=
  let t := fresh "t" in let Ht := fresh "Ht" in
  intros t Ht;
  assert (t = 1 ∨ t = 2 ∨ t = 3 ∨ t = 4 ∨ t = 5)%Z
    as [->|[->|[->|[->| ->]]]] by lia;
  try lia; (eexists; split; [vm_compute; reflexivity | lia]).

Section v1_runs.
Local Open Scope R_scope.

Lemma sample_rate_pos : (0 < SAMPLE_RATE)%Z.
Proof. done. Qed.

Lemma v1_gale_run (duration : float) (n : Z) (s : Rng) :
  samples SAMPLE_RATE duration = Some n →
  (5292 <= n)%Z →
  ∃ out s', V1.sfx_gale duration s = Some (out, s') ∧ length out = Z.to_nat n.
Proof.
  intros Hn Hbig. pose proof sample_rate_pos as Hsr. unfold V1.sfx_gale.
  rewrite (bind_ok _ _ _ _ Hn).
  destruct (linspace_open_Some 0 (Py.to_R duration) n) as (t & Ht & Hlt); [lia|].
  rewrite (bind_ok _ _ _ _ Ht).
  destruct (uniform_run (-1) 1 n s) as (nz & s1 & Hnz & _ & Hlnz); [lia|].
  unfold V1._noise. rewrite (bind_run _ _ _ _ _ Hnz).
  destruct (lowpass_run nz 1200 SAMPLE_RATE) as (base & Hbase & Hlb); [lia|lra|done|].
  rewrite (bind_ok _ _ _ _ Hbase).
  destruct (zip_arrays_same Rplus (smul 0.6 (V1._sine 0.7 t)) (smul 0.4 (V1._sine 1.3 t)))
    as (whoosh & Hw & Hlw & _).
  { by rewrite !smul_length, !sine_length. }
  rewrite (bind_ok _ _ _ _ Hw). rewrite smul_length, sine_length in Hlw.
  destruct (zip_arrays_same Rmult base (sadd 0.4 (smul 0.6 (sadd 0.5 (smul 0.5 whoosh)))))
    as (x0 & Hx0 & Hlx0 & _).
  { rewrite !sadd_length, !smul_length, !sadd_length, !smul_length. lia. }
  rewrite (bind_ok _ _ _ _ Hx0).
  destruct (highpass_run x0 80 SAMPLE_RATE) as (x1 & Hx1 & Hlx1); [lia|lra|done|].
  rewrite (bind_ok _ _ _ _ Hx1).
  destruct (normalize_run x1 0.8) as (x2 & Hx2 & Hlx2); [lia|].
  rewrite (bind_ok _ _ _ _ Hx2).
  destruct (fade_run x2 SAMPLE_RATE 0.03 0.12 1323 5292) as (x3 & Hx3 & Hlx3);
    [reflexivity|reflexivity|lia|lia|].
  rewrite (bind_ok _ _ _ _ Hx3).
  destruct (lowpass_run x3 900 SAMPLE_RATE) as (r & Hr & Hlr); [lia|lra|done|].
  rewrite (bind_ok _ _ _ _ Hr).
  destruct (stack_same (smul 1.0 x3) r) as (st & Hst & Hlst & _).
  { rewrite smul_length. lia. }
  exists st, s1. split; [by apply ok_run|]. rewrite Hlst, smul_length. lia.
Qed.

(** One crackle: a Hann window of 661 samples added at a drawn position
    where it fits. *)
Lemma crackle_run (n : Z) (crackles : list R) (s : Rng) :
  valid s → (662 <= n)%Z → length crackles = Z.to_nat n →
  ∃ c' s', V1.crackle n crackles s = Some (c', s') ∧
           length c' = Z.to_nat n ∧ same_tapes s s'.
Proof.
  intros Hv Hn Hlen. unfold V1.crackle.
  rewrite (bind_ok _ 661%Z) by reflexivity.
  destruct (randint_run 0 (n - 661 - 1) s Hv) as (pos & s1 & Hpos & Hs1 & Hrange); [lia|].
  rewrite (bind_run _ _ _ _ _ Hpos).
  rewrite (bind_ok _ 661%Z) by reflexivity.
  destruct (random_run s1) as (r & s2 & Hr & Hs2 & _).
  rewrite (bind_run _ _ _ _ _ Hr).
  destruct (slice_update_rows Rplus crackles (Some pos) (Some (pos + 661)%Z)
              (smul (0.9 + 0.3 * r) (Py.hanning 661)) (Z.to_nat pos) 661)
    as (c' & Hc' & Hlc' & _).
  { rewrite slice_range_mid by lia. f_equal. lia. }
  { rewrite smul_length, hanning_length by lia. lia. }
  { lia. }
  exists c', s2. split; [by apply ok_run|]. split; [lia|].
  by apply (same_tapes_trans s s1 s2).
Qed.

Lemma crackles_run (n : Z) (crackles : list R) (s : Rng) :
  valid s → (662 <= n)%Z → length crackles = Z.to_nat n →
  ∃ c' s', for_each (Py.range 0 18) (λ _, V1.crackle n) crackles s = Some (c', s') ∧
           length c' = Z.to_nat n ∧ same_tapes s s'.
Proof.
  intros Hv Hn Hlen.
  destruct (for_each_draw_inv
    (λ _ c s', length c = Z.to_nat n ∧ same_tapes s s')
    (λ _, V1.crackle n) 0 18 crackles s) as (c' & s' & Hrun & Hl & Hs').
  - lia.
  - done.
  - intros i c s1 _ [Hl Hs1].
    destruct (crackle_run n c s1) as (c1 & s2 & Hc1 & Hl1 & Hs2);
      [by apply (same_tapes_valid s)|done|done|].
    exists c1, s2. split; [done|]. split; [done|]. by apply (same_tapes_trans s s1 s2).
  - by exists c', s'.
Qed.

Lemma v1_ember_run (duration : float) (n : Z) (s : Rng) :
  valid s →
  samples SAMPLE_RATE duration = Some n →
  (5953 <= n)%Z →
  ∃ out s', V1.sfx_ember duration s = Some (out, s') ∧ length out = Z.to_nat n.
Proof.
  intros Hv Hn Hbig. pose proof sample_rate_pos as Hsr. unfold V1.sfx_ember.
  rewrite (bind_ok _ _ _ _ Hn).
  destruct (linspace_open_Some 0 (Py.to_R duration) n) as (t & Ht & Hlt); [lia|].
  rewrite (bind_ok _ _ _ _ Ht).
  destruct (zip_arrays_same Rplus (smul 0.3 (V1._sine 65 t)) (smul 0.2 (V1._sine 130 t)))
    as (rumble & Hru & Hlru & _).
  { by rewrite !smul_length, !sine_length. }
  rewrite (bind_ok _ _ _ _ Hru). rewrite smul_length, sine_length in Hlru.
  destruct (uniform_run (-1) 1 n s) as (nz & s1 & Hnz & Hs1 & Hlnz); [lia|].
  unfold V1._noise. rewrite (bind_run _ _ _ _ _ Hnz).
  destruct (highpass_run (smul 0.4 nz) 3000 SAMPLE_RATE) as (fizz & Hfz & Hlfz);
    [rewrite smul_length; lia|lra|done|].
  rewrite (bind_ok _ _ _ _ Hfz). rewrite smul_length in Hlfz.
  destruct (zeros_run n) as (z & Hz & Hlz); [lia|].
  rewrite (bind_ok _ _ _ _ Hz).
  destruct (crackles_run n z s1) as (cr & s2 & Hcr & Hlcr & Hs2);
    [by apply (same_tapes_valid s)|lia|done|].
  rewrite (bind_run _ _ _ _ _ Hcr).
  destruct (zip_arrays_same Rplus rumble (smul 0.5 cr)) as (x0 & Hx0 & Hlx0 & _).
  { rewrite smul_length. lia. }
  rewrite (bind_ok _ _ _ _ Hx0).
  destruct (zip_arrays_same Rplus x0 (smul 0.25 fizz)) as (x1 & Hx1 & Hlx1 & _).
  { rewrite smul_length. lia. }
  rewrite (bind_ok _ _ _ _ Hx1).
  destruct (normalize_run x1 0.95) as (x2 & Hx2 & Hlx2); [lia|].
  rewrite (bind_ok _ _ _ _ Hx2).
  destruct (fade_run x2 SAMPLE_RATE 0.005 0.1 220 4410) as (x3 & Hx3 & Hlx3);
    [reflexivity|reflexivity|lia|lia|].
  rewrite (bind_ok _ _ _ _ Hx3).
  destruct (lowpass_run x3 2500 SAMPLE_RATE) as (r & Hr & Hlr); [lia|lra|done|].
  rewrite (bind_ok _ _ _ _ Hr).
  destruct (stack_same x3 r) as (st & Hst & Hlst & _); [lia|].
  rewrite (bind_ok _ _ _ _ Hst).
  destruct (reverb_run st SAMPLE_RATE 0.55 3 45 s2) as (y & out & s3 & _ & _ & Hout & _ & _ & _ & Hlo).
  { apply nonempty_length. lia. }
  { lia. }
  { rewrite Hlst, Hlx3, Hlx2, Hlx1, Hlx0, Hlru, Hlt. tap_delays. }
  exists out, s3. split; [done|]. lia.
Qed.

Lemma v1_ward_run (duration : float) (n d : Z) (s : Rng) :
  samples SAMPLE_RATE duration = Some n →
  samples_r (duration * 0.9)%float SAMPLE_RATE = Some d →
  (8820 <= n)%Z →
  ∃ out s', V1.sfx_ward duration s = Some (out, s') ∧ length out = Z.to_nat n ∧
            py_pos s' = (py_pos s + 4)%nat ∧ np_pos s' = np_pos s.
Proof.
  intros Hn Hd Hbig. pose proof sample_rate_pos as Hsr. unfold V1.sfx_ward.
  rewrite (bind_ok _ _ _ _ Hn).
  destruct (linspace_open_Some 0 (Py.to_R duration) n) as (t & Ht & Hlt); [lia|].
  rewrite (bind_ok _ _ _ _ Ht).
  destruct (bell_tone_run duration 520.0 SAMPLE_RATE n 220 d) as (hit & Hhit & Hlhit);
    [done|reflexivity|done|lia|].
  rewrite (bind_ok _ _ _ _ Hhit).
  destruct (comb_run hit 14.5 0.4 SAMPLE_RATE 639) as (metal & Hme & Hlme);
    [reflexivity|lia|lia|].
  rewrite (bind_ok _ _ _ _ Hme).
  destruct (zip_arrays_same Rplus (smul 0.6 hit) (smul 0.7 metal)) as (x0 & Hx0 & Hlx0 & _).
  { rewrite !smul_length. lia. }
  rewrite (bind_ok _ _ _ _ Hx0). rewrite smul_length in Hlx0.
  destruct (normalize_run x0 0.9) as (x1 & Hx1 & Hlx1); [lia|].
  rewrite (bind_ok _ _ _ _ Hx1).
  destruct (fade_run x1 SAMPLE_RATE 0.002 0.2 88 8820) as (x2 & Hx2 & Hlx2);
    [reflexivity|reflexivity|lia|lia|].
  rewrite (bind_ok _ _ _ _ Hx2).
  destruct (stack_same x2 x2) as (st & Hst & Hlst & _); [lia|].
  rewrite (bind_ok _ _ _ _ Hst).
  destruct (reverb_run st SAMPLE_RATE 0.6 4 30 s)
    as (y & out & s3 & _ & _ & Hout & _ & Hpy & Hnp & Hlo).
  { apply nonempty_length. lia. }
  { lia. }
  { rewrite Hlst, Hlx2, Hlx1, Hlx0, Hlhit. tap_delays. }
  exists out, s3. split; [done|]. split; [lia|]. split; [|done].
  rewrite Hpy. f_equal.
Qed.

Lemma v1_snare_run (duration : float) (n : Z) (s : Rng) :
  samples SAMPLE_RATE duration = Some n →
  (11025 <= n)%Z →
  ∃ out s', V1.sfx_snare duration s = Some (out, s') ∧ length out = Z.to_nat n.
Proof.
  intros Hn Hbig. pose proof sample_rate_pos as Hsr. unfold V1.sfx_snare.
  rewrite (bind_ok _ _ _ _ Hn).
  destruct (linspace_open_Some 0 (Py.to_R duration) n) as (t & Ht & Hlt); [lia|].
  rewrite (bind_ok _ _ _ _ Ht).
  destruct (zeros_run n) as (z & Hz & Hlz); [lia|].
  rewrite (bind_ok _ _ _ _ Hz).
  rewrite (bind_ok _ 1764%Z) by reflexivity.
  destruct (slice_update_rows (λ _ v : R, v) z None (Some 1764%Z)
              (smul 1.0 (Py.hanning 1764)) 0 1764) as (c0 & Hc0 & Hlc0 & _).
  { rewrite slice_range_head by lia. f_equal. }
  { rewrite smul_length, hanning_length by lia. lia. }
  { lia. }
  rewrite (bind_ok _ _ _ _ Hc0).
  destruct (highpass_run c0 1200 SAMPLE_RATE) as (clank & Hcl & Hlcl); [lia|lra|done|].
  rewrite (bind_ok _ _ _ _ Hcl).
  destruct (comb_run (smul 0.6 clank) 11 0.5 SAMPLE_RATE 485) as (tail & Hta & Hlta);
    [reflexivity|lia|rewrite smul_length; lia|].
  rewrite (bind_ok _ _ _ _ Hta). rewrite smul_length in Hlta.
  destruct (zip_arrays_same Rplus (smul 0.8 clank) (smul 0.6 tail)) as (x0 & Hx0 & Hlx0 & _).
  { rewrite !smul_length. lia. }
  rewrite (bind_ok _ _ _ _ Hx0). rewrite smul_length in Hlx0.
  destruct (normalize_run x0 0.95) as (x1 & Hx1 & Hlx1); [lia|].
  rewrite (bind_ok _ _ _ _ Hx1).
  destruct (fade_run x1 SAMPLE_RATE 0.0 0.25 0 11025) as (x2 & Hx2 & Hlx2);
    [reflexivity|reflexivity|lia|lia|].
  rewrite (bind_ok _ _ _ _ Hx2).
  destruct (lowpass_run x2 3500 SAMPLE_RATE) as (r & Hr & Hlr); [lia|lra|done|].
  rewrite (bind_ok _ _ _ _ Hr).
  destruct (stack_same x2 r) as (st & Hst & Hlst & _); [lia|].
  rewrite (bind_ok _ _ _ _ Hst).
  destruct (reverb_run st SAMPLE_RATE 0.45 3 25 s) as (y & out & s3 & _ & _ & Hout & _ & _ & _ & Hlo).
  { apply nonempty_length. lia. }
  { lia. }
  { rewrite Hlst, Hlx2, Hlx1, Hlx0, Hlcl, Hlc0, Hlz. tap_delays. }
  exists out, s3. split; [done|]. lia.
Qed.

Lemma v1_soothe_run (duration : float) (n d : Z) (s : Rng) :
  samples SAMPLE_RATE duration = Some n →
  samples_r (duration * 0.9)%float SAMPLE_RATE = Some d →
  (15434 <= n)%Z →
  ∃ out s', V1.sfx_soothe duration s = Some (out, s') ∧ length out = Z.to_nat n.
Proof.
  intros Hn Hd Hbig. pose proof sample_rate_pos as Hsr. unfold V1.sfx_soothe.
  destruct (bell_tone_run duration 740.0 SAMPLE_RATE n 220 d) as (bell & Hbell & Hlbell);
    [done|reflexivity|done|lia|].
  rewrite (bind_ok _ _ _ _ Hbell).
  destruct (uniform_run (-1) 1 (Z.of_nat (length bell)) s) as (nz & s1 & Hnz & Hs1 & Hlnz);
    [lia|].
  unfold V1._noise. rewrite (bind_run _ _ _ _ _ Hnz).
  destruct (highpass_run (smul 0.2 nz) 6000 SAMPLE_RATE) as (sh & Hsh & Hlsh);
    [rewrite smul_length; lia|lra|done|].
  rewrite (bind_ok _ _ _ _ Hsh). rewrite smul_length in Hlsh.
  destruct (zip_arrays_same Rplus (smul 0.85 bell) (smul 0.2 sh)) as (x0 & Hx0 & Hlx0 & _).
  { rewrite !smul_length. lia. }
  rewrite (bind_ok _ _ _ _ Hx0). rewrite smul_length in Hlx0.
  destruct (normalize_run x0 0.9) as (x1 & Hx1 & Hlx1); [lia|].
  rewrite (bind_ok _ _ _ _ Hx1).
  destruct (fade_run x1 SAMPLE_RATE 0.01 0.35 441 15434) as (x2 & Hx2 & Hlx2);
    [reflexivity|reflexivity|lia|lia|].
  rewrite (bind_ok _ _ _ _ Hx2).
  destruct (stack_same x2 (smul 0.95 x2)) as (st & Hst & Hlst & _);
    [by rewrite smul_length|].
  rewrite (bind_ok _ _ _ _ Hst).
  destruct (reverb_run st SAMPLE_RATE 0.65 4 55 s1) as (y & out & s3 & _ & _ & Hout & _ & _ & _ & Hlo).
  { apply nonempty_length. lia. }
  { lia. }
  { rewrite Hlst, Hlx2, Hlx1, Hlx0, Hlbell. tap_delays. }
  exists out, s3. split; [done|]. lia.
Qed.

Lemma v1_void_run (duration : float) (n : Z) (s : Rng) :
  samples SAMPLE_RATE duration = Some n →
  (12348 <= n)%Z →
  ∃ out s', V1.sfx_void duration s = Some (out, s') ∧ length out = Z.to_nat n.
Proof.
  intros Hn Hbig. pose proof sample_rate_pos as Hsr. unfold V1.sfx_void.
  rewrite (bind_ok _ _ _ _ Hn).
  destruct (linspace_open_Some 0 (Py.to_R duration) n) as (t & Ht & Hlt); [lia|].
  rewrite (bind_ok _ _ _ _ Ht).
  destruct (zip_arrays_same Rplus (smul 0.7 (V1._sine 40 t)) (smul 0.4 (V1._sine 80 t)))
    as (sub & Hsub & Hlsub & _).
  { by rewrite !smul_length, !sine_length. }
  rewrite (bind_ok _ _ _ _ Hsub). rewrite smul_length, sine_length in Hlsub.
  destruct (uniform_run (-1) 1 n s) as (nz & s1 & Hnz & Hs1 & Hlnz); [lia|].
  unfold V1._noise. rewrite (bind_run _ _ _ _ _ Hnz).
  destruct (lowpass_run (smul 0.3 nz) 1200 SAMPLE_RATE) as (tex & Htex & Hltex);
    [rewrite smul_length; lia|lra|done|].
  rewrite (bind_ok _ _ _ _ Htex). rewrite smul_length in Hltex.
  destruct (linspace_run 0 1 n) as (ramp & Hramp & Hlramp); [lia|].
  rewrite (bind_ok _ _ _ _ Hramp).
  set (swell := (λ s0, Py.clip 0 1 (Py.pow s0 2.2)) <$> ramp).
  assert (length swell = Z.to_nat n) as Hlsw by (unfold swell; rewrite length_fmap; lia).
  destruct (zip_arrays_same Rmult sub (sadd 0.6 (smul 0.4 swell))) as (a & Ha & Hla & _).
  { rewrite sadd_length, smul_length. lia. }
  rewrite (bind_ok _ _ _ _ Ha).
  destruct (zip_arrays_same Rmult (smul 0.3 tex) ((λ s0, 1.0 - s0 * 0.5) <$> swell))
    as (b & Hb & Hlb & _).
  { rewrite smul_length, length_fmap. lia. }
  rewrite (bind_ok _ _ _ _ Hb). rewrite smul_length in Hlb.
  destruct (zip_arrays_same Rplus a b) as (x0 & Hx0 & Hlx0 & _); [lia|].
  rewrite (bind_ok _ _ _ _ Hx0).
  destruct (normalize_run x0 0.9) as (x1 & Hx1 & Hlx1); [lia|].
  rewrite (bind_ok _ _ _ _ Hx1).
  destruct (fade_run x1 SAMPLE_RATE 0.03 0.2 1323 8820) as (x2 & Hx2 & Hlx2);
    [reflexivity|reflexivity|lia|lia|].
  rewrite (bind_ok _ _ _ _ Hx2).
  destruct (stack_same (smul 0.95 x2) x2) as (st & Hst & Hlst & _);
    [by rewrite smul_length|].
  rewrite (bind_ok _ _ _ _ Hst). rewrite smul_length in Hlst.
  destruct (reverb_run st SAMPLE_RATE 0.55 4 70 s1) as (y & out & s3 & _ & _ & Hout & _ & _ & _ & Hlo).
  { apply nonempty_length. lia. }
  { lia. }
  { rewrite Hlst, Hlx2, Hlx1, Hlx0, Hla, Hlsub, Hlt. tap_delays. }
  exists out, s3. split; [done|]. lia.
Qed.

Lemma v1_aegis_run (duration : float) (n d : Z) (s : Rng) :
  samples SAMPLE_RATE duration = Some n →
  samples_r (duration * 0.9)%float SAMPLE_RATE = Some d →
  (15434 <= n)%Z →
  ∃ out s', V1.sfx_aegis duration s = Some (out, s') ∧ length out = Z.to_nat n.
Proof.
  intros Hn Hd Hbig. pose proof sample_rate_pos as Hsr. unfold V1.sfx_aegis.
  rewrite (bind_ok _ _ _ _ Hn).
  destruct (linspace_open_Some 0 (Py.to_R duration) n) as (t & Ht & Hlt); [lia|].
  rewrite (bind_ok _ _ _ _ Ht).
  destruct (linspace_run 0.2 1.0 n) as (ramp & Hramp & Hlramp); [lia|].
  rewrite (bind_ok _ _ _ _ Hramp).
  destruct (zip_arrays_same Rmult (V1._sine 320 t) ramp) as (riser & Hri & Hlri & _).
  { rewrite sine_length. lia. }
  rewrite (bind_ok _ _ _ _ Hri). rewrite sine_length in Hlri.
  destruct (bell_tone_run duration 880.0 SAMPLE_RATE n 220 d) as (bell & Hbell & Hlbell);
    [done|reflexivity|done|lia|].
  rewrite (bind_ok _ _ _ _ Hbell).
  destruct (uniform_run (-1) 1 n s) as (nz & s1 & Hnz & Hs1 & Hlnz); [lia|].
  unfold V1._noise. rewrite (bind_run _ _ _ _ _ Hnz).
  destruct (highpass_run (smul 0.2 nz) 7000 SAMPLE_RATE) as (sp & Hsp & Hlsp);
    [rewrite smul_length; lia|lra|done|].
  rewrite (bind_ok _ _ _ _ Hsp). rewrite smul_length in Hlsp.
  destruct (zip_arrays_same Rplus (smul 0.6 riser) (smul 0.7 bell)) as (x0 & Hx0 & Hlx0 & _).
  { rewrite !smul_length. lia. }
  rewrite (bind_ok _ _ _ _ Hx0). rewrite smul_length in Hlx0.
  destruct (zip_arrays_same Rplus x0 (smul 0.18 sp)) as (x1 & Hx1 & Hlx1 & _).
  { rewrite smul_length. lia. }
  rewrite (bind_ok _ _ _ _ Hx1).
  destruct (normalize_run x1 0.92) as (x2 & Hx2 & Hlx2); [lia|].
  rewrite (bind_ok _ _ _ _ Hx2).
  destruct (fade_run x2 SAMPLE_RATE 0.005 0.35 220 15434) as (x3 & Hx3 & Hlx3);
    [reflexivity|reflexivity|lia|lia|].
  rewrite (bind_ok _ _ _ _ Hx3).
  destruct (stack_same x3 x3) as (st & Hst & Hlst & _); [lia|].
  rewrite (bind_ok _ _ _ _ Hst).
  destruct (reverb_run st SAMPLE_RATE 0.6 5 35 s1) as (y & out & s3 & _ & _ & Hout & _ & _ & _ & Hlo).
  { apply nonempty_length. lia. }
  { lia. }
  { rewrite Hlst, Hlx3, Hlx2, Hlx1, Hlx0, Hlri, Hlt. tap_delays. }
  exists out, s3. split; [done|]. lia.
Qed.

(** Every recipe of the first script renders, at its configured duration,
    a stereo buffer of [round(duration * 44100)] rows. *)
Lemma v1_render_run (name : glyph) (s : Rng) :
  valid s →
  ∃ out s' n, V1.render name s = Some (out, s') ∧
              samples SAMPLE_RATE (DURATION_S name) = Some n ∧
              length out = Z.to_nat n.
Proof.
  intros Hv. unfold V1.render. destruct name; cbv [V1.GENERATORS DURATION_S].
  - destruct (v1_gale_run 0.9 39690 s) as (out & s' & H1 & H2); [reflexivity|lia|].
    exists out, s', 39690%Z. split; [exact H1|]. split; [reflexivity|exact H2].
  - destruct (v1_ember_run 0.9 39690 s) as (out & s' & H1 & H2); [done|reflexivity|lia|].
    exists out, s', 39690%Z. split; [exact H1|]. split; [reflexivity|exact H2].
  - destruct (v1_ward_run 0.9 39690 35721 s) as (out & s' & H1 & H2 & _);
      [reflexivity|reflexivity|lia|].
    exists out, s', 39690%Z. split; [exact H1|]. split; [reflexivity|exact H2].
  - destruct (v1_snare_run 0.6 26460 s) as (out & s' & H1 & H2); [reflexivity|lia|].
    exists out, s', 26460%Z. split; [exact H1|]. split; [reflexivity|exact H2].
  - destruct (v1_soothe_run 1.1 48510 43659 s) as (out & s' & H1 & H2);
      [reflexivity|reflexivity|lia|].
    exists out, s', 48510%Z. split; [exact H1|]. split; [reflexivity|exact H2].
  - destruct (v1_void_run 1.0 44100 s) as (out & s' & H1 & H2); [reflexivity|lia|].
    exists out, s', 44100%Z. split; [exact H1|]. split; [reflexivity|exact H2].
  - destruct (v1_aegis_run 1.1 48510 43659 s) as (out & s' & H1 & H2);
      [reflexivity|reflexivity|lia|].
    exists out, s', 48510%Z. split; [exact H1|]. split; [reflexivity|exact H2].
Qed.

End v1_runs.

Section v2_runs.
Local Open Scope R_scope.

Lemma lowpass_v2_run (x : list R) (cutoff_hz : R) (sr : Z) :
  (0 < length x)%nat → 0 < cutoff_hz → (0 < sr)%Z →
  ∃ y, V2.lowpass x cutoff_hz sr = Some y ∧ length y = length x.
Proof. exact (lowpass_run x cutoff_hz sr). Qed.

Lemma highpass_v2_run (x : list R) (cutoff_hz : R) (sr : Z) :
  (0 < length x)%nat → 0 < cutoff_hz → (0 < sr)%Z →
  ∃ y, V2.highpass x cutoff_hz sr = Some y ∧ length y = length x.
Proof. exact (highpass_run x cutoff_hz sr). Qed.

Lemma normalize_v2_run (x : list R) (peak : R) :
  (0 < length x)%nat →
  ∃ y, V2.normalize_peak x peak = Some y ∧ length y = length x.
Proof. exact (normalize_run x peak). Qed.

Lemma fade_v2_run (x : list (R * R)) (sr : Z) (fi_s fo_s : float) (fi fo : Z) :
  samples sr fi_s = Some fi →
  samples sr fo_s = Some fo →
  (fi <= Z.of_nat (length x))%Z →
  (fo <= Z.of_nat (length x))%Z →
  ∃ y, V2.fade x sr fi_s fo_s = Some y ∧ length y = length x.
Proof. exact (fade_run x sr fi_s fo_s fi fo). Qed.

Lemma comb_v2_run (x : list R) (delay_ms : float) (feedback : R) (sr d : Z) :
  ms_samples sr delay_ms = Some d → (0 <= d)%Z → (0 < length x)%nat →
  ∃ out, V2.comb_filter x delay_ms feedback sr = Some out ∧ length out = length x.
Proof. exact (comb_run x delay_ms feedback sr d). Qed.

Lemma reverb_v2_run (st : list (R * R)) (sr : Z) (decay : R) (taps : Z)
    (base_ms : float) (s : Rng) :
  (0 < length st)%nat →
  (0 <= taps)%Z →
  (∀ t, (1 <= t <= taps)%Z →
        ∃ delay, V1.tap_delay sr base_ms t = Some delay ∧
                 (1 <= delay <= Z.of_nat (length st))%Z) →
  ∃ out s', V2.reverb_simple st sr decay taps base_ms s = Some (out, s') ∧
            same_tapes s s' ∧ length out = length st.
Proof.
  intros Hne Hn Htaps.
  destruct (reverb_run st sr decay taps base_ms s) as (y & out & s' & _ & _ & H1 & H2 & _ & _ & H3);
    [by apply nonempty_length|done|done|].
  exists out, s'. split; [exact H1|done].
Qed.

Lemma crackles_v2_run (n : Z) (crackles : list R) (s : Rng) :
  valid s → (662 <= n)%Z → length crackles = Z.to_nat n →
  ∃ c' s', for_each (Py.range 0 18) (λ _, V2.crackle n) crackles s = Some (c', s') ∧
           length c' = Z.to_nat n ∧ same_tapes s s'.
Proof. exact (crackles_run n crackles s). Qed.

Lemma sine_v2_length (f : R) (t : list R) : length (V2.sine f t) = length t.
Proof. apply length_fmap. Qed.

Lemma v2_gale_run (d : float) (n : Z) (s : Rng) :
  samples SAMPLE_RATE d = Some n →
  (5292 <= n)%Z →
  ∃ out s', V2.sfx_gale d s = Some (out, s') ∧ length out = Z.to_nat n.
Proof.
  intros Hn Hbig. pose proof sample_rate_pos as Hsr. unfold V2.sfx_gale.
  rewrite (bind_ok _ _ _ _ Hn).
  destruct (linspace_open_Some 0 (Py.to_R d) n) as (t & Ht & Hlt); [lia|].
  rewrite (bind_ok _ _ _ _ Ht).
  destruct (uniform_run (-1) 1 n s) as (nz & s1 & Hnz & _ & Hlnz); [lia|].
  unfold V2.noise. rewrite (bind_run _ _ _ _ _ Hnz).
  destruct (lowpass_v2_run nz 1200 SAMPLE_RATE) as (base & Hbase & Hlb); [lia|lra|done|].
  rewrite (bind_ok _ _ _ _ Hbase).
  destruct (zip_arrays_same Rplus (smul 0.6 (V2.sine 0.7 t)) (smul 0.4 (V2.sine 1.3 t)))
    as (whoosh & Hw & Hlw & _).
  { by rewrite !smul_length, !sine_v2_length. }
  rewrite (bind_ok _ _ _ _ Hw). rewrite smul_length, sine_v2_length in Hlw.
  destruct (zip_arrays_same Rmult base (sadd 0.4 (smul 0.6 (sadd 0.5 (smul 0.5 whoosh)))))
    as (x0 & Hx0 & Hlx0 & _).
  { rewrite !sadd_length, !smul_length, !sadd_length, !smul_length. lia. }
  rewrite (bind_ok _ _ _ _ Hx0).
  destruct (highpass_v2_run x0 80 SAMPLE_RATE) as (x1 & Hx1 & Hlx1); [lia|lra|done|].
  rewrite (bind_ok _ _ _ _ Hx1).
  destruct (normalize_v2_run x1 0.8) as (x2 & Hx2 & Hlx2); [lia|].
  rewrite (bind_ok _ _ _ _ Hx2).
  destruct (lowpass_v2_run x2 900 SAMPLE_RATE) as (r & Hr & Hlr); [lia|lra|done|].
  rewrite (bind_ok _ _ _ _ Hr).
  destruct (stack_same x2 r) as (st & Hst & Hlst & _); [lia|].
  rewrite (bind_ok _ _ _ _ Hst).
  destruct (fade_v2_run st SAMPLE_RATE 0.03 0.12 1323 5292) as (out & Hout & Hlout);
    [reflexivity|reflexivity|lia|lia|].
  exists out, s1. split; [by apply ok_run|]. lia.
Qed.

Lemma v2_ember_run (d : float) (n : Z) (s : Rng) :
  valid s →
  samples SAMPLE_RATE d = Some n →
  (5953 <= n)%Z →
  ∃ out s', V2.sfx_ember d s = Some (out, s') ∧ length out = Z.to_nat n.
Proof.
  intros Hv Hn Hbig. pose proof sample_rate_pos as Hsr. unfold V2.sfx_ember.
  rewrite (bind_ok _ _ _ _ Hn).
  destruct (linspace_open_Some 0 (Py.to_R d) n) as (t & Ht & Hlt); [lia|].
  rewrite (bind_ok _ _ _ _ Ht).
  destruct (zip_arrays_same Rplus (smul 0.3 (V2.sine 65 t)) (smul 0.2 (V2.sine 130 t)))
    as (rumble & Hru & Hlru & _).
  { by rewrite !smul_length, !sine_v2_length. }
  rewrite (bind_ok _ _ _ _ Hru). rewrite smul_length, sine_v2_length in Hlru.
  destruct (uniform_run (-1) 1 n s) as (nz & s1 & Hnz & Hs1 & Hlnz); [lia|].
  unfold V2.noise. rewrite (bind_run _ _ _ _ _ Hnz).
  destruct (highpass_v2_run (smul 0.4 nz) 3000 SAMPLE_RATE) as (fizz & Hfz & Hlfz);
    [rewrite smul_length; lia|lra|done|].
  rewrite (bind_ok _ _ _ _ Hfz). rewrite smul_length in Hlfz.
  destruct (zeros_run n) as (z & Hz & Hlz); [lia|].
  rewrite (bind_ok _ _ _ _ Hz).
  destruct (crackles_v2_run n z s1) as (cr & s2 & Hcr & Hlcr & Hs2);
    [by apply (same_tapes_valid s)|lia|done|].
  rewrite (bind_run _ _ _ _ _ Hcr).
  destruct (zip_arrays_same Rplus rumble (smul 0.5 cr)) as (x0 & Hx0 & Hlx0 & _).
  { rewrite smul_length. lia. }
  rewrite (bind_ok _ _ _ _ Hx0).
  destruct (zip_arrays_same Rplus x0 (smul 0.25 fizz)) as (x1 & Hx1 & Hlx1 & _).
  { rewrite smul_length. lia. }
  rewrite (bind_ok _ _ _ _ Hx1).
  destruct (normalize_v2_run x1 0.95) as (x2 & Hx2 & Hlx2); [lia|].
  rewrite (bind_ok _ _ _ _ Hx2).
  destruct (lowpass_v2_run x2 2500 SAMPLE_RATE) as (r & Hr & Hlr); [lia|lra|done|].
  rewrite (bind_ok _ _ _ _ Hr).
  destruct (stack_same x2 r) as (st & Hst & Hlst & _); [lia|].
  rewrite (bind_ok _ _ _ _ Hst).
  destruct (reverb_v2_run st SAMPLE_RATE 0.55 3 45 s2) as (wet & s3 & Hwet & _ & Hlwet).
  { lia. }
  { lia. }
  { rewrite Hlst, Hlx2, Hlx1, Hlx0, Hlru, Hlt. tap_delays. }
  rewrite (bind_run _ _ _ _ _ Hwet).
  destruct (fade_v2_run wet SAMPLE_RATE 0.005 0.1 220 4410) as (out & Hout & Hlout);
    [reflexivity|reflexivity|lia|lia|].
  exists out, s3. split; [by apply ok_run|]. lia.
Qed.

Lemma v2_ward_run (d : float) (n dd : Z) (s : Rng) :
  samples SAMPLE_RATE d = Some n →
  samples_r (d * 0.9)%float SAMPLE_RATE = Some dd →
  (0 <= dd)%Z → (220 + dd <= n)%Z →
  (8820 <= n)%Z →
  ∃ out s', V2.sfx_ward d s = Some (out, s') ∧ length out = Z.to_nat n.
Proof.
  intros Hn Hd Hd0 Hfit Hbig. pose proof sample_rate_pos as Hsr. unfold V2.sfx_ward.
  destruct (bell_tone_v2_run d 520.0 SAMPLE_RATE n 220 dd) as (hit & Hhit & Hlhit);
    [done|reflexivity|done|lia|lia|lia|].
  rewrite (bind_ok _ _ _ _ Hhit).
  destruct (comb_v2_run hit 14.5 0.4 SAMPLE_RATE 639) as (metal & Hme & Hlme);
    [reflexivity|lia|lia|].
  rewrite (bind_ok _ _ _ _ Hme).
  destruct (zip_arrays_same Rplus (smul 0.6 hit) (smul 0.7 metal)) as (x0 & Hx0 & Hlx0 & _).
  { rewrite !smul_length. lia. }
  rewrite (bind_ok _ _ _ _ Hx0). rewrite smul_length in Hlx0.
  destruct (normalize_v2_run x0 0.9) as (x1 & Hx1 & Hlx1); [lia|].
  rewrite (bind_ok _ _ _ _ Hx1).
  destruct (stack_same x1 x1) as (st & Hst & Hlst & _); [lia|].
  rewrite (bind_ok _ _ _ _ Hst).
  destruct (reverb_v2_run st SAMPLE_RATE 0.6 4 30 s) as (wet & s3 & Hwet & _ & Hlwet).
  { lia. }
  { lia. }
  { rewrite Hlst, Hlx1, Hlx0, Hlhit. tap_delays. }
  rewrite (bind_run _ _ _ _ _ Hwet).
  destruct (fade_v2_run wet SAMPLE_RATE 0.002 0.2 88 8820) as (out & Hout & Hlout);
    [reflexivity|reflexivity|lia|lia|].
  exists out, s3. split; [by apply ok_run|]. lia.
Qed.

Lemma v2_snare_run (d : float) (n : Z) (s : Rng) :
  samples SAMPLE_RATE d = Some n →
  (11025 <= n)%Z →
  ∃ out s', V2.sfx_snare d s = Some (out, s') ∧ length out = Z.to_nat n.
Proof.
  intros Hn Hbig. pose proof sample_rate_pos as Hsr. unfold V2.sfx_snare.
  rewrite (bind_ok _ _ _ _ Hn).
  destruct (zeros_run n) as (z & Hz & Hlz); [lia|].
  rewrite (bind_ok _ _ _ _ Hz).
  rewrite (bind_ok _ 1764%Z) by reflexivity.
  destruct (slice_update_rows (λ _ v : R, v) z None (Some 1764%Z)
              (smul 1.0 (Py.hanning 1764)) 0 1764) as (c0 & Hc0 & Hlc0 & _).
  { rewrite slice_range_head by lia. f_equal. }
  { rewrite smul_length, hanning_length by lia. lia. }
  { lia. }
  rewrite (bind_ok _ _ _ _ Hc0).
  destruct (highpass_v2_run c0 1200 SAMPLE_RATE) as (clank & Hcl & Hlcl); [lia|lra|done|].
  rewrite (bind_ok _ _ _ _ Hcl).
  destruct (comb_v2_run (smul 0.6 clank) 11 0.5 SAMPLE_RATE 485) as (tail & Hta & Hlta);
    [reflexivity|lia|rewrite smul_length; lia|].
  rewrite (bind_ok _ _ _ _ Hta). rewrite smul_length in Hlta.
  destruct (zip_arrays_same Rplus (smul 0.8 clank) (smul 0.6 tail)) as (x0 & Hx0 & Hlx0 & _).
  { rewrite !smul_length. lia. }
  rewrite (bind_ok _ _ _ _ Hx0). rewrite smul_length in Hlx0.
  destruct (normalize_v2_run x0 0.95) as (x1 & Hx1 & Hlx1); [lia|].
  rewrite (bind_ok _ _ _ _ Hx1).
  destruct (lowpass_v2_run x1 3500 SAMPLE_RATE) as (r & Hr & Hlr); [lia|lra|done|].
  rewrite (bind_ok _ _ _ _ Hr).
  destruct (stack_same x1 r) as (st & Hst & Hlst & _); [lia|].
  rewrite (bind_ok _ _ _ _ Hst).
  destruct (reverb_v2_run st SAMPLE_RATE 0.45 3 25 s) as (wet & s3 & Hwet & _ & Hlwet).
  { lia. }
  { lia. }
  { rewrite Hlst, Hlx1, Hlx0, Hlcl, Hlc0, Hlz. tap_delays. }
  rewrite (bind_run _ _ _ _ _ Hwet).
  destruct (fade_v2_run wet SAMPLE_RATE 0.0 0.25 0 11025) as (out & Hout & Hlout);
    [reflexivity|reflexivity|lia|lia|].
  exists out, s3. split; [by apply ok_run|]. lia.
Qed.

Lemma v2_soothe_run (d : float) (n dd : Z) (s : Rng) :
  samples SAMPLE_RATE d = Some n →
  samples_r (d * 0.9)%float SAMPLE_RATE = Some dd →
  (0 <= dd)%Z → (220 + dd <= n)%Z →
  (15434 <= n)%Z →
  ∃ out s', V2.sfx_soothe d s = Some (out, s') ∧ length out = Z.to_nat n.
Proof.
  intros Hn Hd Hd0 Hfit Hbig. pose proof sample_rate_pos as Hsr. unfold V2.sfx_soothe.
  destruct (bell_tone_v2_run d 740.0 SAMPLE_RATE n 220 dd) as (bell & Hbell & Hlbell);
    [done|reflexivity|done|lia|lia|lia|].
  rewrite (bind_ok _ _ _ _ Hbell).
  destruct (uniform_run (-1) 1 (Z.of_nat (length bell)) s) as (nz & s1 & Hnz & Hs1 & Hlnz);
    [lia|].
  unfold V2.noise. rewrite (bind_run _ _ _ _ _ Hnz).
  destruct (highpass_v2_run (smul 0.2 nz) 6000 SAMPLE_RATE) as (sh & Hsh & Hlsh);
    [rewrite smul_length; lia|lra|done|].
  rewrite (bind_ok _ _ _ _ Hsh). rewrite smul_length in Hlsh.
  destruct (zip_arrays_same Rplus (smul 0.85 bell) (smul 0.2 sh)) as (x0 & Hx0 & Hlx0 & _).
  { rewrite !smul_length. lia. }
  rewrite (bind_ok _ _ _ _ Hx0). rewrite smul_length in Hlx0.
  destruct (normalize_v2_run x0 0.9) as (x1 & Hx1 & Hlx1); [lia|].
  rewrite (bind_ok _ _ _ _ Hx1).
  destruct (stack_same x1 (smul 0.95 x1)) as (st & Hst & Hlst & _);
    [by rewrite smul_length|].
  rewrite (bind_ok _ _ _ _ Hst).
  destruct (reverb_v2_run st SAMPLE_RATE 0.65 4 55 s1) as (wet & s3 & Hwet & _ & Hlwet).
  { lia. }
  { lia. }
  { rewrite Hlst, Hlx1, Hlx0, Hlbell. tap_delays. }
  rewrite (bind_run _ _ _ _ _ Hwet).
  destruct (fade_v2_run wet SAMPLE_RATE 0.01 0.35 441 15434) as (out & Hout & Hlout);
    [reflexivity|reflexivity|lia|lia|].
  exists out, s3. split; [by apply ok_run|]. lia.
Qed.

Lemma v2_void_run (d : float) (n : Z) (s : Rng) :
  samples SAMPLE_RATE d = Some n →
  (12348 <= n)%Z →
  ∃ out s', V2.sfx_void d s = Some (out, s') ∧ length out = Z.to_nat n.
Proof.
  intros Hn Hbig. pose proof sample_rate_pos as Hsr. unfold V2.sfx_void.
  rewrite (bind_ok _ _ _ _ Hn).
  destruct (linspace_open_Some 0 (Py.to_R d) n) as (t & Ht & Hlt); [lia|].
  rewrite (bind_ok _ _ _ _ Ht).
  destruct (zip_arrays_same Rplus (smul 0.7 (V2.sine 40 t)) (smul 0.4 (V2.sine 80 t)))
    as (sub & Hsub & Hlsub & _).
  { by rewrite !smul_length, !sine_v2_length. }
  rewrite (bind_ok _ _ _ _ Hsub). rewrite smul_length, sine_v2_length in Hlsub.
  destruct (uniform_run (-1) 1 n s) as (nz & s1 & Hnz & Hs1 & Hlnz); [lia|].
  unfold V2.noise. rewrite (bind_run _ _ _ _ _ Hnz).
  destruct (lowpass_v2_run (smul 0.3 nz) 1200 SAMPLE_RATE) as (tex & Htex & Hltex);
    [rewrite smul_length; lia|lra|done|].
  rewrite (bind_ok _ _ _ _ Htex). rewrite smul_length in Hltex.
  destruct (linspace_run 0 1 n) as (ramp & Hramp & Hlramp); [lia|].
  rewrite (bind_ok _ _ _ _ Hramp).
  set (swell := (λ s0, Py.clip 0 1 (Py.pow s0 2.2)) <$> ramp).
  assert (length swell = Z.to_nat n) as Hlsw by (unfold swell; rewrite length_fmap; lia).
  destruct (zip_arrays_same Rmult sub (sadd 0.6 (smul 0.4 swell))) as (a & Ha & Hla & _).
  { rewrite sadd_length, smul_length. lia. }
  rewrite (bind_ok _ _ _ _ Ha).
  destruct (zip_arrays_same Rmult (smul 0.3 tex) ((λ s0, 1.0 - s0 * 0.5) <$> swell))
    as (b & Hb & Hlb & _).
  { rewrite smul_length, length_fmap. lia. }
  rewrite (bind_ok _ _ _ _ Hb). rewrite smul_length in Hlb.
  destruct (zip_arrays_same Rplus a b) as (x0 & Hx0 & Hlx0 & _); [lia|].
  rewrite (bind_ok _ _ _ _ Hx0).
  destruct (normalize_v2_run x0 0.9) as (x1 & Hx1 & Hlx1); [lia|].
  rewrite (bind_ok _ _ _ _ Hx1).
  destruct (stack_same (smul 0.95 x1) x1) as (st & Hst & Hlst & _);
    [by rewrite smul_length|].
  rewrite (bind_ok _ _ _ _ Hst). rewrite smul_length in Hlst.
  destruct (reverb_v2_run st SAMPLE_RATE 0.55 4 70 s1) as (wet & s3 & Hwet & _ & Hlwet).
  { lia. }
  { lia. }
  { rewrite Hlst, Hlx1, Hlx0, Hla, Hlsub, Hlt. tap_delays. }
  rewrite (bind_run _ _ _ _ _ Hwet).
  destruct (fade_v2_run wet SAMPLE_RATE 0.03 0.2 1323 8820) as (out & Hout & Hlout);
    [reflexivity|reflexivity|lia|lia|].
  exists out, s3. split; [by apply ok_run|]. lia.
Qed.

Lemma v2_aegis_run (d : float) (n dd : Z) (s : Rng) :
  samples SAMPLE_RATE d = Some n →
  samples_r (d * 0.9)%float SAMPLE_RATE = Some dd →
  (0 <= dd)%Z → (220 + dd <= n)%Z →
  (15434 <= n)%Z →
  ∃ out s', V2.sfx_aegis d s = Some (out, s') ∧ length out = Z.to_nat n.
Proof.
  intros Hn Hd Hd0 Hfit Hbig. pose proof sample_rate_pos as Hsr. unfold V2.sfx_aegis.
  rewrite (bind_ok _ _ _ _ Hn).
  destruct (linspace_open_Some 0 (Py.to_R d) n) as (t & Ht & Hlt); [lia|].
  rewrite (bind_ok _ _ _ _ Ht).
  destruct (linspace_run 0.2 1.0 n) as (ramp & Hramp & Hlramp); [lia|].
  rewrite (bind_ok _ _ _ _ Hramp).
  destruct (zip_arrays_same Rmult (V2.sine 320 t) ramp) as (riser & Hri & Hlri & _).
  { rewrite sine_v2_length. lia. }
  rewrite (bind_ok _ _ _ _ Hri). rewrite sine_v2_length in Hlri.
  destruct (bell_tone_v2_run d 880.0 SAMPLE_RATE n 220 dd) as (bell & Hbell & Hlbell);
    [done|reflexivity|done|lia|lia|lia|].
  rewrite (bind_ok _ _ _ _ Hbell).
  destruct (uniform_run (-1) 1 n s) as (nz & s1 & Hnz & Hs1 & Hlnz); [lia|].
  unfold V2.noise. rewrite (bind_run _ _ _ _ _ Hnz).
  destruct (highpass_v2_run (smul 0.2 nz) 7000 SAMPLE_RATE) as (sp & Hsp & Hlsp);
    [rewrite smul_length; lia|lra|done|].
  rewrite (bind_ok _ _ _ _ Hsp). rewrite smul_length in Hlsp.
  destruct (zip_arrays_same Rplus (smul 0.6 riser) (smul 0.7 bell)) as (x0 & Hx0 & Hlx0 & _).
  { rewrite !smul_length. lia. }
  rewrite (bind_ok _ _ _ _ Hx0). rewrite smul_length in Hlx0.
  destruct (zip_arrays_same Rplus x0 (smul 0.18 sp)) as (x1 & Hx1 & Hlx1 & _).
  { rewrite smul_length. lia. }
  rewrite (bind_ok _ _ _ _ Hx1).
  destruct (normalize_v2_run x1 0.92) as (x2 & Hx2 & Hlx2); [lia|].
  rewrite (bind_ok _ _ _ _ Hx2).
  destruct (stack_same x2 x2) as (st & Hst & Hlst & _); [lia|].
  rewrite (bind_ok _ _ _ _ Hst).
  destruct (reverb_v2_run st SAMPLE_RATE 0.6 5 35 s1) as (wet & s3 & Hwet & _ & Hlwet).
  { lia. }
  { lia. }
  { rewrite Hlst, Hlx2, Hlx1, Hlx0, Hlri, Hlt. tap_delays. }
  rewrite (bind_run _ _ _ _ _ Hwet).
  destruct (fade_v2_run wet SAMPLE_RATE 0.005 0.35 220 15434) as (out & Hout & Hlout);
    [reflexivity|reflexivity|lia|lia|].
  exists out, s3. split; [by apply ok_run|]. lia.
Qed.

(** Every recipe of the second script renders, at its configured duration,
    a stereo buffer of [int(44100 * duration)] rows. *)
Lemma v2_render_run (name : glyph) (s : Rng) :
  valid s →
  ∃ out s' n, V2.render name s = Some (out, s') ∧
              samples SAMPLE_RATE (DURATION_S name) = Some n ∧
              length out = Z.to_nat n.
Proof.
  intros Hv. unfold V2.render. destruct name; cbv [V2.GENERATORS DURATION_S].
  - destruct (v2_gale_run 0.9 39690 s) as (out & s' & H1 & H2); [reflexivity|lia|].
    exists out, s', 39690%Z. split; [exact H1|]. split; [reflexivity|exact H2].
  - destruct (v2_ember_run 0.9 39690 s) as (out & s' & H1 & H2); [done|reflexivity|lia|].
    exists out, s', 39690%Z. split; [exact H1|]. split; [reflexivity|exact H2].
  - destruct (v2_ward_run 0.9 39690 35721 s) as (out & s' & H1 & H2);
      [reflexivity|reflexivity|lia|lia|lia|].
    exists out, s', 39690%Z. split; [exact H1|]. split; [reflexivity|exact H2].
  - destruct (v2_snare_run 0.6 26460 s) as (out & s' & H1 & H2); [reflexivity|lia|].
    exists out, s', 26460%Z. split; [exact H1|]. split; [reflexivity|exact H2].
  - destruct (v2_soothe_run 1.1 48510 43659 s) as (out & s' & H1 & H2);
      [reflexivity|reflexivity|lia|lia|lia|].
    exists out, s', 48510%Z. split; [exact H1|]. split; [reflexivity|exact H2].
  - destruct (v2_void_run 1.0 44100 s) as (out & s' & H1 & H2); [reflexivity|lia|].
    exists out, s', 44100%Z. split; [exact H1|]. split; [reflexivity|exact H2].
  - destruct (v2_aegis_run 1.1 48510 43659 s) as (out & s' & H1 & H2);
      [reflexivity|reflexivity|lia|lia|lia|].
    exists out, s', 48510%Z. split; [exact H1|]. split; [reflexivity|exact H2].
Qed.

End v2_runs.

(* ================================================================== *)
(** * How loud a finished buffer can be                                 *)
(* ================================================================== *)

(** Take a successful run of a recipe apart, step by step. *)
Ltac inv_binds H :=
  repeat match type of H with
         | (mbind _ _) _ = Some _ =>
             let H1 := fresh "Hstep" in
             apply bind_Some in H as (? & ? & H1 & H);
             cbv beta in H;
             try (apply ok_Some in H1 as [H1 ->])
         end;
  try (apply ok_Some in H as [H ->]).

(** Keep the last step of a successful run only. *)
Ltac to_last H :=
  repeat match type of H with
         | (mbind _ _) _ = Some _ =>
             apply bind_Some in H as (? & ? & _ & H); cbv beta in H
         end.

Section loudness.
Local Open Scope R_scope.

Lemma broadcast_elem {A} (k : nat) (v v' : list A) (a : A) :
  Py.broadcast k v = Some v' → a ∈ v' → a ∈ v.
Proof.
  unfold Py.broadcast. destruct (decide _); [by intros [= <-]|].
  destruct v as [|b [|c v]]; try done. intros [= <-] Ha.
  apply elem_of_replicate in Ha as [-> _]. apply elem_of_cons. by left.
Qed.

Lemma elem_take_in {A} (n : nat) (l : list A) (a : A) : a ∈ take n l → a ∈ l.
Proof.
  intros (i & Hi & _)%elem_of_take. by apply list_elem_of_lookup_2 in Hi.
Qed.

Lemma elem_drop_in {A} (n : nat) (l : list A) (a : A) : a ∈ drop n l → a ∈ l.
Proof.
  intros (i & Hi)%list_elem_of_lookup_1. rewrite lookup_drop in Hi.
  by apply list_elem_of_lookup_2 in Hi.
Qed.

Lemma elem_of_zip_with_inv {A B C} (f : A → B → C) (l : list A) (k : list B) (c : C) :
  c ∈ zip_with f l k → ∃ a b, a ∈ l ∧ b ∈ k ∧ c = f a b.
Proof.
  intros (i & Hi)%list_elem_of_lookup_1.
  apply lookup_zip_with_Some in Hi as (a & b & -> & Ha & Hb).
  exists a, b. split; [by apply list_elem_of_lookup_2 in Ha|].
  split; [by apply list_elem_of_lookup_2 in Hb|done].
Qed.

Lemma bounded_flat {A} `{Frame A} (B : R) (x : list A) :
  bounded B (flat x) ↔ ∀ a, a ∈ x → ∀ v, v ∈ chans a → Rabs v <= B.
Proof.
  unfold bounded. split.
  - intros Hb a Ha v Hv. apply Hb. apply elem_of_flat. by exists a.
  - intros Hb v (a & Ha & Hv)%elem_of_flat. by apply (Hb a).
Qed.

(** Scaling a slice of rows by gains of [[0, 1]] makes no sample louder. *)
Lemma slice_scale_bounded {A} `{Frame A} (B : R) (x y : list A) (lo hi : option Z)
    (v : list R) :
  Py.slice_update scale x lo hi v = Some y →
  (∀ g, g ∈ v → 0 <= g <= 1) →
  bounded B (flat x) → bounded B (flat y).
Proof.
  unfold Py.slice_update. destruct (Py.slice_range (length x) lo hi) as [s k].
  destruct (Py.broadcast k v) as [v'|] eqn:Hb; [|done]. obind. intros [= <-] Hv Hx.
  rewrite bounded_flat in Hx. apply bounded_flat. intros a Ha.
  apply elem_of_app in Ha as [Ha|Ha].
  { apply Hx. by apply elem_take_in in Ha. }
  apply elem_of_app in Ha as [Ha|Ha].
  - apply elem_of_zip_with_inv in Ha as (a0 & g & Ha0 & Hg & ->).
    apply scale_unit_bound.
    + apply Hv. by apply (broadcast_elem k v v').
    + apply Hx. apply elem_take_in in Ha0. by apply elem_drop_in in Ha0.
  - apply Hx. by apply elem_drop_in in Ha.
Qed.

Lemma ramp_gains (start stop : R) (num : Z) (l : list R) :
  0 <= start <= 1 → 0 <= stop <= 1 →
  Py.linspace start stop num = Some l → ∀ g, g ∈ l → 0 <= g <= 1.
Proof.
  intros Hs He [Hn ->]%linspace_inv g (i & -> & Hi)%list_elem_of_fmap.
  apply elem_of_seq in Hi. apply linspace_at_unit; [done|done|lia].
Qed.

(** A fade makes no sample louder, whatever its windows. *)
Lemma fade_bounded {A} `{Frame A} (B : R) (x y : list A) (sr : Z) (fi_s fo_s : float) :
  V1._fade x sr fi_s fo_s = Some y → bounded B (flat x) → bounded B (flat y).
Proof.
  unfold V1._fade.
  destruct (samples sr fi_s) as [fi|]; [|done]. obind.
  destruct (samples sr fo_s) as [fo|]; [|done]. obind.
  intros Hf Hx.
  assert (∀ x1, (if decide (0 < fi)%Z
                 then Py.linspace 0 1 fi ≫= λ fade_in,
                        Py.slice_update scale x None (Some fi) fade_in
                 else Some x) = Some x1 → bounded B (flat x1)) as H1.
  { intros x1. destruct (decide (0 < fi)%Z) as [Hpos|Hneg]; [|by intros [= <-]].
    destruct (Py.linspace 0 1 fi) as [l1|] eqn:Hl1; [|done]. obind. intros Hu.
    apply (slice_scale_bounded B x x1 None (Some fi) l1 Hu); [|done].
    apply (ramp_gains 0 1 fi); [lra|lra|done]. }
  destruct (if decide (0 < fi)%Z then _ else _) as [x1|]; [|done].
  cbn [mbind option_bind] in Hf.
  specialize (H1 x1 eq_refl).
  destruct (decide (0 < fo)%Z) as [Hpos|Hneg]; [|by injection Hf as <-].
  destruct (Py.linspace 1 0 fo) as [l2|] eqn:Hl2; [|done].
  cbn [mbind option_bind] in Hf.
  apply (slice_scale_bounded B x1 y (Some (- fo)%Z) None l2 Hf); [|done].
  apply (ramp_gains 1 0 fo); [lra|lra|done].
Qed.

Lemma lowpass_Some_bounded (B : R) (x y : list R) (cutoff_hz : R) (sr : Z) :
  V1._apply_lowpass x cutoff_hz sr = Some y →
  0 < cutoff_hz → (0 < sr)%Z → bounded B x → bounded B y.
Proof.
  intros Hy Hc Hsr Hx. destruct x as [|x0 x'].
  { by rewrite (proj1 (filters_empty cutoff_hz sr)) in Hy. }
  destruct (lowpass_total (x0 :: x') cutoff_hz sr) as (y' & Hy' & Hlp); [done|done|done|].
  assert (y' = y) as -> by congruence.
  apply (lowpass_bounded (lowpass_alpha cutoff_hz sr) B (x0 :: x')); [|done|done].
  pose proof (lowpass_alpha_unit cutoff_hz sr Hc Hsr). lra.
Qed.

Lemma highpass_Some_bounded (B : R) (x y : list R) (cutoff_hz : R) (sr : Z) :
  V1._apply_highpass x cutoff_hz sr = Some y →
  0 < cutoff_hz → (0 < sr)%Z → bounded B x → bounded (2 * B) y.
Proof.
  intros Hy Hc Hsr Hx. destruct x as [|x0 x'].
  { by rewrite (proj2 (filters_empty cutoff_hz sr)) in Hy. }
  destruct (highpass_total (x0 :: x') cutoff_hz sr) as (y' & Hy' & Hhp); [done|done|done|].
  assert (y' = y) as -> by congruence.
  apply (highpass_bounded (highpass_alpha cutoff_hz sr) B (x0 :: x')); [|done|done].
  pose proof (highpass_alpha_unit cutoff_hz sr Hc Hsr). lra.
Qed.

Lemma flat_mono (x : list R) : flat x = x.
Proof. induction x as [|a x IH]; [done|]. rewrite flat_cons, IH. done. Qed.

Lemma stack_bounded (B : R) (l r : list R) (st : list (R * R)) :
  stack l r = Some st → bounded B l → bounded B r → bounded B (flat st).
Proof.
  unfold stack. destruct (decide _); [|done]. intros [= <-] Hl Hr.
  apply bounded_flat. intros [a b] Hab v Hv.
  apply elem_of_zip_with_inv in Hab as (a' & b' & Ha & Hb & [= -> ->]).
  simpl in Hv. apply elem_of_cons in Hv as [->|Hv]; [by apply Hl|].
  apply elem_of_cons in Hv as [->|Hv]; [by apply Hr|]. by apply elem_of_nil in Hv.
Qed.

Lemma smul_bounded (B k : R) (x : list R) :
  Rabs k <= 1 → bounded B x → bounded B (smul k x).
Proof.
  intros Hk Hx v (a & -> & Ha)%list_elem_of_fmap.
  rewrite Rabs_mult. pose proof (Hx a Ha). pose proof (Rabs_pos a). pose proof (Rabs_pos k).
  nra.
Qed.

Lemma normalize_mono_bounded (x y : list R) (peak : R) :
  0 <= peak → V1._normalize_peak x peak = Some y → bounded peak y.
Proof.
  intros Hp Hn v Hv. apply (normalize_peak_bound x y peak Hp Hn). by rewrite flat_mono.
Qed.

(** The reverb returns its wet sum scaled by the single factor
    [0.95 / (m + 1e-12)], [m] the peak of the wet sum over both channels; so
    its loudest sample is [0.95 * m / (m + 1e-12)], and none exceeds 0.95. *)
Lemma reverb_normalised (stereo out : list (R * R)) (sr : Z) (decay : R) (num_taps : Z)
    (base_delay_ms : float) (s s' : Rng) :
  V1._reverb_simple stereo sr decay num_taps base_delay_ms s = Some (out, s') →
  bounded 0.95 (flat out) ∧
  ∃ y m, Py.max_abs (flat y) = Some m ∧
         out = on_chans (λ v, v / (m + 1e-12) * 0.95) <$> y ∧
         Py.max_abs (flat out) = Some (0.95 * m / (m + 1e-12)).
Proof.
  unfold V1._reverb_simple. intros Hr.
  apply bind_Some in Hr as (y & s1 & _ & Hn). apply ok_Some in Hn as [Hn ->].
  split; [intros v Hv; apply (normalize_peak_bound y out 0.95); [lra|done|done]|].
  destruct (normalize_peak_Some y out 0.95 Hn) as (m & Hm & Hout).
  exists y, m. split; [done|]. split; [done|].
  apply (normalize_peak_max y out 0.95 m); [lra|done|done].
Qed.

End loudness.

Section recipe_loudness.
Local Open Scope R_scope.

(** The loudest a finished buffer of a recipe can be: the target of the
    last normalisation the recipe goes through. *)
Lemma v1_gale_loud (duration : float) (s s' : Rng) (out : list (R * R)) :
  V1.sfx_gale duration s = Some (out, s') → bounded 0.8 (flat out).
Proof.
  unfold V1.sfx_gale. intros H. inv_binds H.
  match goal with
  | Hn : V1._normalize_peak _ 0.8 = Some ?x2,
    Hf : V1._fade ?x2 _ _ _ = Some ?x3,
    Hl : V1._apply_lowpass ?x3 900 _ = Some ?r |- _ =>
      assert (bounded 0.8 x2) as B2 by (by apply (normalize_mono_bounded _ _ 0.8 ltac:(lra) Hn));
      assert (bounded 0.8 x3) as B3
        by (rewrite <- (flat_mono x3); apply (fade_bounded 0.8 _ _ _ _ _ Hf);
            by rewrite flat_mono);
      assert (bounded 0.8 r) as Br
        by (apply (lowpass_Some_bounded 0.8 _ _ _ _ Hl); [lra|done|done])
  end.
  apply (stack_bounded 0.8 _ _ _ H); [|done].
  apply smul_bounded; [|done]. apply Rabs_bound. lra.
Qed.

Lemma v2_gale_loud (d : float) (s s' : Rng) (out : list (R * R)) :
  V2.sfx_gale d s = Some (out, s') → bounded 0.8 (flat out).
Proof.
  unfold V2.sfx_gale. intros H. inv_binds H.
  match goal with
  | Hn : V2.normalize_peak _ 0.8 = Some ?x2,
    Hl : V2.lowpass ?x2 900 _ = Some ?r,
    Hs : stack ?x2 ?r = Some ?st |- _ =>
      assert (bounded 0.8 x2) as B2 by (by apply (normalize_mono_bounded _ _ 0.8 ltac:(lra) Hn));
      assert (bounded 0.8 r) as Br
        by (apply (lowpass_Some_bounded 0.8 _ _ _ _ Hl); [lra|done|done]);
      assert (bounded 0.8 (flat st)) as Bst by (by apply (stack_bounded 0.8 _ _ _ Hs))
  end.
  by apply (fade_bounded 0.8 _ _ _ _ _ H).
Qed.

(** The six recipes of the first script that end in the reverb return a
    buffer normalised to 0.95 by one factor for both channels. *)
Lemma v1_reverb_recipes_loud (name : glyph) (duration : float) (s s' : Rng)
    (out : list (R * R)) :
  name ≠ gale →
  V1.GENERATORS name duration s = Some (out, s') →
  bounded 0.95 (flat out) ∧
  ∃ y m, Py.max_abs (flat y) = Some m ∧
         out = on_chans (λ v, v / (m + 1e-12) * 0.95) <$> y ∧
         Py.max_abs (flat out) = Some (0.95 * m / (m + 1e-12)).
Proof.
  intros Hname H. destruct name; [done|..]; cbv [V1.GENERATORS] in H.
  - unfold V1.sfx_ember in H. to_last H. by apply reverb_normalised in H.
  - unfold V1.sfx_ward in H. to_last H. by apply reverb_normalised in H.
  - unfold V1.sfx_snare in H. to_last H. by apply reverb_normalised in H.
  - unfold V1.sfx_soothe in H. to_last H. by apply reverb_normalised in H.
  - unfold V1.sfx_void in H. to_last H. by apply reverb_normalised in H.
  - unfold V1.sfx_aegis in H. to_last H. by apply reverb_normalised in H.
Qed.

(** In the second script the fade comes after the reverb: the buffer is at
    most as loud as the reverb left it. *)
Ltac v2_loud H :=
  inv_binds H;
  match goal with
  | Hr : V2.reverb_simple _ _ _ _ _ _ = Some (?st, _) |- _ =>
      destruct (reverb_normalised _ _ _ _ _ _ _ _ Hr) as [Bst _]
  end;
  by apply (fade_bounded 0.95 _ _ _ _ _ H).

Lemma v2_reverb_recipes_loud (name : glyph) (d : float) (s s' : Rng)
    (out : list (R * R)) :
  name ≠ gale →
  V2.GENERATORS name d s = Some (out, s') →
  bounded 0.95 (flat out).
Proof.
  intros Hname H. destruct name; [done|..]; cbv [V2.GENERATORS] in H.
  - unfold V2.sfx_ember in H. v2_loud H.
  - unfold V2.sfx_ward in H. v2_loud H.
  - unfold V2.sfx_snare in H. v2_loud H.
  - unfold V2.sfx_soothe in H. v2_loud H.
  - unfold V2.sfx_void in H. v2_loud H.
  - unfold V2.sfx_aegis in H. v2_loud H.
Qed.

End recipe_loudness.

Section silent_gale.
Local Open Scope R_scope.

Lemma silent_source_valid : valid silent_source.
Proof. intros k. simpl. lra. Qed.

Lemma low_source_valid : valid low_source.
Proof. intros k. simpl. lra. Qed.

Lemma bounded_zero_iff (x : list R) : bounded 0 x ↔ ∀ v, v ∈ x → v = 0.
Proof.
  split; intros Hx v Hv.
  - pose proof (Hx v Hv) as Hb. apply Rabs_bound in Hb. lra.
  - rewrite (Hx v Hv), Rabs_R0. lra.
Qed.

Lemma noise_silent (n : Z) (s s' : Rng) (nz : list R) :
  (∀ k, np_tape s k = 0.5) → uniform (-1) 1 n s = Some (nz, s') → bounded 0 nz.
Proof.
  intros Htape. unfold uniform. destruct (decide _); [done|]. intros [= <- _].
  apply bounded_zero_iff. intros v (k & -> & _)%list_elem_of_fmap. rewrite Htape. lra.
Qed.

Lemma zip_arrays_mult_silent (a b c : list R) :
  Py.zip_arrays Rmult a b = Some c → bounded 0 a → bounded 0 c.
Proof.
  rewrite !bounded_zero_iff. unfold Py.zip_arrays. intros Hc Ha v Hv.
  destruct (decide _).
  - injection Hc as <-. apply elem_of_zip_with_inv in Hv as (x & y & Hx & _ & ->).
    rewrite (Ha x Hx). lra.
  - destruct a as [|x [|x' a]].
    + destruct b as [|y [|y' b]]; try done. injection Hc as <-. simpl in Hv.
      by apply elem_of_nil in Hv.
    + injection Hc as <-. apply list_elem_of_fmap in Hv as (y & -> & _).
      rewrite (Ha x); [lra|]. apply elem_of_cons. by left.
    + destruct b as [|y [|y' b]]; try done.
      remember (x :: x' :: a) as l eqn:Hl. injection Hc as <-.
      apply list_elem_of_fmap in Hv as (z & -> & Hz). rewrite (Ha z Hz). lra.
Qed.

Lemma normalize_silent_bounded (x y : list R) (peak : R) :
  V1._normalize_peak x peak = Some y → bounded 0 x → bounded 0 y.
Proof.
  intros Hn Hx. assert (x ≠ []) as Hne.
  { intros ->. assert (V1._normalize_peak ([] : list R) peak = None) by reflexivity.
    congruence. }
  assert (∀ v, v ∈ flat x → v = 0) as Hz
    by (rewrite flat_mono; by apply bounded_zero_iff).
  pose proof (normalize_of_silence x peak Hne Hz) as Hx'.
  assert (y = x) as -> by congruence. done.
Qed.

(** With silent noise, gale is silent from its first stage to its last. *)
Lemma v1_gale_silent (duration : float) (s s' : Rng) (out : list (R * R)) :
  (∀ k, np_tape s k = 0.5) →
  V1.sfx_gale duration s = Some (out, s') → bounded 0 (flat out).
Proof.
  intros Htape. unfold V1.sfx_gale, V1._noise. intros H. inv_binds H.
  match goal with
  | Hu : uniform _ _ _ _ = Some (?nz, _),
    Hb : V1._apply_lowpass ?nz 1200 _ = Some ?base,
    Hm : Py.zip_arrays Rmult ?base _ = Some ?x0,
    Hh : V1._apply_highpass ?x0 80 _ = Some ?x1,
    Hn : V1._normalize_peak ?x1 0.8 = Some ?x2,
    Hf : V1._fade ?x2 _ _ _ = Some ?x3,
    Hl : V1._apply_lowpass ?x3 900 _ = Some ?r |- _ =>
      assert (bounded 0 nz) as B0 by (by apply (noise_silent _ _ _ _ Htape Hu));
      assert (bounded 0 base) as B1
        by (apply (lowpass_Some_bounded 0 _ _ _ _ Hb); [lra|done|done]);
      assert (bounded 0 x0) as B2 by (by apply (zip_arrays_mult_silent _ _ _ Hm));
      assert (bounded 0 x1) as B3
        by (replace 0 with (2 * 0) by lra;
            apply (highpass_Some_bounded 0 _ _ _ _ Hh); [lra|done|done]);
      assert (bounded 0 x2) as B4 by (by apply (normalize_silent_bounded _ _ _ Hn));
      assert (bounded 0 x3) as B5
        by (rewrite <- (flat_mono x3); apply (fade_bounded 0 _ _ _ _ _ Hf);
            by rewrite flat_mono);
      assert (bounded 0 r) as B6
        by (apply (lowpass_Some_bounded 0 _ _ _ _ Hl); [lra|done|done])
  end.
  apply (stack_bounded 0 _ _ _ H); [|done].
  apply smul_bounded; [|done]. apply Rabs_bound. lra.
Qed.

Lemma v2_gale_silent (d : float) (s s' : Rng) (out : list (R * R)) :
  (∀ k, np_tape s k = 0.5) →
  V2.sfx_gale d s = Some (out, s') → bounded 0 (flat out).
Proof.
  intros Htape. unfold V2.sfx_gale, V2.noise. intros H. inv_binds H.
  match goal with
  | Hu : uniform _ _ _ _ = Some (?nz, _),
    Hb : V2.lowpass ?nz 1200 _ = Some ?base,
    Hm : Py.zip_arrays Rmult ?base _ = Some ?x0,
    Hh : V2.highpass ?x0 80 _ = Some ?x1,
    Hn : V2.normalize_peak ?x1 0.8 = Some ?x2,
    Hl : V2.lowpass ?x2 900 _ = Some ?r,
    Hs : stack ?x2 ?r = Some ?st |- _ =>
      assert (bounded 0 nz) as B0 by (by apply (noise_silent _ _ _ _ Htape Hu));
      assert (bounded 0 base) as B1
        by (apply (lowpass_Some_bounded 0 _ _ _ _ Hb); [lra|done|done]);
      assert (bounded 0 x0) as B2 by (by apply (zip_arrays_mult_silent _ _ _ Hm));
      assert (bounded 0 x1) as B3
        by (replace 0 with (2 * 0) by lra;
            apply (highpass_Some_bounded 0 _ _ _ _ Hh); [lra|done|done]);
      assert (bounded 0 x2) as B4 by (by apply (normalize_silent_bounded _ _ _ Hn));
      assert (bounded 0 r) as B6
        by (apply (lowpass_Some_bounded 0 _ _ _ _ Hl); [lra|done|done]);
      assert (bounded 0 (flat st)) as B7 by (by apply (stack_bounded 0 _ _ _ Hs))
  end.
  by apply (fade_bounded 0 _ _ _ _ _ H).
Qed.

End silent_gale.

(* ================================================================== *)
(** * The finished buffers of the catalog                               *)
(* ================================================================== *)

Section catalog.
Local Open Scope R_scope.

Lemma rows_have_two_channels (row : R * R) : length (chans row) = 2%nat.
Proof. done. Qed.

(** C2.  From a valid random source, every recipe of either script renders
    at its configured duration without raising, and the stereo buffer it
    returns has exactly [round(duration * 44100)] rows (so the count is
    within one sample of it), each of two channels; for ward at 0.9 s that
    is 39690 rows. *)
Theorem sample_counts (name : glyph) (s : Rng) :
  valid s →
  ∃ out1 s1 out2 s2 r,
    V1.render name s = Some (out1, s1) ∧
    V2.render name s = Some (out2, s2) ∧
    Py.round_float (DURATION_S name * 44100) = Some r ∧
    Z.of_nat (length out1) = r ∧
    Z.of_nat (length out2) = r ∧
    (∀ row, row ∈ out1 ++ out2 → length (chans row) = 2%nat) ∧
    (name = ward → r = 39690%Z).
Proof.
  intros Hv.
  destruct (v1_render_run name s Hv) as (out1 & s1 & n1 & H1 & Hn1 & Hl1).
  destruct (v2_render_run name s Hv) as (out2 & s2 & n2 & H2 & Hn2 & Hl2).
  assert (n2 = n1) as -> by congruence.
  exists out1, s1, out2, s2, n1. split; [exact H1|]. split; [exact H2|].
  assert (Py.round_float (DURATION_S name * 44100) = Some n1 ∧ (0 <= n1)%Z ∧
          (name = ward → n1 = 39690%Z)) as (Hr & Hpos & Hward).
  { clear H1 H2. destruct name; vm_compute in Hn1; injection Hn1 as <-;
      (split; [reflexivity|split; [lia|done]]). }
  split; [exact Hr|]. split; [lia|]. split; [lia|]. split; [|exact Hward].
  intros row _. apply rows_have_two_channels.
Qed.

Lemma sample_counts_witness :
  ∃ out1 s1 out2 s2 r,
    V1.render ward low_source = Some (out1, s1) ∧
    V2.render ward low_source = Some (out2, s2) ∧
    Py.round_float (DURATION_S ward * 44100) = Some r ∧
    Z.of_nat (length out1) = r ∧
    Z.of_nat (length out2) = r ∧
    (∀ row, row ∈ out1 ++ out2 → length (chans row) = 2%nat) ∧
    (ward = ward → r = 39690%Z).
Proof.
  apply (sample_counts ward low_source). intros k. simpl. lra.
Defined.

(** C1, as amended.  From a valid random source, every recipe of either
    script renders at its configured duration a buffer in which no sample of
    either channel exceeds the target of the last normalisation the recipe
    goes through: 0.95, the reverb's, for the six recipes that end in the
    reverb, and 0.8 for gale.  In the first script those six return their
    wet sum scaled by the single factor [0.95 / (m + 1e-12)], [m] the peak of
    the wet sum over both channels, so that their loudest sample is
    [0.95 * m / (m + 1e-12)]. *)
Theorem finished_peak (name : glyph) (s : Rng) :
  valid s →
  ∃ out1 s1 out2 s2,
    V1.render name s = Some (out1, s1) ∧
    V2.render name s = Some (out2, s2) ∧
    bounded (final_peak name) (flat out1) ∧
    bounded (final_peak name) (flat out2) ∧
    (name ≠ gale →
     ∃ y m, Py.max_abs (flat y) = Some m ∧
            out1 = on_chans (λ v, v / (m + 1e-12) * 0.95) <$> y ∧
            Py.max_abs (flat out1) = Some (0.95 * m / (m + 1e-12))).
Proof.
  intros Hv.
  destruct (v1_render_run name s Hv) as (out1 & s1 & n1 & H1 & _ & _).
  destruct (v2_render_run name s Hv) as (out2 & s2 & n2 & H2 & _ & _).
  exists out1, s1, out2, s2. split; [exact H1|]. split; [exact H2|].
  unfold V1.render in H1. unfold V2.render in H2.
  destruct (decide (name = gale)) as [->|Hname].
  - split; [exact (v1_gale_loud _ _ _ _ H1)|].
    split; [exact (v2_gale_loud _ _ _ _ H2)|]. done.
  - destruct (v1_reverb_recipes_loud name _ _ _ _ Hname H1) as [B1 Hmax].
    pose proof (v2_reverb_recipes_loud name _ _ _ _ Hname H2) as B2.
    assert (final_peak name = 0.95) as -> by (by destruct name).
    split; [exact B1|]. split; [exact B2|]. intros _. exact Hmax.
Qed.

Lemma finished_peak_witness :
  ∃ out1 s1 out2 s2,
    V1.render ward low_source = Some (out1, s1) ∧
    V2.render ward low_source = Some (out2, s2) ∧
    bounded (final_peak ward) (flat out1) ∧
    bounded (final_peak ward) (flat out2) ∧
    (ward ≠ gale →
     ∃ y m, Py.max_abs (flat y) = Some m ∧
            out1 = on_chans (λ v, v / (m + 1e-12) * 0.95) <$> y ∧
            Py.max_abs (flat out1) = Some (0.95 * m / (m + 1e-12))).
Proof.
  apply (finished_peak ward low_source). intros k. simpl. lra.
Defined.

(** C1, as stated, fails: with the noise draws all 0 (raw draws 0.5), gale
    renders in both scripts a buffer of 39690 rows whose loudest sample is 0,
    not its peak 0.8. *)
Lemma gale_can_be_silent :
  valid silent_source ∧
  ∃ out1 s1 out2 s2,
    V1.render gale silent_source = Some (out1, s1) ∧
    V2.render gale silent_source = Some (out2, s2) ∧
    Py.max_abs (flat out1) = Some 0 ∧
    Py.max_abs (flat out2) = Some 0.
Proof.
  split; [exact silent_source_valid|].
  destruct (v1_render_run gale silent_source silent_source_valid)
    as (out1 & s1 & n1 & H1 & Hn1 & Hl1).
  destruct (v2_render_run gale silent_source silent_source_valid)
    as (out2 & s2 & n2 & H2 & Hn2 & Hl2).
  exists out1, s1, out2, s2. split; [exact H1|]. split; [exact H2|].
  assert (n1 = 39690%Z ∧ n2 = 39690%Z) as [-> ->].
  { vm_compute in Hn1, Hn2. split; congruence. }
  unfold V1.render in H1. unfold V2.render in H2.
  cbv [V1.GENERATORS V2.GENERATORS] in H1, H2.
  split.
  - apply max_abs_zero.
    + apply flat_nonempty. apply nonempty_length. lia.
    + apply bounded_zero_iff. by apply (v1_gale_silent _ silent_source _ _ (λ _, eq_refl) H1).
  - apply max_abs_zero.
    + apply flat_nonempty. apply nonempty_length. lia.
    + apply bounded_zero_iff. by apply (v2_gale_silent _ silent_source _ _ (λ _, eq_refl) H2).
Qed.

End catalog.

(* ================================================================== *)
(** * Renders depend on the source through its draws only               *)
(* ================================================================== *)

Section determinism.
Local Open Scope R_scope.

Lemma draws_only_ok {A} (o : option A) : draws_only (ok o).
Proof.
  split.
  - intros s a s' [_ ->]%ok_Some. done.
  - intros s1 s2 a s1' [-> ->]%ok_Some Hc _. exists s2. done.
Qed.

Lemma draws_only_bind {A B} (m : M A) (f : A → M B) :
  draws_only m → (∀ a, draws_only (f a)) → draws_only (m ≫= f).
Proof.
  intros [Hm1 Hm2] Hf. split.
  - intros s b s' (a & s1 & Hrun & Hk)%bind_Some.
    destruct (Hm1 _ _ _ Hrun) as (Ht & Hn & Hp).
    destruct (proj1 (Hf a) _ _ _ Hk) as (Ht' & Hn' & Hp').
    split; [by apply (same_tapes_trans s s1 s')|]. lia.
  - intros s1 s2 b s1'' (a & s1' & Hrun & Hk)%bind_Some Hc [Hdn Hdp].
    destruct (Hm1 _ _ _ Hrun) as ([Ht1 Ht2] & Hn & Hp).
    destruct (proj1 (Hf a) _ _ _ Hk) as (_ & Hn' & Hp').
    destruct (Hm2 s1 s2 a s1' Hrun Hc) as (s2' & Hrun2 & Hc').
    { split; intros k Hk'; [apply Hdn|apply Hdp]; lia. }
    destruct (Hm1 _ _ _ Hrun2) as ([Ht3 Ht4] & _ & _).
    destruct (proj2 (Hf a) s1' s2' b s1'' Hk Hc') as (s2'' & Hk2 & Hc'').
    { split; intros k Hk'.
      - rewrite Ht1, Ht3. apply Hdn. lia.
      - rewrite Ht2, Ht4. apply Hdp. lia. }
    exists s2''. split; [|done]. by rewrite (bind_run _ _ _ _ _ Hrun2).
Qed.

Lemma draws_only_random : draws_only random.
Proof.
  split.
  - intros s a s' [= <- <-]. simpl. split; [done|lia].
  - intros s1 s2 a s1' [= <- <-] [Hn Hp] [_ Hdp]. simpl in *.
    exists (mkRng (np_tape s2) (np_pos s2) (py_tape s2) (S (py_pos s2))).
    split; [|split; simpl; congruence].
    unfold random. rewrite <- Hp. rewrite (Hdp (py_pos s1)) by lia. done.
Qed.

Lemma draws_only_randint (a b : Z) : draws_only (randint a b).
Proof.
  split.
  - intros s k s'. unfold randint. destruct (decide _); [done|].
    intros [= <- <-]. simpl. split; [done|lia].
  - intros s1 s2 k s1'. unfold randint. destruct (decide _); [done|].
    intros [= <- <-] [Hn Hp] [_ Hdp]. simpl in *.
    exists (mkRng (np_tape s2) (np_pos s2) (py_tape s2) (S (py_pos s2))).
    split; [|split; simpl; congruence].
    rewrite <- Hp. rewrite (Hdp (py_pos s1)) by lia. done.
Qed.

Lemma draws_only_uniform (low high : R) (n : Z) : draws_only (uniform low high n).
Proof.
  split.
  - intros s l s'. unfold uniform. destruct (decide _); [done|].
    intros [= <- <-]. simpl. split; [done|lia].
  - intros s1 s2 l s1'. unfold uniform. destruct (decide _); [done|].
    intros [= <- <-] [Hn Hp] [Hdn _]. simpl in *.
    exists (mkRng (np_tape s2) (np_pos s2 + Z.to_nat n) (py_tape s2) (py_pos s2)).
    split; [|split; simpl; congruence].
    f_equal. f_equal. apply list_fmap_ext. intros i k Hk.
    apply lookup_seq in Hk as [-> Hk]. rewrite <- Hn.
    rewrite (Hdn (np_pos s1 + (0 + i))%nat) by lia. done.
Qed.

Lemma draws_only_for_each {S} (l : list Z) (body : Z → S → M S) (x : S) :
  (∀ i x', draws_only (body i x')) → draws_only (for_each l body x).
Proof.
  intros Hbody. revert x. induction l as [|i l IH]; intros x; simpl.
  - apply (draws_only_ok (Some x)).
  - apply draws_only_bind; [apply Hbody|]. intros x'. apply IH.
Qed.

End determinism.

(** Every step of a recipe is a draw, a loop of draws, or draws nothing. *)
Ltac draws_only_step :=
  match goal with
  | |- draws_only (ok _) => apply draws_only_ok
  | |- draws_only random => apply draws_only_random
  | |- draws_only (randint _ _) => apply draws_only_randint
  | |- draws_only (uniform _ _ _) => apply draws_only_uniform
  | |- draws_only (for_each _ _ _) => apply draws_only_for_each; intros
  | |- draws_only (mbind _ _) => apply draws_only_bind; [|intros]
  | |- draws_only (let _ := _ in _) => cbv zeta
  end.

Section recipes_deterministic.
Local Open Scope R_scope.

Lemma draws_only_reverb (stereo : list (R * R)) (sr : Z) (decay : R) (num_taps : Z)
    (base_delay_ms : float) :
  draws_only (V1._reverb_simple stereo sr decay num_taps base_delay_ms).
Proof.
  unfold V1._reverb_simple, V1.reverb_sum. repeat draws_only_step.
  unfold V1.reverb_tap. repeat draws_only_step.
Qed.

Lemma draws_only_crackle (n : Z) (crackles : list R) : draws_only (V1.crackle n crackles).
Proof. unfold V1.crackle. repeat draws_only_step. Qed.

Lemma draws_only_reverb_v2 (st : list (R * R)) (sr : Z) (decay : R) (taps : Z)
    (base_ms : float) :
  draws_only (V2.reverb_simple st sr decay taps base_ms).
Proof. exact (draws_only_reverb st sr decay taps base_ms). Qed.

Lemma draws_only_crackle_v2 (n : Z) (crackles : list R) :
  draws_only (V2.crackle n crackles).
Proof. exact (draws_only_crackle n crackles). Qed.

Ltac draws_only_steps :=
  repeat first
    [ draws_only_step
    | apply draws_only_reverb
    | apply draws_only_crackle
    | apply draws_only_reverb_v2
    | apply draws_only_crackle_v2 ].

Lemma v1_draws_only (name : glyph) (duration : float) :
  draws_only (V1.GENERATORS name duration).
Proof.
  destruct name; cbv [V1.GENERATORS].
  - unfold V1.sfx_gale, V1._noise. draws_only_steps.
  - unfold V1.sfx_ember, V1._noise. draws_only_steps.
  - unfold V1.sfx_ward. draws_only_steps.
  - unfold V1.sfx_snare. draws_only_steps.
  - unfold V1.sfx_soothe, V1._noise. draws_only_steps.
  - unfold V1.sfx_void, V1._noise. draws_only_steps.
  - unfold V1.sfx_aegis, V1._noise. draws_only_steps.
Qed.

Lemma v2_draws_only (name : glyph) (d : float) :
  draws_only (V2.GENERATORS name d).
Proof.
  destruct name; cbv [V2.GENERATORS].
  - unfold V2.sfx_gale, V2.noise. draws_only_steps.
  - unfold V2.sfx_ember, V2.noise. draws_only_steps.
  - unfold V2.sfx_ward. draws_only_steps.
  - unfold V2.sfx_snare. draws_only_steps.
  - unfold V2.sfx_soothe, V2.noise. draws_only_steps.
  - unfold V2.sfx_void, V2.noise. draws_only_steps.
  - unfold V2.sfx_aegis, V2.noise. draws_only_steps.
Qed.

End recipes_deterministic.

Section determinism_claims.
Local Open Scope R_scope.

(** C7.  A render depends on the random source through the draws it
    consumes only.  If, from a source [s1], a recipe of either script renders
    the buffer [out] and leaves the cursors at [s1'], then from any source
    [s2] with the cursors where [s1] has them and the same raw draws up to
    [s1'], the same recipe renders the same buffer [out] and leaves the
    cursors at the same places.  So two renders of a recipe from one seed
    produce identical buffers, and nothing but the duration and the draws
    decides a buffer. *)
Theorem render_deterministic (name : glyph) (s1 s2 s1' : Rng) (out : list (R * R)) :
  same_cursors s1 s2 →
  same_draws s1 s2 (np_pos s1') (py_pos s1') →
  (V1.render name s1 = Some (out, s1') →
   ∃ s2', V1.render name s2 = Some (out, s2') ∧ same_cursors s1' s2') ∧
  (V2.render name s1 = Some (out, s1') →
   ∃ s2', V2.render name s2 = Some (out, s2') ∧ same_cursors s1' s2').
Proof.
  intros Hc Hd. split; intros Hrun.
  - exact (proj2 (v1_draws_only name (DURATION_S name)) s1 s2 out s1' Hrun Hc Hd).
  - exact (proj2 (v2_draws_only name (DURATION_S name)) s1 s2 out s1' Hrun Hc Hd).
Qed.

Lemma render_deterministic_witness :
  ∃ out s1' s2',
    V1.render ward low_source = Some (out, s1') ∧
    V1.render ward other_source = Some (out, s2') ∧
    same_cursors s1' s2'.
Proof.
  destruct (v1_ward_run 0.9 39690 35721 low_source)
    as (out & s1' & Hrun & _ & Hpy & Hnp); [reflexivity|reflexivity|lia|].
  destruct (render_deterministic ward low_source other_source s1' out) as [H1 _].
  - split; reflexivity.
  - rewrite Hpy, Hnp. split; intros k Hk; simpl in *.
    + lia.
    + rewrite decide_True by lia. reflexivity.
  - destruct (H1 Hrun) as (s2' & Hrun2 & Hc).
    exists out, s1', s2'. split; [exact Hrun|]. split; [exact Hrun2|exact Hc].
Defined.

End determinism_claims.

(* ================================================================== *)
(** * The two scripts compared                                          *)
(* ================================================================== *)

Section two_scripts.
Local Open Scope R_scope.

Lemma zip_arrays_rows {A} (f : A → A → A) (a b c : list A) :
  Py.zip_arrays f a b = Some c → length a = length b →
  length c = length a ∧
  ∀ i x y, a !! i = Some x → b !! i = Some y → c !! i = Some (f x y).
Proof.
  unfold Py.zip_arrays. intros Hc Hab. rewrite decide_True in Hc by done.
  injection Hc as <-. split; [rewrite length_zip_with; lia|].
  intros i x y Hx Hy. rewrite lookup_zip_with, Hx. simpl. by rewrite Hy.
Qed.

Lemma lowpass_Some_rows (x y : list R) (cutoff_hz : R) (sr : Z) :
  V1._apply_lowpass x cutoff_hz sr = Some y →
  0 < cutoff_hz → (0 < sr)%Z →
  is_lowpass (lowpass_alpha cutoff_hz sr) x y.
Proof.
  intros Hy Hc Hsr. destruct x as [|x0 x'].
  { by rewrite (proj1 (filters_empty cutoff_hz sr)) in Hy. }
  destruct (lowpass_total (x0 :: x') cutoff_hz sr) as (y' & Hy' & Hlp); [done|done|done|].
  by assert (y' = y) as -> by congruence.
Qed.

Lemma highpass_Some_rows (x y : list R) (cutoff_hz : R) (sr : Z) :
  V1._apply_highpass x cutoff_hz sr = Some y →
  0 < cutoff_hz → (0 < sr)%Z →
  is_highpass (highpass_alpha cutoff_hz sr) x y.
Proof.
  intros Hy Hc Hsr. destruct x as [|x0 x'].
  { by rewrite (proj2 (filters_empty cutoff_hz sr)) in Hy. }
  destruct (highpass_total (x0 :: x') cutoff_hz sr) as (y' & Hy' & Hhp); [done|done|done|].
  by assert (y' = y) as -> by congruence.
Qed.

(** The first row of gale before the fade, with the noise constantly -1:
    the modulation starts at 0.7, so the row is not zero. *)
Lemma gale_core_first_row (d : float) (n : Z) (s s1 : Rng)
    (t nz base whoosh x0 x1 x2 : list R) :
  (2 <= n)%Z →
  (∀ k, np_tape s k = 0) →
  Py.linspace_open 0 (Py.to_R d) n = Some t →
  uniform (-1) 1 n s = Some (nz, s1) →
  V1._apply_lowpass nz 1200 SAMPLE_RATE = Some base →
  Py.zip_arrays Rplus (smul 0.6 (V1._sine 0.7 t)) (smul 0.4 (V1._sine 1.3 t)) = Some whoosh →
  Py.zip_arrays Rmult base (sadd 0.4 (smul 0.6 (sadd 0.5 (smul 0.5 whoosh)))) = Some x0 →
  V1._apply_highpass x0 80 SAMPLE_RATE = Some x1 →
  V1._normalize_peak x1 0.8 = Some x2 →
  length x2 = Z.to_nat n ∧
  ∃ a0 a1, x2 !! 0%nat = Some a0 ∧ x2 !! 1%nat = Some a1 ∧ a0 ≠ 0.
Proof.
  intros Hn Htape Ht Hnz Hbase Hw Hx0 Hx1 Hx2. pose proof sample_rate_pos as Hsr.
  (* the time base starts at 0 *)
  unfold Py.linspace_open in Ht. rewrite decide_False in Ht by lia. injection Ht as <-.
  set (t := (λ i : nat, 0 + INR i * ((Py.to_R d - 0) / IZR n)) <$> seq 0 (Z.to_nat n)) in *.
  assert (length t = Z.to_nat n) as Hlt by (unfold t; by rewrite length_fmap, length_seq).
  assert (t !! 0%nat = Some (0 + INR 0 * ((Py.to_R d - 0) / IZR n))) as Ht0.
  { unfold t. rewrite list_lookup_fmap, lookup_seq_lt by lia. done. }
  (* the noise is -1 *)
  unfold uniform in Hnz. rewrite decide_False in Hnz by lia. injection Hnz as <- _.
  set (nz := (λ k : nat, -1 + (1 - -1) * np_tape s (np_pos s + k)) <$> seq 0 (Z.to_nat n)) in *.
  assert (length nz = Z.to_nat n) as Hlnz by (unfold nz; by rewrite length_fmap, length_seq).
  assert (nz !! 0%nat = Some (-1 + (1 - -1) * np_tape s (np_pos s + 0))) as Hnz0.
  { unfold nz. rewrite list_lookup_fmap, lookup_seq_lt by lia. done. }
  rewrite Htape in Hnz0.
  (* low-pass *)
  destruct (lowpass_Some_rows nz base 1200 SAMPLE_RATE Hbase) as (Hlb & Hb0 & _); [lra|done|].
  rewrite Hnz0 in Hb0.
  (* modulation *)
  destruct (zip_arrays_rows Rplus _ _ _ Hw) as (Hlw & Hwrows).
  { by rewrite !smul_length, !sine_length. }
  rewrite smul_length, sine_length in Hlw.
  assert (whoosh !! 0%nat
          = Some (0.6 * sin (2 * PI * 0.7 * (0 + INR 0 * ((Py.to_R d - 0) / IZR n)))
                  + 0.4 * sin (2 * PI * 1.3 * (0 + INR 0 * ((Py.to_R d - 0) / IZR n)))))
    as Hw0.
  { apply Hwrows; unfold smul, V1._sine; rewrite !list_lookup_fmap, Ht0; done. }
  destruct (zip_arrays_rows Rmult _ _ _ Hx0) as (Hlx0 & Hx0rows).
  { rewrite !sadd_length, !smul_length, !sadd_length, !smul_length. lia. }
  set (w0 := 0.6 * sin (2 * PI * 0.7 * (0 + INR 0 * ((Py.to_R d - 0) / IZR n)))
             + 0.4 * sin (2 * PI * 1.3 * (0 + INR 0 * ((Py.to_R d - 0) / IZR n)))) in *.
  assert (sadd 0.4 (smul 0.6 (sadd 0.5 (smul 0.5 whoosh))) !! 0%nat
          = Some (0.4 + 0.6 * (0.5 + 0.5 * w0))) as Hmod0.
  { unfold sadd, smul. rewrite !list_lookup_fmap, Hw0. done. }
  pose proof (Hx0rows 0%nat _ _ Hb0 Hmod0) as Hx00.
  (* high-pass and normalisation *)
  destruct (highpass_Some_rows x0 x1 80 SAMPLE_RATE Hx1) as (Hlx1 & Hx10 & _); [lra|done|].
  rewrite Hx00 in Hx10.
  destruct (normalize_peak_Some x1 x2 0.8 Hx2) as (m & Hm & ->).
  apply max_abs_Some in Hm as (_ & Hm0 & _).
  split; [rewrite length_fmap; lia|].
  destruct (lookup_Some_lt x1 1) as [b1 Hb1]; [lia|].
  eexists _, _. rewrite !list_lookup_fmap, Hx10, Hb1. split; [done|]. split; [done|].
  assert (w0 = 0) as ->.
  { unfold w0. change (INR 0) with 0.
    replace (2 * PI * 0.7 * (0 + 0 * ((Py.to_R d - 0) / IZR n))) with 0 by lra.
    replace (2 * PI * 1.3 * (0 + 0 * ((Py.to_R d - 0) / IZR n))) with 0 by lra.
    rewrite sin_0. lra. }
  simpl. pose proof eps_pos.
  set (e := m + 1e-12). assert (0 < e) as He by (unfold e; lra).
  assert (/ e ≠ 0) as Hie by (apply Rinv_neq_0_compat; lra).
  unfold Rdiv. intros Heq.
  assert (/ e = 0) by nra. done.
Qed.

Lemma fade_row_in_only {A} `{Frame A} (n : nat) (fi fo : Z) (i : nat) (a : A) :
  (Z.of_nat i < fi)%Z → (Z.of_nat i < Z.of_nat n - fo)%Z →
  fade_row n fi fo i a = scale a (Py.linspace_at 0 1 fi i).
Proof.
  intros H1 H2. unfold fade_row.
  rewrite (decide_False (P := (Z.of_nat n - fo <= Z.of_nat i)%Z)) by lia.
  by rewrite decide_True by lia.
Qed.

(** What the two scripts do to gale after the normalisation gives row 1
    a different right channel as soon as row 0 is not zero: the first script
    fades and then low-passes, the second low-passes and then fades. *)
Lemma gale_tails_differ (x2 x3 r1 r2 : list R) (out1 st out2 : list (R * R)) (a0 a1 : R) :
  x2 !! 0%nat = Some a0 → x2 !! 1%nat = Some a1 → a0 ≠ 0 →
  (5294 <= Z.of_nat (length x2))%Z →
  V1._fade x2 SAMPLE_RATE 0.03 0.12 = Some x3 →
  V1._apply_lowpass x3 900 SAMPLE_RATE = Some r1 →
  stack (smul 1.0 x3) r1 = Some out1 →
  V2.lowpass x2 900 SAMPLE_RATE = Some r2 →
  stack x2 r2 = Some st →
  V2.fade st SAMPLE_RATE 0.03 0.12 = Some out2 →
  out1 !! 1%nat ≠ out2 !! 1%nat.
Proof.
  intros Ha0 Ha1 Hne Hlen Hx3 Hr1 Ho1 Hr2 Hst Ho2. pose proof sample_rate_pos as Hsr.
  pose proof (lowpass_alpha_unit 900 SAMPLE_RATE ltac:(lra) Hsr) as Halpha.
  set (alpha := lowpass_alpha 900 SAMPLE_RATE) in *.
  assert (Py.linspace_at 0 1 1323 1 = 1 / 1322) as Hg1.
  { unfold Py.linspace_at. rewrite decide_False by lia.
    replace (1323 - 1)%Z with 1322%Z by lia. change (INR 1) with 1. lra. }
  (* first script: fade, then low-pass *)
  destruct (fade_rows x2 SAMPLE_RATE 0.03 0.12 1323 5292) as (x3' & Hx3' & Hl3 & Hrows3);
    [reflexivity|reflexivity|lia|lia|].
  assert (x3' = x3) as -> by congruence.
  pose proof (Hrows3 _ _ Ha0) as H30. pose proof (Hrows3 _ _ Ha1) as H31.
  rewrite fade_row_in_only in H30, H31 by lia.
  rewrite linspace_at_first in H30. rewrite Hg1 in H31.
  unfold scale in H30, H31. simpl in H30, H31.
  destruct (lowpass_Some_rows x3 r1 900 SAMPLE_RATE Hr1) as (Hlr1 & Hr10 & Hr1rec); [lra|done|].
  destruct (Hr1rec 1%nat) as (y1 & xi & Hy1 & Hxi & Hr11); [lia|].
  simpl in Hy1. rewrite Hr10, H30 in Hy1. injection Hy1 as <-.
  rewrite H31 in Hxi. injection Hxi as <-.
  unfold stack in Ho1. rewrite decide_True in Ho1 by (rewrite smul_length; lia).
  injection Ho1 as <-.
  (* second script: low-pass, then fade *)
  destruct (lowpass_Some_rows x2 r2 900 SAMPLE_RATE Hr2) as (Hlr2 & Hr20 & Hr2rec); [lra|done|].
  destruct (Hr2rec 1%nat) as (y1 & xi & Hy1 & Hxi & Hr21); [lia|].
  simpl in Hy1. rewrite Hr20, Ha0 in Hy1. injection Hy1 as <-.
  rewrite Ha1 in Hxi. injection Hxi as <-.
  unfold stack in Hst. rewrite decide_True in Hst by lia. injection Hst as <-.
  destruct (fade_rows (zip x2 r2) SAMPLE_RATE 0.03 0.12 1323 5292)
    as (out2' & Ho2' & Hl2 & Hrows2);
    [reflexivity|reflexivity|rewrite length_zip; lia|rewrite length_zip; lia|].
  assert (out2' = out2) as -> by (rewrite fade_same in Ho2; congruence).
  assert (zip x2 r2 !! 1%nat = Some (a1, a0 + alpha * (a1 - a0))) as Hst1.
  { apply lookup_zip_Some. done. }
  pose proof (Hrows2 _ _ Hst1) as H21.
  rewrite fade_row_in_only in H21 by (rewrite ?length_zip; lia).
  rewrite Hg1 in H21. unfold scale in H21. simpl in H21.
  (* the right channels of row 1 *)
  rewrite H21.
  assert (zip (smul 1.0 x3) r1 !! 1%nat
          = Some (1.0 * (a1 * (1 / 1322)),
                  a0 * 0 + alpha * (a1 * (1 / 1322) - a0 * 0))) as ->.
  { apply lookup_zip_Some. split; [|done].
    unfold smul. rewrite list_lookup_fmap, H31. done. }
  intros [= _ Hright]. apply Hne.
  assert ((1 - alpha) * a0 = 0) as Hz by lra.
  apply Rmult_integral in Hz as [Hz|Hz]; [lra|done].
Qed.

End two_scripts.

Section two_scripts_claims.
Local Open Scope R_scope.

(** C3, as amended.  The two scripts share their building blocks: peak
    normalisation, the fade of stereo arrays, the low-pass, the high-pass,
    the comb filter, the reverb, the sine and the noise are the same
    functions; and from the same valid random source every recipe renders,
    in both, a buffer of the same number of rows.  The samples are not the
    same: the recipes of the second script fade after the reverb, those of
    the first before it. *)
Theorem scripts_share_building_blocks (name : glyph) (s : Rng) :
  valid s →
  (∀ (x : list (R * R)) (peak : R), V2.normalize_peak x peak = V1._normalize_peak x peak) ∧
  (∀ (x : list R) (peak : R), V2.normalize_peak x peak = V1._normalize_peak x peak) ∧
  (∀ x sr fi fo, V2.fade x sr fi fo = V1._fade x sr fi fo) ∧
  (∀ x cutoff_hz sr, V2.lowpass x cutoff_hz sr = V1._apply_lowpass x cutoff_hz sr) ∧
  (∀ x cutoff_hz sr, V2.highpass x cutoff_hz sr = V1._apply_highpass x cutoff_hz sr) ∧
  (∀ x delay_ms feedback sr,
     V2.comb_filter x delay_ms feedback sr = V1._comb_filter x delay_ms feedback sr) ∧
  (∀ st sr decay taps base_ms,
     V2.reverb_simple st sr decay taps base_ms
     = V1._reverb_simple st sr decay taps base_ms) ∧
  (∀ f t, V2.sine f t = V1._sine f t) ∧
  (∀ n, V2.noise n = V1._noise n) ∧
  ∃ out1 s1 out2 s2,
    V1.render name s = Some (out1, s1) ∧
    V2.render name s = Some (out2, s2) ∧
    length out1 = length out2.
Proof.
  intros Hv. repeat (split; [reflexivity|]).
  destruct (v1_render_run name s Hv) as (out1 & s1 & n1 & H1 & Hn1 & Hl1).
  destruct (v2_render_run name s Hv) as (out2 & s2 & n2 & H2 & Hn2 & Hl2).
  assert (n2 = n1) as -> by congruence.
  exists out1, s1, out2, s2. split; [exact H1|]. split; [exact H2|]. lia.
Qed.

Lemma scripts_share_building_blocks_witness :
  (∀ (x : list (R * R)) (peak : R), V2.normalize_peak x peak = V1._normalize_peak x peak) ∧
  (∀ (x : list R) (peak : R), V2.normalize_peak x peak = V1._normalize_peak x peak) ∧
  (∀ x sr fi fo, V2.fade x sr fi fo = V1._fade x sr fi fo) ∧
  (∀ x cutoff_hz sr, V2.lowpass x cutoff_hz sr = V1._apply_lowpass x cutoff_hz sr) ∧
  (∀ x cutoff_hz sr, V2.highpass x cutoff_hz sr = V1._apply_highpass x cutoff_hz sr) ∧
  (∀ x delay_ms feedback sr,
     V2.comb_filter x delay_ms feedback sr = V1._comb_filter x delay_ms feedback sr) ∧
  (∀ st sr decay taps base_ms,
     V2.reverb_simple st sr decay taps base_ms
     = V1._reverb_simple st sr decay taps base_ms) ∧
  (∀ f t, V2.sine f t = V1._sine f t) ∧
  (∀ n, V2.noise n = V1._noise n) ∧
  ∃ out1 s1 out2 s2,
    V1.render gale low_source = Some (out1, s1) ∧
    V2.render gale low_source = Some (out2, s2) ∧
    length out1 = length out2.
Proof.
  apply (scripts_share_building_blocks gale low_source). intros k. simpl. lra.
Defined.

(** C3, as stated, fails: from the same random source (here with the noise
    constantly -1) the two scripts render different buffers for gale at its
    configured duration; the right channel of row 1 differs. *)
Lemma gale_buffers_differ :
  valid low_source ∧
  ∃ out1 s1 out2 s2,
    V1.render gale low_source = Some (out1, s1) ∧
    V2.render gale low_source = Some (out2, s2) ∧
    out1 !! 1%nat ≠ out2 !! 1%nat.
Proof.
  split; [exact low_source_valid|].
  destruct (v1_render_run gale low_source low_source_valid)
    as (out1 & s1 & n1 & H1 & _ & _).
  destruct (v2_render_run gale low_source low_source_valid)
    as (out2 & s2 & n2 & H2 & _ & _).
  exists out1, s1, out2, s2. split; [exact H1|]. split; [exact H2|].
  unfold V1.render in H1. unfold V2.render in H2.
  cbv [V1.GENERATORS V2.GENERATORS DURATION_S] in H1, H2.
  unfold V1.sfx_gale, V1._noise in H1. unfold V2.sfx_gale, V2.noise in H2.
  change V2.lowpass with V1._apply_lowpass in H2.
  change V2.highpass with V1._apply_highpass in H2.
  change V2.sine with V1._sine in H2.
  change (@V2.normalize_peak) with (@V1._normalize_peak) in H2.
  inv_binds H1. inv_binds H2.
  repeat match goal with
         | Ha : ?e = Some _, Hb : ?e = Some _ |- _ =>
             rewrite Ha in Hb; injection Hb as ?; subst
         end.
  match goal with
  | Hn : samples SAMPLE_RATE _ = Some ?n |- _ =>
      assert (n = 39690%Z) as -> by (vm_compute in Hn; congruence)
  end.
  match goal with
  | Ht : Py.linspace_open _ _ _ = Some ?t,
    Hu : uniform _ _ _ _ = Some (?nz, _),
    Hb : V1._apply_lowpass ?nz 1200 _ = Some ?base,
    Hw : Py.zip_arrays Rplus _ _ = Some ?whoosh,
    Hm : Py.zip_arrays Rmult ?base _ = Some ?x0,
    Hh : V1._apply_highpass ?x0 80 _ = Some ?x1,
    Hn : V1._normalize_peak ?x1 0.8 = Some ?x2 |- _ =>
      destruct (gale_core_first_row _ 39690 low_source _ t nz base whoosh x0 x1 x2
                  ltac:(lia) (λ _, eq_refl) Ht Hu Hb Hw Hm Hh Hn)
        as (Hlx2 & a0 & a1 & Ha0 & Ha1 & Hne)
  end.
  match goal with
  | Hf : V1._fade ?x2 _ _ _ = Some ?x3,
    Hl1 : V1._apply_lowpass ?x3 900 _ = Some ?r1,
    Hl2 : V1._apply_lowpass ?x2 900 _ = Some ?r2,
    Hs : stack ?x2 ?r2 = Some ?st |- _ =>
      apply (gale_tails_differ x2 x3 r1 r2 out1 st out2 a0 a1 Ha0 Ha1 Hne
               ltac:(lia) Hf Hl1 H1 Hl2 Hs H2)
  end.
Qed.

End two_scripts_claims.
